(** * CodeClash rooms gateway: the session action router and its room service

    A shallow embedding of [RoomsGateway] (api-server, rooms.gateway.ts) and
    of the [RoomsService] it is injected with.  The gateway is embedded from
    its source, handler by handler, as computations over an explicit world:
    the service state, the sockets of the namespace with their [data], the
    pending timers of the JavaScript runtime, the suspended [async]
    continuations and the log of emitted events.  The service is an
    interface (a type class, as the gateway receives it by dependency
    injection); one instance of it is modelled from the specification. *)

From stdpp Require Import gmap strings list fin_maps pretty.

Open Scope string_scope.
Open Scope list_scope.
Open Scope nat_scope.

(** ** Identifiers and constants *)

Abbreviation UserName := string (only parsing).
Abbreviation SocketId := string (only parsing).
Abbreviation RoomId := string (only parsing).
Abbreviation ItemKind := string (only parsing).
Abbreviation Handle := nat (only parsing).

(** A room id the way the gateway holds it in [client.data.roomId]:
    [undefined] until the connection enters its first room. *)
Abbreviation RoomRef := (option string) (only parsing).

(** Modelled from the spec: rooms.constants ([LOBBY_ID]) is not among the
    sources.  The Lobby is "a distinguished pseudo-Room (LOBBY_ID)"; the
    gateway addresses the same room by the literal ['lobby'] (lines 110, 163,
    309, 319), so the constant is that string. *)
Definition LOBBY_ID : string := "lobby".

(** Modelled from the spec: rooms.constants ([SUCCESS_STATUS]); the handlers
    that do not use the constant answer with the literal ['success']. *)
Definition SUCCESS_STATUS : string := "success".

(** The error kinds of the specification (7), with the two ways a handler
    can fail that are not statuses: an invalid state transition and the
    [TypeError] of reading a property of [undefined]. *)
Inductive ErrorKind :=
| Unauthenticated | AlreadyConnected | RoomNotFound | RoomFull
| NotAMember | ItemNotOwned | Unauthorized
| InvalidTransition | TypeError.

Inductive Status := Success | Failed (e : ErrorKind).

Inductive RoomState := waiting | playing | over.

#[global] Instance ErrorKind_eq_dec : EqDecision ErrorKind.
Proof. solve_decision. Defined.
#[global] Instance Status_eq_dec : EqDecision Status.
Proof. solve_decision. Defined.
#[global] Instance RoomState_eq_dec : EqDecision RoomState.
Proof. solve_decision. Defined.

(** ** Messages *)

(** The values the gateway puts in payloads and acknowledgements. *)
Inductive Val :=
| VUndef
| VStr (s : string)
| VNum (n : nat)
| VBool (b : bool)
| VStatus (st : Status)
| VList (l : list string).

Abbreviation Payload := (list (string * Val)) (only parsing).

Definition VRef (r : RoomRef) : Val :=
  match r with Some s => VStr s | None => VUndef end.

Definition VCount (n : option nat) : Val :=
  match n with Some k => VNum k | None => VUndef end.

(** Whom an emit addresses: [socket.emit] and [server.to(socketId)],
    [server.in(room)], and [client.to(room)] (the room without the sender). *)
Inductive Target :=
| ToSocket (sid : SocketId)
| InRoom (r : RoomRef)
| RoomExcept (r : RoomRef) (sender : SocketId).

Record Emit := mkEmit {
  target : Target;
  event : string;
  payload : Payload
}.

#[global] Instance Val_eq_dec : EqDecision Val.
Proof. solve_decision. Defined.
#[global] Instance Target_eq_dec : EqDecision Target.
Proof. solve_decision. Defined.
#[global] Instance Emit_eq_dec : EqDecision Emit.
Proof. solve_decision. Defined.

(** ** Rooms, members, sockets *)

Record User := mkUser {
  user_id : string;
  user_name : UserName
}.

#[global] Instance User_eq_dec : EqDecision User.
Proof. solve_decision. Defined.

(** [RoomsUserDto] as the gateway builds it with [plainToClass]; [enterRoom]
    leaves [passed] out (line 177-182), [enterLobby] sets it to [false]. *)
Record RoomsUserDto := mkDto {
  socketId : SocketId;
  userName : UserName;
  ready : bool;
  passed : option bool;
  itemList : gmap string nat
}.

Record Room := mkRoom {
  roomName : string;
  capacity : option nat;
  state : RoomState;
  userList : gmap string RoomsUserDto;
  timer : option Handle;
  itemCreator : option Handle
}.

(** [socket.data] and the socket.io rooms the socket has joined.
    [data.token] and [data.type] are written once by [handleConnection] and
    read by no handler; they are left out. *)
Record Socket := mkSocket {
  sock_user : option User;
  sock_roomId : RoomRef;
  sock_passed : bool;
  sock_rooms : gset string
}.

(** The timers of the runtime: every pending [setTimeout] and every active
    [setInterval], each with the [roomId] its callback closes over. *)
Record Runtime := mkRuntime {
  timeouts : gmap nat (option string);
  intervals : gmap nat (option string);
  nextHandle : Handle
}.

Definition setTimeout (r : RoomRef) (rt : Runtime) : Handle * Runtime :=
  (nextHandle rt,
   mkRuntime (<[nextHandle rt := r]> (timeouts rt)) (intervals rt) (S (nextHandle rt))).

Definition setInterval (r : RoomRef) (rt : Runtime) : Handle * Runtime :=
  (nextHandle rt,
   mkRuntime (timeouts rt) (<[nextHandle rt := r]> (intervals rt)) (S (nextHandle rt))).

(** [clearTimeout] and [clearInterval] are interchangeable in Node. *)
Definition clearTimer (h : Handle) (rt : Runtime) : Runtime :=
  mkRuntime (delete h (timeouts rt)) (delete h (intervals rt)) (nextHandle rt).

Definition clearTimeout := clearTimer.
Definition clearInterval := clearTimer.

Definition clearOpt (h : option Handle) (rt : Runtime) : Runtime :=
  match h with Some t => clearTimer t rt | None => rt end.

(** ** The world a handler runs in *)

Record World (S : Type) := mkWorld {
  svc : S;
  sockets : gmap string Socket;
  rt : Runtime;
  pendingAuth : gset string;
  pendingStarts : list (option string);
  outbox : list Emit
}.
Arguments mkWorld {S}.
Arguments svc {S}.
Arguments sockets {S}.
Arguments rt {S}.
Arguments pendingAuth {S}.
Arguments pendingStarts {S}.
Arguments outbox {S}.

(** A handler either returns or throws; what it did before throwing stays
    done. *)
Inductive Outcome (A : Type) :=
| Return (a : A)
| Throw (e : ErrorKind).
Arguments Return {A}.
Arguments Throw {A}.

Definition Gw (S A : Type) : Type := World S → Outcome A * World S.

#[global] Instance Gw_ret {S} : MRet (Gw S) :=
  λ A a w, (Return a, w).

#[global] Instance Gw_bind {S} : MBind (Gw S) :=
  λ A B k m w,
    match m w with
    | (Return a, w') => k a w'
    | (Throw e, w') => (Throw e, w')
    end.

Definition throw {S A} (e : ErrorKind) : Gw S A := λ w, (Throw e, w).

Definition exec {S A} (m : Gw S A) (w : World S) : World S := (m w).2.
Definition outcome {S A} (m : Gw S A) (w : World S) : Outcome A := (m w).1.

(** What a handler answers to the acting connection: nothing ([undefined]),
    an object, or what a service query returned. *)
Inductive Reply :=
| NoReply
| Ack (p : list (string * Val))
| AckInfo (o : option (list (string * Val)))
| AckList (l : list (list (string * Val))).

(** ** The injected service

    [RoomsGateway] is constructed with a [RoomsService] (line 38) and
    reaches all room and presence state through its methods.  The methods
    the gateway calls, with the results it uses.  A method that can cancel
    timers takes the runtime; a method the specification lets fail without a
    status throws. *)
Module RoomsService.
Class Ops (S : Type) := {
  isConnectedUser : UserName → S → bool;
  registerSocketId : UserName → SocketId → S → S;
  deleteSocketId : UserName → S → S;
  getSocketId : UserName → S → option SocketId;
  lobbyInfo : S → list (list (string * Val));
  roomInfo : RoomRef → S → option (list (string * Val));
  getGameRoom : RoomRef → S → option Room;
  roomUserCount : RoomRef → S → option nat;
  roomHasUser : RoomRef → string → S → bool;
  roomSocketIdList : RoomRef → S → list SocketId;
  createRoom : string → nat → S → RoomId * S;
  enterRoom : RoomRef → RoomRef → RoomsUserDto → S → ErrorKind + S;
  exitRoom : RoomRef → UserName → Runtime → S → bool * Runtime * S;
  switchReady : RoomRef → UserName → S → ErrorKind + bool * S;
  allUserReady : RoomRef → S → bool;
  kick : RoomRef → UserName → UserName → Runtime → S → Status * Runtime * S;
  useItem : RoomRef → UserName → ItemKind → S → Status * S;
  assignItem : RoomRef → UserName → nat → S → ItemKind * S;
  dm : UserName → S → Status;
  invite : RoomRef → RoomRef → UserName → S → list (string * Val);
  getTimer : RoomRef → S → option Handle;
  setTimer : RoomRef → Handle → S → S;
  setItemCreator : RoomRef → Handle → S → S;
  allUserPassed : RoomRef → S → bool;
  changeRoomState : RoomRef → RoomState → S → ErrorKind + S;
  gameOver : RoomRef → Runtime → S → Runtime * S
}.
End RoomsService.

(** ** Primitive steps of a handler *)

Section Primitives.
Context {S : Type}.

Definition setSvc (s : S) (w : World S) : World S :=
  mkWorld s (sockets w) (rt w) (pendingAuth w) (pendingStarts w) (outbox w).
Definition setSockets (m : gmap string Socket) (w : World S) : World S :=
  mkWorld (svc w) m (rt w) (pendingAuth w) (pendingStarts w) (outbox w).
Definition setRt (r : Runtime) (w : World S) : World S :=
  mkWorld (svc w) (sockets w) r (pendingAuth w) (pendingStarts w) (outbox w).
Definition setPendingAuth (p : gset string) (w : World S) : World S :=
  mkWorld (svc w) (sockets w) (rt w) p (pendingStarts w) (outbox w).
Definition setPendingStarts (p : list (option string)) (w : World S) : World S :=
  mkWorld (svc w) (sockets w) (rt w) (pendingAuth w) p (outbox w).
Definition setOutbox (o : list Emit) (w : World S) : World S :=
  mkWorld (svc w) (sockets w) (rt w) (pendingAuth w) (pendingStarts w) o.

(** A service query. *)
Definition ask {A} (f : S → A) : Gw S A := λ w, (Return (f (svc w)), w).
(** A service update without result. *)
Definition tell (f : S → S) : Gw S unit := λ w, (Return (), setSvc (f (svc w)) w).
(** A service update with a result. *)
Definition call {A} (f : S → A * S) : Gw S A :=
  λ w, let '(a, s) := f (svc w) in (Return a, setSvc s w).
(** A service update that may throw; a throw leaves the service as it was. *)
Definition try_ {A} (f : S → ErrorKind + A * S) : Gw S A :=
  λ w, match f (svc w) with
       | inr (a, s) => (Return a, setSvc s w)
       | inl e => (Throw e, w)
       end.
Definition tryTell (f : S → ErrorKind + S) : Gw S unit :=
  λ w, match f (svc w) with
       | inr s => (Return (), setSvc s w)
       | inl e => (Throw e, w)
       end.
(** A service update that may cancel timers. *)
Definition callRt {A} (f : Runtime → S → A * Runtime * S) : Gw S A :=
  λ w, let '(a, r, s) := f (rt w) (svc w) in (Return a, setRt r (setSvc s w)).
Definition tellRt (f : Runtime → S → Runtime * S) : Gw S unit :=
  λ w, let '(r, s) := f (rt w) (svc w) in (Return (), setRt r (setSvc s w)).
(** The runtime's own timer functions. *)
Definition runtime {A} (f : Runtime → A * Runtime) : Gw S A :=
  λ w, let '(a, r) := f (rt w) in (Return a, setRt r w).
Definition runtime_ (f : Runtime → Runtime) : Gw S unit :=
  λ w, (Return (), setRt (f (rt w)) w).

(** [server.in(..).emit], [client.to(..).emit], [socket.emit]. *)
Definition emit (t : Target) (e : string) (p : list (string * Val)) : Gw S unit :=
  λ w, (Return (), setOutbox (outbox w ++ [mkEmit t e p]) w).

(** [socket.data] of a socket of the namespace. *)
Definition dataOf (sid : SocketId) : Gw S Socket :=
  λ w, match sockets w !! sid with
       | Some d => (Return d, w)
       | None => (Throw TypeError, w)
       end.

(** [this.socket(id)] (lines 357-359) is [this.server.sockets[id]].  The
    server of a gateway with a namespace is that namespace, and its
    [sockets] is a [Map] from socket ids to sockets (the handlers read
    [socket.data], which goes with it).  Brackets on a [Map] read a
    property of the object, not an entry, and no socket id is one: the
    result is [undefined] for every id. *)
Definition socket (id : option SocketId) : Gw S (option SocketId) :=
  λ w, (Return None, w).

(** Reading a property of what [this.socket] returned. *)
Definition deref (o : option SocketId) : Gw S SocketId :=
  match o with Some sid => mret sid | None => throw TypeError end.

(** [client.data.user.name]: a [TypeError] when no user is bound. *)
Definition userOf (sid : SocketId) : Gw S User :=
  d ← dataOf sid;
  match sock_user d with Some u => mret u | None => throw TypeError end.

(** Whether the socket is still in the namespace, and its removal. *)
Definition present (sid : SocketId) : Gw S bool :=
  λ w, (Return (bool_decide (is_Some (sockets w !! sid))), w).
Definition forget (sid : SocketId) : Gw S unit :=
  λ w, (Return (), setSockets (delete sid (sockets w)) w).

(** A handler suspended at an [await]: the handshake of a socket waiting
    for the user lookup, a round start waiting for its problems. *)
Definition suspendAuth (sid : SocketId) : Gw S unit :=
  λ w, (Return (), setPendingAuth ({[sid]} ∪ pendingAuth w) w).
Definition suspendStart (r : RoomRef) : Gw S unit :=
  λ w, (Return (), setPendingStarts (pendingStarts w ++ [r]) w).

Definition update (sid : SocketId) (f : Socket → Socket) : Gw S unit :=
  λ w, (Return (), setSockets (alter f sid (sockets w)) w).

Definition setRoomId (r : RoomRef) (d : Socket) : Socket :=
  mkSocket (sock_user d) r (sock_passed d) (sock_rooms d).
Definition setPassed (b : bool) (d : Socket) : Socket :=
  mkSocket (sock_user d) (sock_roomId d) b (sock_rooms d).
Definition setUser (u : User) (d : Socket) : Socket :=
  mkSocket (Some u) (sock_roomId d) (sock_passed d) (sock_rooms d).
Definition joinRoom (r : RoomRef) (d : Socket) : Socket :=
  match r with
  | Some x => mkSocket (sock_user d) (sock_roomId d) (sock_passed d) ({[x]} ∪ sock_rooms d)
  | None => d
  end.
Definition leaveRoom (r : RoomRef) (d : Socket) : Socket :=
  match r with
  | Some x => mkSocket (sock_user d) (sock_roomId d) (sock_passed d) (sock_rooms d ∖ {[x]})
  | None => d
  end.

(** [client.join(room)], [client.leave(room)]. *)
Definition join (sid : SocketId) (r : RoomRef) : Gw S unit := update sid (joinRoom r).
Definition leave (sid : SocketId) (r : RoomRef) : Gw S unit := update sid (leaveRoom r).

(** JavaScript truthiness of a room id: [undefined] and the empty string
    are falsy. *)
Definition truthy (r : RoomRef) : bool :=
  match r with Some x => negb (String.eqb x "") | None => false end.

(** The connections an emit reaches. *)
Definition members (r : RoomRef) (w : World S) : gset string :=
  match r with
  | Some x => dom (filter (λ kv, x ∈ sock_rooms kv.2) (sockets w))
  | None => ∅
  end.

Definition recipients (t : Target) (w : World S) : gset string :=
  match t with
  | ToSocket sid => if sockets w !! sid is Some _ then {[sid]} else ∅
  | InRoom r => members r w
  | RoomExcept r sender => members r w ∖ {[sender]}
  end.
End Primitives.

(** ** The gateway (rooms.gateway.ts) *)

(** The inbound actions of the namespace, by their [SubscribeMessage] name,
    with the fields the handler reads from the message body. *)
Inductive Msg :=
| MLobbyInfo
| MRoomInfo (roomId : option string)
| MEnterLobby
| MExitLobby
| MCreateRoom (roomName : string) (capacity : nat)
| MEnterRoom (roomId : option string)
| MExitRoom
| MChat (message : string)
| MDm (userName message : string)
| MReady
| MKick (userName : string)
| MItem (item : string)
| MPass
| MExitResult
| MInvite (userName : string).

#[global] Instance Msg_eq_dec : EqDecision Msg.
Proof. solve_decision. Defined.

Module RoomsGateway.
Section Gateway.
Context {S : Type} `{!RoomsService.Ops S}.

Definition fail (message : string) : list (string * Val) :=
  [("status", VStr "fail"); ("message", VStr message)].

Definition success : list (string * Val) := [("status", VStr "success")].

(** Lines 89-115. *)
Definition handleDisconnect (socket : SocketId) : Gw S unit :=
  d ← dataOf socket;
  match sock_user d with
  | None => mret ()
  | Some user =>
    _ ← callRt (RoomsService.exitRoom (sock_roomId d) (user_name user));
    tell (RoomsService.deleteSocketId (user_name user));;
    if truthy (sock_roomId d) then
      if bool_decide (sock_roomId d = Some LOBBY_ID) then
        emit (InRoom (sock_roomId d)) "user_exit_lobby"
          [("userName", VStr (user_name user));
           ("message", VStr (user_name user +:+ " " +:+ default "" (sock_roomId d)
                             +:+ " 방에서 나갔습니다."))]
      else
        info ← ask (RoomsService.roomInfo (sock_roomId d));
        if info is Some _ then
          emit (InRoom (sock_roomId d)) "user_exit_room"
            [("userName", VStr (user_name user));
             ("message", VStr (user_name user +:+ " " +:+ default "" (sock_roomId d)
                               +:+ " 방에서 나갔습니다."))]
        else
          emit (InRoom (Some "lobby")) "delete_room" [("roomId", VRef (sock_roomId d))]
    else mret ()
  end.

(** [socket.disconnect()]: the namespace runs [handleDisconnect] on the
    socket and forgets it; nothing happens to a socket already gone. *)
Definition disconnect (socket : SocketId) : Gw S unit :=
  here ← present socket;
  if here : bool then handleDisconnect socket;; forget socket else mret ().

(** Lines 47-63, up to the [await]: [verified] says whether
    [extractTokenFromHeader] and [verifyToken] returned; then the handler
    is suspended on [getUserByEmail]. *)
Definition handleConnection (socket : SocketId) (rawToken : option string)
    (verified : bool) : Gw S unit :=
  if truthy rawToken then
    if verified then
      suspendAuth socket
    else
      emit (ToSocket socket) "connection" (fail "Token is invalid");;
      disconnect socket
  else
    emit (ToSocket socket) "connection" (fail "Token not found");;
    disconnect socket.

(** Lines 63-86, from the [await] on: [found] is what [getUserByEmail]
    resolved to ([None]: it rejected or gave no user, and the [catch]
    block runs). *)
Definition handleConnection_resume (socket : SocketId) (found : option User)
    : Gw S unit :=
  match found with
  | Some user =>
    connected ← ask (RoomsService.isConnectedUser (user_name user));
    if connected : bool then
      emit (ToSocket socket) "connection" (fail "Already connected user");;
      disconnect socket
    else
      update socket (setUser user);;
      tell (RoomsService.registerSocketId (user_name user) socket)
  | None =>
    emit (ToSocket socket) "connection" (fail "Token is invalid");;
    disconnect socket
  end.

(** Lines 117-125. *)
Definition lobbyInfo : Gw S Reply :=
  l ← ask RoomsService.lobbyInfo; mret (AckList l).

Definition roomInfo (roomId : option string) : Gw S Reply :=
  o ← ask (RoomsService.roomInfo roomId); mret (AckInfo o).

(** Lines 127-145. *)
Definition enterLobby (client : SocketId) : Gw S Reply :=
  user ← userOf client;
  let roomsUserDto := mkDto client (user_name user) false (Some false) ∅ in
  d ← dataOf client;
  tryTell (RoomsService.enterRoom (Some LOBBY_ID) (sock_roomId d) roomsUserDto);;
  join client (Some LOBBY_ID);;
  update client (setRoomId (Some LOBBY_ID));;
  emit (RoomExcept (Some LOBBY_ID) client) "user_enter_lobby"
    [("userName", VStr (userName roomsUserDto))];;
  mret (Ack success).

(** Lines 147-156. *)
Definition exitLobby (client : SocketId) : Gw S Reply :=
  user ← userOf client;
  _ ← callRt (RoomsService.exitRoom (Some LOBBY_ID) (user_name user));
  leave client (Some LOBBY_ID);;
  emit (InRoom (Some LOBBY_ID)) "user_exit_lobby" [("userName", VStr (user_name user))];;
  mret (Ack success).

(** Lines 158-172. *)
Definition createRoom (client : SocketId) (roomName : string) (capacity : nat)
    : Gw S Reply :=
  roomId ← call (RoomsService.createRoom roomName capacity);
  info ← ask (RoomsService.roomInfo (Some roomId));
  user ← userOf client;
  emit (InRoom (Some "lobby")) "user_create_room"
    (default [] info ++ [("userName", VStr (user_name user))]);;
  mret (Ack [("status", VStr "success"); ("roomId", VStr roomId)]).

(** Lines 174-204. *)
Definition enterRoom (client : SocketId) (roomId : option string) : Gw S Reply :=
  user ← userOf client;
  let dto := mkDto client (user_name user) false None ∅ in
  d ← dataOf client;
  tryTell (RoomsService.enterRoom roomId (sock_roomId d) dto);;
  join client roomId;;
  update client (setRoomId roomId);;
  room ← ask (RoomsService.getGameRoom roomId);
  match room with
  | None => throw TypeError
  | Some room =>
    emit (RoomExcept roomId client) "user_enter_room"
      [("userName", VStr (userName dto));
       ("message", VStr (userName dto +:+ " 님이 " +:+ roomName room
                         +:+ " 방에 접속했습니다."))];;
    userCount ← ask (RoomsService.roomUserCount roomId);
    emit (InRoom (Some LOBBY_ID)) "change_user_count"
      [("roomId", VRef roomId); ("userCount", VCount userCount)];;
    mret (Ack [("status", VStr "success"); ("roomId", VRef roomId)])
  end.

(** Lines 206-224. *)
Definition exitRoom (client : SocketId) : Gw S Reply :=
  d ← dataOf client;
  let roomId := sock_roomId d in
  user ← userOf client;
  roomExists ← callRt (RoomsService.exitRoom roomId (user_name user));
  leave client roomId;;
  (if roomExists : bool then
     emit (InRoom roomId) "user_exit_room" [("userName", VStr (user_name user))];;
     userCount ← ask (RoomsService.roomUserCount roomId);
     emit (InRoom (Some LOBBY_ID)) "change_user_count"
       [("roomId", VRef roomId); ("userCount", VCount userCount)]
   else
     emit (InRoom (Some LOBBY_ID)) "delete_room" [("roomId", VRef roomId)]);;
  mret (Ack [("status", VStr SUCCESS_STATUS); ("roomId", VRef roomId)]).

(** Lines 226-235. *)
Definition chat (client : SocketId) (message : string) : Gw S Reply :=
  d ← dataOf client;
  user ← userOf client;
  emit (InRoom (sock_roomId d)) "chat"
    [("userName", VStr (user_name user)); ("message", VStr message)];;
  mret NoReply.

(** Lines 237-249; [server.to(undefined)] reaches nobody. *)
Definition dm (client : SocketId) (userName message : string) : Gw S Reply :=
  targetSocketId ← ask (RoomsService.getSocketId userName);
  user ← userOf client;
  status ← ask (RoomsService.dm (user_name user));
  emit (if targetSocketId is Some t then ToSocket t else InRoom None) "user_dm"
    [("userName", VStr (user_name user)); ("message", VStr message)];;
  mret (Ack [("status", VStatus status)]).

(** Lines 373-375: [start] up to its [await]; the caller does not wait
    for it (line 259). *)
Definition start (roomId : option string) : Gw S unit :=
  suspendStart roomId.

(** Lines 376-384: [start] once the problems have been fetched. *)
Definition start_resume (roomId : option string) (problems : list string)
    : Gw S unit :=
  itemCreator ← runtime (setInterval roomId);
  tryTell (RoomsService.changeRoomState roomId playing);;
  tell (RoomsService.setItemCreator roomId itemCreator);;
  emit (InRoom roomId) "start" [("problems", VList problems)];;
  emit (InRoom (Some LOBBY_ID)) "room_start"
    [("roomId", VRef roomId); ("state", VStr "playing")].

(** Lines 251-261. *)
Definition ready (client : SocketId) : Gw S Reply :=
  d ← dataOf client;
  let roomId := sock_roomId d in
  user ← userOf client;
  ready ← try_ (RoomsService.switchReady roomId (user_name user));
  emit (InRoom roomId) "ready"
    [("userName", VStr (user_name user)); ("ready", VBool ready)];;
  allReady ← ask (RoomsService.allUserReady roomId);
  (if allReady : bool then start roomId else mret ());;
  mret NoReply.

(** Lines 263-282. *)
Definition kick (client : SocketId) (targetUserName : string) : Gw S Reply :=
  d ← dataOf client;
  let roomId := sock_roomId d in
  user ← userOf client;
  status ← callRt (RoomsService.kick roomId (user_name user) targetUserName);
  targetSocketId ← ask (RoomsService.getSocketId targetUserName);
  found ← socket targetSocketId;
  targetSocket ← deref found;
  leave targetSocket roomId;;
  emit (ToSocket targetSocket) "kick"
    [("roomId", VRef roomId); ("userName", VStr (user_name user))];;
  emit (InRoom roomId) "user_exit_room" [("userName", VStr targetUserName)];;
  userCount ← ask (RoomsService.roomUserCount roomId);
  emit (InRoom (Some LOBBY_ID)) "change_user_count"
    [("roomId", VRef roomId); ("userCount", VCount userCount)];;
  mret (Ack [("status", VStatus status)]).

(** Lines 284-296. *)
Definition useItem (client : SocketId) (item : string) : Gw S Reply :=
  d ← dataOf client;
  let roomId := sock_roomId d in
  user ← userOf client;
  status ← call (RoomsService.useItem roomId (user_name user) item);
  emit (RoomExcept roomId client) "item"
    [("status", VStatus status); ("userName", VStr (user_name user));
     ("item", VStr item)];;
  mret NoReply.

(** Lines 316-320: the callback handed to [setTimeout]. *)
Definition countdownExpired (roomId : option string) : Gw S unit :=
  tellRt (RoomsService.gameOver roomId);;
  emit (InRoom roomId) "game_over" [];;
  emit (InRoom (Some "lobby")) "room_game_over" [("roomId", VRef roomId)].

(** Lines 298-324. *)
Definition pass (client : SocketId) : Gw S Reply :=
  d ← dataOf client;
  let roomId := sock_roomId d in
  timer ← ask (RoomsService.getTimer roomId);
  update client (setPassed true);;
  allPassed ← ask (RoomsService.allUserPassed roomId);
  match allPassed, timer with
  | true, Some t =>
    runtime_ (clearTimeout t);;
    tellRt (RoomsService.gameOver roomId);;
    emit (InRoom roomId) "game_over" [];;
    emit (InRoom (Some "lobby")) "room_game_over" [("roomId", VRef roomId)];;
    mret NoReply
  | _, Some _ => mret NoReply
  | _, None =>
    timer ← runtime (setTimeout roomId);
    tell (RoomsService.setTimer roomId timer);;
    emit (InRoom roomId) "countdown" [];;
    mret NoReply
  end.

(** Lines 326-333. *)
Definition exitResult (client : SocketId) : Gw S Reply :=
  d ← dataOf client;
  user ← userOf client;
  has ← ask (RoomsService.roomHasUser (sock_roomId d) (user_id user));
  (if has : bool then emit (ToSocket client) "exit_result" [] else mret ());;
  mret NoReply.

(** Lines 335-355. *)
Definition invite (client : SocketId) (userName : string) : Gw S Reply :=
  targetSocketId ← ask (RoomsService.getSocketId userName);
  found ← socket targetSocketId;
  d ← dataOf client;
  targetUserSocket ← deref found;
  td ← dataOf targetUserSocket;
  user ← userOf client;
  inviteInfo ← ask (RoomsService.invite (sock_roomId d) (sock_roomId td) (user_name user));
  emit (ToSocket targetUserSocket) "invite" inviteInfo;;
  mret (Ack success).

(** Lines 361-371: the [forEach] over the room's socket ids; [seed] stands
    for the randomness [assignItem] draws on, one draw per member. *)
Fixpoint createItem_each (roomId : option string) (seed : nat)
    (socketIdList : list string) : Gw S unit :=
  match socketIdList with
  | [] => mret ()
  | socketId :: rest =>
    found ← socket (Some socketId);
    sock ← deref found;
    user ← userOf sock;
    item ← call (RoomsService.assignItem roomId (user_name user) seed);
    emit (ToSocket sock) "create_item" [("item", VStr item)];;
    createItem_each roomId (Datatypes.S seed) rest
  end.

Definition createItem (roomId : option string) (seed : nat) : Gw S unit :=
  socketIdList ← ask (RoomsService.roomSocketIdList roomId);
  createItem_each roomId seed socketIdList.

(** The [SubscribeMessage] table. *)
Definition dispatch (client : SocketId) (m : Msg) : Gw S Reply :=
  match m with
  | MLobbyInfo => lobbyInfo
  | MRoomInfo roomId => roomInfo roomId
  | MEnterLobby => enterLobby client
  | MExitLobby => exitLobby client
  | MCreateRoom roomName capacity => createRoom client roomName capacity
  | MEnterRoom roomId => enterRoom client roomId
  | MExitRoom => exitRoom client
  | MChat message => chat client message
  | MDm userName message => dm client userName message
  | MReady => ready client
  | MKick userName => kick client userName
  | MItem item => useItem client item
  | MPass => pass client
  | MExitResult => exitResult client
  | MInvite userName => invite client userName
  end.
End Gateway.
End RoomsGateway.

(** ** The event loop

    One logical worker runs one unit of work to completion before the next:
    a connection, the completion of an [await], a disconnect, an inbound
    action, or a timer callback. *)
Inductive Event :=
| Connect (socket : string) (rawToken : option string) (verified : bool)
| UserFetched (socket : string) (found : option User)
| Disconnect (socket : string)
| Message (client : string) (m : Msg)
| TimeoutFires (h : nat)
| IntervalFires (h : nat) (seed : nat)
| ProblemsFetched (i : nat) (problems : list string)
| ProblemsFailed (i : nat).

Section EventLoop.
Context {S : Type} `{!RoomsService.Ops S}.

Definition freshSocket : Socket := mkSocket None None false ∅.

(** Modelled from the spec: [HttpToSocketExceptionFilter]
    (src/common/exception-filter) is not among the sources.  Errors
    "produce a status result delivered only to the acting connection"
    (7): what a handler throws is sent to the client that acted. *)
Definition deliver (client : SocketId) (m : Gw S Reply) (w : World S) : World S :=
  match m w with
  | (Return _, w') => w'
  | (Throw e, w') =>
    setOutbox (outbox w' ++ [mkEmit (ToSocket client) "exception"
                               [("status", VStatus (Failed e))]]) w'
  end.

Definition step (e : Event) (w : World S) : World S :=
  match e with
  | Connect socket rawToken verified =>
    if bool_decide (socket ∈ dom (sockets w) ∨ socket ∈ pendingAuth w) then w
    else exec (RoomsGateway.handleConnection socket rawToken verified)
           (setSockets (<[socket := freshSocket]> (sockets w)) w)
  | UserFetched socket found =>
    if bool_decide (socket ∈ pendingAuth w)
    then exec (RoomsGateway.handleConnection_resume socket found)
           (setPendingAuth (pendingAuth w ∖ {[socket]}) w)
    else w
  | Disconnect socket =>
    exec (RoomsGateway.disconnect socket) w
  | Message client m =>
    if sockets w !! client is Some _
    then deliver client (RoomsGateway.dispatch client m) w
    else w
  | TimeoutFires h =>
    match timeouts (rt w) !! h with
    | Some roomId =>
      exec (RoomsGateway.countdownExpired roomId)
        (setRt (mkRuntime (delete h (timeouts (rt w))) (intervals (rt w))
                  (nextHandle (rt w))) w)
    | None => w
    end
  | IntervalFires h seed =>
    match intervals (rt w) !! h with
    | Some roomId => exec (RoomsGateway.createItem roomId seed) w
    | None => w
    end
  | ProblemsFetched i problems =>
    match pendingStarts w !! i with
    | Some roomId =>
      exec (RoomsGateway.start_resume roomId problems)
        (setPendingStarts (delete i (pendingStarts w)) w)
    | None => w
    end
  | ProblemsFailed i =>
    setPendingStarts (delete i (pendingStarts w)) w
  end.

Definition run (es : list Event) (w : World S) : World S :=
  foldl (λ w e, step e w) w es.

Definition boot (s : S) : World S :=
  mkWorld s ∅ (mkRuntime ∅ ∅ 0) ∅ [] [].
End EventLoop.

(** ** The service, from the specification

    rooms.service.ts is not among the sources.  [SpecService] is the Room
    Directory, the Identity Registry and the Room State Machine of the
    specification (3, 4.1-4.5), under the method names the gateway calls. *)
Module SpecService.

(** Modelled from the spec: the state [RoomsService] keeps, which is not
    among the sources: the Room Directory ("mapping from room identifier
    to Room state"), the Identity Registry ("maps a stable user identity
    to at most one live connection handle") and the source of fresh room
    ids. *)
Record t := mk {
  roomList : gmap string Room;
  socketIds : gmap string string;
  nextRoom : nat
}.

Definition setRooms (m : gmap string Room) (s : t) : t :=
  mk m (socketIds s) (nextRoom s).

Definition lookupRoom (roomId : option string) (s : t) : option Room :=
  match roomId with Some x => roomList s !! x | None => None end.

Definition alterRoom (f : Room → Room) (roomId : option string) (s : t) : t :=
  match roomId with Some x => setRooms (alter f x (roomList s)) s | None => s end.

Definition setUsers (u : gmap string RoomsUserDto) (r : Room) : Room :=
  mkRoom (roomName r) (capacity r) (state r) u (timer r) (itemCreator r).

Definition alterUser (f : RoomsUserDto → RoomsUserDto) (userName : string) (r : Room) : Room :=
  setUsers (alter f userName (userList r)) r.

(** Modelled from the spec: the Lobby, "a distinguished pseudo-Room
    (LOBBY_ID) [...]; it has no capacity limit and no play state", is in
    the directory from the start. *)
Definition lobby : Room := mkRoom "lobby" None waiting ∅ None None.

Definition init : t := mk {[LOBBY_ID := lobby]} ∅ 0.

(** Modelled from the spec: 4.1 [register], [unregister] ("removes the
    mapping; idempotent"), [lookupConnection], and the duplicate-login
    test the gateway makes before it registers. *)
Definition isConnectedUser (userName : string) (s : t) : bool :=
  bool_decide (is_Some (socketIds s !! userName)).

Definition registerSocketId (userName socketId : string) (s : t) : t :=
  mk (roomList s) (<[userName := socketId]> (socketIds s)) (nextRoom s).

Definition deleteSocketId (userName : string) (s : t) : t :=
  mk (roomList s) (delete userName (socketIds s)) (nextRoom s).

Definition getSocketId (userName : string) (s : t) : option string :=
  socketIds s !! userName.

Definition stateName (st : RoomState) : string :=
  match st with waiting => "waiting" | playing => "playing" | over => "over" end.

(** Modelled from the spec: 4.2 [listForLobby], "room summaries (id, name,
    memberCount, capacity, state)", and [get]. *)
Definition summary (roomId : string) (r : Room) : list (string * Val) :=
  [("roomId", VStr roomId); ("roomName", VStr (roomName r));
   ("userCount", VNum (size (userList r))); ("capacity", VCount (capacity r));
   ("state", VStr (stateName (state r)))].

Definition lobbyInfo (s : t) : list (list (string * Val)) :=
  (λ kv, summary kv.1 kv.2) <$> map_to_list (delete LOBBY_ID (roomList s)).

Definition roomInfo (roomId : option string) (s : t) : option (list (string * Val)) :=
  match roomId with
  | Some x => summary x <$> roomList s !! x
  | None => None
  end.

Definition getGameRoom (roomId : option string) (s : t) : option Room :=
  lookupRoom roomId s.

Definition roomUserCount (roomId : option string) (s : t) : option nat :=
  (λ r, size (userList r)) <$> lookupRoom roomId s.

(** Modelled from the spec: 6 [exit_result], "if caller is still a
    recognized room member"; the gateway hands over [user.id] (line 330),
    and that is the key looked up. *)
Definition roomHasUser (roomId : option string) (userId : string) (s : t) : bool :=
  match lookupRoom roomId s with
  | Some r => bool_decide (is_Some (userList r !! userId))
  | None => false
  end.

Definition roomSocketIdList (roomId : option string) (s : t) : list string :=
  match lookupRoom roomId s with
  | Some r => (λ kv, socketId kv.2) <$> map_to_list (userList r)
  | None => []
  end.

(** Modelled from the spec: 4.2 [create], "allocates a fresh unique id,
    room starts in waiting with zero members". *)
Definition createRoom (roomName : string) (capacity : nat) (s : t) : string * t :=
  let roomId := "room" +:+ pretty (nextRoom s) in
  (roomId,
   mk (<[roomId := mkRoom roomName (Some capacity) waiting ∅ None None]> (roomList s))
      (socketIds s) (Datatypes.S (nextRoom s))).

Definition full (r : Room) : bool :=
  match capacity r with
  | Some c => bool_decide (c ≤ size (userList r))%nat
  | None => false
  end.

(** Modelled from the spec: 4.3 [enter], "atomically removes the member
    from previousRoomId (if any, including the Lobby) and adds to roomId.
    Fails with RoomFull if membership count >= capacity, RoomNotFound if
    the room does not exist." *)
Definition enterRoom (roomId prevRoomId : option string) (user : RoomsUserDto) (s : t)
    : ErrorKind + t :=
  match lookupRoom roomId s with
  | None => inl RoomNotFound
  | Some r =>
    if full r then inl RoomFull
    else
      inr (alterRoom (λ r, setUsers (<[userName user := user]> (userList r)) r) roomId
             (alterRoom (λ r, setUsers (delete (userName user) (userList r)) r)
                prevRoomId s))
  end.

(** Modelled from the spec: 4.3 [exit], "removes the member; if the room
    becomes empty, removes the room from the Directory and returns false
    [...]. Must cancel any active Timer for the room if it becomes empty."
    The Lobby is never removed; a room that does not exist has no
    remaining members. *)
Definition exitRoom (roomId : option string) (userName : string) (rt : Runtime) (s : t)
    : bool * Runtime * t :=
  match roomId with
  | Some x =>
    match roomList s !! x with
    | Some r =>
      let users := delete userName (userList r) in
      if bool_decide (size users = 0) then
        if bool_decide (x = LOBBY_ID)
        then (false, rt, setRooms (<[x := setUsers users r]> (roomList s)) s)
        else (false, clearOpt (itemCreator r) (clearOpt (timer r) rt),
              setRooms (delete x (roomList s)) s)
      else (true, rt, setRooms (<[x := setUsers users r]> (roomList s)) s)
    | None => (false, rt, s)
    end
  | None => (false, rt, s)
  end.

Definition setReady (b : bool) (u : RoomsUserDto) : RoomsUserDto :=
  mkDto (socketId u) (userName u) b (passed u) (itemList u).
Definition setPassedFlag (b : option bool) (u : RoomsUserDto) : RoomsUserDto :=
  mkDto (socketId u) (userName u) (ready u) b (itemList u).
Definition setItems (i : gmap string nat) (u : RoomsUserDto) : RoomsUserDto :=
  mkDto (socketId u) (userName u) (ready u) (passed u) i.

Definition member (roomId : option string) (userName : string) (s : t)
    : option RoomsUserDto :=
  match lookupRoom roomId s with
  | Some r => userList r !! userName
  | None => None
  end.

(** Modelled from the spec: 4.3 [setReady], "toggles readiness; returns
    the new boolean"; on "a room the caller never joined" it fails with
    NotAMember (7). *)
Definition switchReady (roomId : option string) (userName : string) (s : t)
    : ErrorKind + bool * t :=
  match member roomId userName s with
  | Some u =>
    inr (negb (ready u),
         alterRoom (alterUser (setReady (negb (ready u))) userName) roomId s)
  | None => inl NotAMember
  end.

(** Modelled from the spec: 4.3 [allReady].  The contract asks for "every
    member is ready and membership count >= 2", and records that the
    "source code does not enforce an explicit minimum other than all
    ready" and that "a single-member room trivially satisfies all ready"
    (9); the method is what the specification says the source is. *)
Definition allUserReady (roomId : option string) (s : t) : bool :=
  match lookupRoom roomId s with
  | Some r => bool_decide (map_Forall (λ _ u, ready u = true) (userList r))
  | None => false
  end.

Definition setTimers (tm ic : option nat) (r : Room) : Room :=
  mkRoom (roomName r) (capacity r) (state r) (userList r) tm ic.

(** Modelled from the spec: 4.3 [kick], "removes target from membership
    [...]; fails if byIdentity lacks authority (policy: any member may
    currently kick [...]) or target is not a member", with the timers
    cancelled when the room is "kicked-to-empty" (5). *)
Definition kick (roomId : option string) (userName targetUserName : string)
    (rt : Runtime) (s : t) : Status * Runtime * t :=
  match lookupRoom roomId s with
  | Some r =>
    if userList r !! targetUserName is Some _ then
      if userList r !! userName is Some _ then
        let users := delete targetUserName (userList r) in
        if bool_decide (size users = 0)
        then (Success, clearOpt (itemCreator r) (clearOpt (timer r) rt),
              alterRoom (λ r, setTimers None None
                                (setUsers (delete targetUserName (userList r)) r))
                roomId s)
        else (Success, rt,
              alterRoom (λ r, setUsers (delete targetUserName (userList r)) r)
                roomId s)
      else (Failed Unauthorized, rt, s)
    else (Failed NotAMember, rt, s)
  | None => (Failed NotAMember, rt, s)
  end.

(** Modelled from the spec: 4.5 [useItem], "fails ItemNotOwned if
    inventory lacks the item; otherwise decrements"; the effect of an item
    is out of scope there. *)
Definition useItem (roomId : option string) (userName item : string) (s : t)
    : Status * t :=
  match member roomId userName s with
  | Some u =>
    match itemList u !! item with
    | Some (Datatypes.S n) =>
      (Success,
       alterRoom (alterUser (setItems (<[item := n]> (itemList u))) userName) roomId s)
    | _ => (Failed ItemNotOwned, s)
    end
  | None => (Failed NotAMember, s)
  end.

(** Modelled from the spec: 4.5 [assignItem], "chosen by a fixed or
    weighted-random policy (unspecified by source [...]), added to the
    member's inventory".  The kind granted is the one the draw names. *)
Definition assignItem (roomId : option string) (userName : string) (seed : nat) (s : t)
    : string * t :=
  let item := "item" +:+ pretty seed in
  (item,
   alterRoom
     (alterUser (λ u, setItems (<[item := Datatypes.S (default 0 (itemList u !! item))]>
                                  (itemList u)) u) userName)
     roomId s).

(** Modelled from the spec: 6 [dm], "delivers to target connection only";
    no failure of it is specified. *)
Definition dm (userName : string) (s : t) : Status := Success.

(** Modelled from the spec: 3 Invite, "a transient, unstored message
    (requester identity, [...] source room, target's current room)". *)
Definition invite (roomId targetUserRoomId : option string) (userName : string) (s : t)
    : list (string * Val) :=
  [("roomId", VRef roomId); ("targetUserRoomId", VRef targetUserRoomId);
   ("userName", VStr userName)].

(** Modelled from the spec: 3 Room, "an optional active Timer handle", one
    for the countdown and one for the item spawn. *)
Definition getTimer (roomId : option string) (s : t) : option nat :=
  match lookupRoom roomId s with Some r => timer r | None => None end.

Definition setTimer (roomId : option string) (h : nat) (s : t) : t :=
  alterRoom (λ r, setTimers (Some h) (itemCreator r) r) roomId s.

Definition setItemCreator (roomId : option string) (h : nat) (s : t) : t :=
  alterRoom (λ r, setTimers (timer r) (Some h) r) roomId s.

(** Modelled from the spec: 4.3 [allPassed], "true iff every member's
    per-round passed flag is set".  The gateway records a pass on the
    connection (line 303) and calls no method that marks the member; how
    the service learns of it is in rooms.service.ts.  The scenarios that
    need passed members give the service's record directly. *)
Definition allUserPassed (roomId : option string) (s : t) : bool :=
  match lookupRoom roomId s with
  | Some r => bool_decide (map_Forall (λ _ u, passed u = Some true) (userList r))
  | None => false
  end.

Definition setState (st : RoomState) (r : Room) : Room :=
  mkRoom (roomName r) (capacity r) st (userList r) (timer r) (itemCreator r).

(** Modelled from the spec: 4.3 [changeState], "transitions
    waiting->playing (on all-ready) or playing->over (on round end); any
    other transition is a programming error and must fail loudly"; the
    passed flags are "reset at the start of each new round". *)
Definition changeRoomState (roomId : option string) (st : RoomState) (s : t)
    : ErrorKind + t :=
  match lookupRoom roomId s with
  | Some r =>
    match state r, st with
    | waiting, playing =>
      inr (alterRoom (λ r, setState playing
                             (setUsers (setPassedFlag (Some false) <$> userList r) r))
             roomId s)
    | playing, over => inr (alterRoom (setState over) roomId s)
    | _, _ => inl InvalidTransition
    end
  | None => inl RoomNotFound
  end.

(** Modelled from the spec: 4.4 [endRound], "cancels both the countdown
    and the item-spawn timers, transitions to over [...]. Must be
    idempotent". *)
Definition gameOver (roomId : option string) (rt : Runtime) (s : t) : Runtime * t :=
  match lookupRoom roomId s with
  | Some r =>
    (clearOpt (itemCreator r) (clearOpt (timer r) rt),
     alterRoom (λ r, setTimers None None (setState over r)) roomId s)
  | None => (rt, s)
  end.

#[global] Instance ops : RoomsService.Ops t := {|
  RoomsService.isConnectedUser := isConnectedUser;
  RoomsService.registerSocketId := registerSocketId;
  RoomsService.deleteSocketId := deleteSocketId;
  RoomsService.getSocketId := getSocketId;
  RoomsService.lobbyInfo := lobbyInfo;
  RoomsService.roomInfo := roomInfo;
  RoomsService.getGameRoom := getGameRoom;
  RoomsService.roomUserCount := roomUserCount;
  RoomsService.roomHasUser := roomHasUser;
  RoomsService.roomSocketIdList := roomSocketIdList;
  RoomsService.createRoom := createRoom;
  RoomsService.enterRoom := enterRoom;
  RoomsService.exitRoom := exitRoom;
  RoomsService.switchReady := switchReady;
  RoomsService.allUserReady := allUserReady;
  RoomsService.kick := kick;
  RoomsService.useItem := useItem;
  RoomsService.assignItem := assignItem;
  RoomsService.dm := dm;
  RoomsService.invite := invite;
  RoomsService.getTimer := getTimer;
  RoomsService.setTimer := setTimer;
  RoomsService.setItemCreator := setItemCreator;
  RoomsService.allUserPassed := allUserPassed;
  RoomsService.changeRoomState := changeRoomState;
  RoomsService.gameOver := gameOver
|}.
End SpecService.


(** ** Scenarios *)

Definition alice : User := mkUser "1" "alice".
Definition bob : User := mkUser "2" "bob".
Definition carol : User := mkUser "3" "carol".

Definition genesis : World SpecService.t := boot SpecService.init.

(** A connection whose handshake succeeds. *)
Definition connect (socket : string) (u : User) : list Event :=
  [Connect socket (Some "Bearer token") true; UserFetched socket (Some u)].

(** alice and bob meet in the lobby, alice creates a room for two, both
    enter it. *)
Definition two_in_room : list Event :=
  connect "sA" alice ++ connect "sB" bob ++
  [Message "sA" MEnterLobby; Message "sB" MEnterLobby;
   Message "sA" (MCreateRoom "duel" 2);
   Message "sA" (MEnterRoom (Some "room0"));
   Message "sB" (MEnterRoom (Some "room0"))].

(** Both ready up and the problems arrive: the round is on. *)
Definition two_playing : list Event :=
  two_in_room ++ [Message "sA" MReady; Message "sB" MReady; ProblemsFetched 0 ["p1"]].

(** carol is connected too and stays in the lobby. *)
Definition carol_in_lobby : list Event :=
  two_in_room ++ connect "sC" carol ++ [Message "sC" MEnterLobby].

(** alice alone in a room for two, ready. *)
Definition solo_ready : list Event :=
  connect "sA" alice ++
  [Message "sA" MEnterLobby; Message "sA" (MCreateRoom "solo" 2);
   Message "sA" (MEnterRoom (Some "room0")); Message "sA" MReady].

(** Both ready, the start is waiting for its problems, and bob takes his
    ready back. *)
Definition ready_taken_back : list Event :=
  two_in_room ++ [Message "sA" MReady; Message "sB" MReady; Message "sB" MReady].

(** alice leaves the room she was alone in, and then sends [pass]: her
    connection still names the room. *)
Definition pass_after_leaving : list Event :=
  connect "sA" alice ++
  [Message "sA" MEnterLobby; Message "sA" (MCreateRoom "solo" 2);
   Message "sA" (MEnterRoom (Some "room0")); Message "sA" MExitRoom;
   Message "sA" MPass].

(** A round that ends by its countdown, followed by one more [pass] and
    the countdown that this starts. *)
Definition pass_after_round_end : list Event :=
  two_playing ++
  [Message "sA" MPass; TimeoutFires 1; Message "sB" MPass; TimeoutFires 2].

(** A playing room whose only member the service has recorded as passed,
    with no countdown started yet. *)
Definition solo_room : Room :=
  mkRoom "solo" (Some 2) playing
    {["alice" := mkDto "sA" "alice" true (Some true) ∅]} None (Some 0).

Definition alice_socket (p : bool) : Socket :=
  mkSocket (Some alice) (Some "room0") p {["room0"]}.

Definition bob_socket : Socket :=
  mkSocket (Some bob) (Some "room0") false {["room0"]}.

Definition solo_all_passed : World SpecService.t :=
  mkWorld
    (SpecService.mk
       (<["room0" := solo_room]> {[LOBBY_ID := SpecService.lobby]})
       {["alice" := "sA"]} 1)
    {["sA" := alice_socket false]}
    (mkRuntime ∅ {[0 := Some "room0"]} 1) ∅ [] [].

(** The same with bob, also recorded as passed, and the countdown of
    alice's earlier [pass] running. *)
Definition duel_room : Room :=
  mkRoom "duel" (Some 2) playing
    (<["bob" := mkDto "sB" "bob" true (Some true) ∅]>
       {["alice" := mkDto "sA" "alice" true (Some true) ∅]})
    (Some 1) (Some 0).

Definition duo_all_passed : World SpecService.t :=
  mkWorld
    (SpecService.mk
       (<["room0" := duel_room]> {[LOBBY_ID := SpecService.lobby]})
       (<["bob" := "sB"]> {["alice" := "sA"]}) 1)
    (<["sB" := bob_socket]> {["sA" := alice_socket true]})
    (mkRuntime {[1 := Some "room0"]} {[0 := Some "room0"]} 2) ∅ [] [].

(** alice's socket while its handshake waits for the user lookup. *)
Definition alice_waiting : World SpecService.t :=
  run [Connect "sA" (Some "Bearer token") true] genesis.

(** alice is in the lobby and has created a room, without entering it. *)
Definition alice_in_lobby : list Event :=
  connect "sA" alice ++ [Message "sA" MEnterLobby; Message "sA" (MCreateRoom "duel" 2)].

(** The socket of a user who went from the lobby into the first room. *)
Definition socket_in_room (u : User) : Socket :=
  mkSocket (Some u) (Some "room0") false {[LOBBY_ID; "room0"]}.

(** The round of alice and bob after alice has passed. *)
Definition alice_passed : list Event := two_playing ++ [Message "sA" MPass].

(** ** What the claims say, as propositions *)

Definition game_over (roomId : option string) : list Emit :=
  [mkEmit (InRoom roomId) "game_over" [];
   mkEmit (InRoom (Some "lobby")) "room_game_over" [("roomId", VRef roomId)]].

Definition roomState (roomId : string) (w : World SpecService.t) : option RoomState :=
  state <$> SpecService.roomList (svc w) !! roomId.

(** The identities joined to a room. *)
Definition joined (roomId : string) (s : SpecService.t) : gset string :=
  match SpecService.roomList s !! roomId with
  | Some r => dom (userList r)
  | None => ∅
  end.

(** "When a pass action makes every member of the room passed, the round
    ends immediately": the room is over, the round-end events are out and
    no countdown is left to wait for. *)
Definition ends_round_at (w : World SpecService.t) (client roomId : string) : Prop :=
  let w' := exec (RoomsGateway.pass client) w in
  roomState roomId w' = Some over ∧
  outbox w' = outbox w ++ game_over (Some roomId) ∧
  ∀ h, timeouts (rt w') !! h ≠ Some (Some roomId).

(** "Every timer expiry callback checks [...] that the owning room still
    exists [...] and is a no-op otherwise." *)
Definition expiry_guarded_at (w : World SpecService.t) (h : nat) : Prop :=
  ∀ roomId, timeouts (rt w) !! h = Some roomId →
    SpecService.lookupRoom roomId (svc w) = None →
    let w' := step (TimeoutFires h) w in
    svc w' = svc w ∧ sockets w' = sockets w ∧ outbox w' = outbox w.

(** "If the round-end path is invoked twice [...] the second invocation is
    a no-op." *)
Definition round_end_idempotent_at (w : World SpecService.t) (roomId : option string)
    : Prop :=
  let w1 := exec (RoomsGateway.countdownExpired roomId) w in
  exec (RoomsGateway.countdownExpired roomId) w1 = w1.

(** How often the round end of a room has been announced to it. *)
Definition announced (roomId : string) (w : World SpecService.t) : nat :=
  length (filter (λ e, target e = InRoom (Some roomId) ∧ event e = "game_over")
            (outbox w)).

(** "The resulting error status is delivered only to the acting connection
    and is never broadcast": what the action emits reaches nobody else. *)
Definition failure_private_at (w : World SpecService.t) (client item : string) : Prop :=
  let w' := exec (RoomsGateway.useItem client item) w in
  ∀ e, e ∈ drop (length (outbox w)) (outbox w') → recipients (target e) w' ⊆ {[client]}.

(** "The room transitions from waiting to playing if and only if, at the
    moment of the last ready toggle, every member of the room is ready and
    the membership count is at least 2": the "only if", for the toggle
    that [es] ends with and the event [e] that follows it. *)
Definition starts_only_if_at (es : list Event) (e : Event) (roomId : string) : Prop :=
  let w := run es genesis in
  roomState roomId w = Some waiting →
  roomState roomId (step e w) = Some playing →
  SpecService.allUserReady (Some roomId) (svc w) = true ∧
  2 ≤ size (joined roomId (svc w)).

(** ** Relations between the world before and after a unit of work *)

(** [frames P Q A T] relates two worlds whose services are related by [P],
    sockets by [Q], pending handshakes by [A] and pending starts by [T]; a
    computation [keeps] a relation when its final world is always related
    to its initial one, whether it returns or throws. *)
Definition frames {S : Type} (P : relation S) (Q : relation (gmap string Socket))
    (A : relation (gset string)) (T : relation (list (option string)))
    (w w' : World S) : Prop :=
  P (svc w) (svc w') ∧ Q (sockets w) (sockets w') ∧
  A (pendingAuth w) (pendingAuth w') ∧ T (pendingStarts w) (pendingStarts w').

Definition keeps {S B : Type} (R : relation (World S)) (m : Gw S B) : Prop :=
  ∀ w, R w (m w).2.

Definition any {X : Type} : relation X := λ _ _, True.

(** What a socket says of its connection: the user bound to it and the room
    it names. *)
Definition view (d : Socket) : option User * option string :=
  (sock_user d, sock_roomId d).

Definition same_views (m m' : gmap string Socket) : Prop :=
  ∀ sid, view <$> m' !! sid = view <$> m !! sid.

(** No room has gained a member and the registry is the same. *)
Definition fewer_members (s s' : SpecService.t) : Prop :=
  (∀ roomId, joined roomId s' ⊆ joined roomId s) ∧
  SpecService.socketIds s' = SpecService.socketIds s.

Definition plays (roomId : string) (s : SpecService.t) : Prop :=
  state <$> SpecService.roomList s !! roomId = Some playing.

(** No room has become [playing]. *)
Definition no_new_round (s s' : SpecService.t) : Prop :=
  ∀ roomId, plays roomId s' → plays roomId s.

(** The memberships and the connections agree: a member of a room has a
    live connection that is bound to it and names that room; an identity
    has one live connection at most, and it is registered; a socket whose
    handshake is pending has no user yet. *)
Record coherent (w : World SpecService.t) : Prop := mkCoherent {
  member_bound : ∀ roomId u, u ∈ joined roomId (svc w) →
    ∃ sid usr, view <$> sockets w !! sid = Some (Some usr, Some roomId) ∧
               user_name usr = u;
  one_socket : ∀ sid1 sid2 u1 u2 r1 r2,
    view <$> sockets w !! sid1 = Some (Some u1, r1) →
    view <$> sockets w !! sid2 = Some (Some u2, r2) →
    user_name u1 = user_name u2 → sid1 = sid2;
  registered : ∀ sid u r,
    view <$> sockets w !! sid = Some (Some u, r) →
    is_Some (SpecService.socketIds (svc w) !! user_name u);
  handshake_unbound : ∀ sid d,
    sid ∈ pendingAuth w → sockets w !! sid = Some d → sock_user d = None
}.

(** A unit of work that adds no member to any room, leaves every
    connection's user and room alone and starts no handshake. *)
Definition shrinks : relation (World SpecService.t) :=
  frames fewer_members same_views eq any.

(** A unit of work that puts no room in [playing]; [calm] when it also
    schedules no round start. *)
Definition starts_no_round : relation (World SpecService.t) :=
  frames no_new_round any any any.

Definition calm : relation (World SpecService.t) :=
  frames no_new_round any any eq.

(** A round start that is waiting for its problems was scheduled by a
    [ready] toggle of the run, right after which the service reported every
    member of the room ready. *)
Definition scheduled_by_ready (es : list Event) (roomId : option string) : Prop :=
  ∃ es1 client es2,
    es = es1 ++ Message client MReady :: es2 ∧
    SpecService.allUserReady roomId
      (svc (run (es1 ++ [Message client MReady]) genesis)) = true.

(** Every connection has the user it had. *)
Definition same_users (m m' : gmap string Socket) : Prop :=
  ∀ sid, sock_user <$> m' !! sid = sock_user <$> m !! sid.

(** A unit of work that binds no user to any connection and opens no
    handshake. *)
Definition binds_nobody {S : Type} : relation (World S) :=
  frames any same_users eq any.

(** A socket whose handshake is waiting for the user lookup has no user. *)
Definition handshakes_unbound {S : Type} (w : World S) : Prop :=
  ∀ sid d, sid ∈ pendingAuth w → sockets w !! sid = Some d → sock_user d = None.

(** The user of a connection is in the second world what it was in the
    first, if the connection is still there. *)
Definition users_kept {S : Type} (w w' : World S) : Prop :=
  ∀ sid d u d', sockets w !! sid = Some d → sock_user d = Some u →
                sockets w' !! sid = Some d' → sock_user d' = Some u.

(** The ids the service has not given out yet name no room. *)
Definition ids_fresh (s : SpecService.t) : Prop :=
  ∀ k, SpecService.nextRoom s ≤ k →
       SpecService.roomList s !! ("room" +:+ pretty k) = None.

(** A change of the service after which that is still so. *)
Definition keeps_ids_fresh (s s' : SpecService.t) : Prop :=
  ids_fresh s → ids_fresh s'.

(** What the exception filter sends to the connection that acted. *)
Definition exception_for (client : string) (e : ErrorKind) : Emit :=
  mkEmit (ToSocket client) "exception" [("status", VStatus (Failed e))].

(** ** Proofs *)

Ltac gw_unfold :=
  unfold userOf, join, leave, deref, exec, outcome in *;
  unfold throw, ask, tell, call, try_, tryTell, callRt, tellRt, runtime, runtime_, emit,
    dataOf, socket, update, present, forget, suspendAuth, suspendStart in *;
  unfold mbind, mret, Gw_bind, Gw_ret in *.

(** *** What each handler does, for any service *)

Section AnyService.
Context {S : Type} `{!RoomsService.Ops S}.

Lemma userOf_bound (w : World S) (client : string) (d : Socket) (u : User) :
  sockets w !! client = Some d → sock_user d = Some u →
  userOf client w = (Return u, w).
Proof. intros Hs Hu. gw_unfold. by rewrite Hs, Hu. Qed.

(** The fast path of [pass] (lines 305-312): with a countdown stored and
    every member reported passed, the countdown is cleared and the round
    ended inside the handler. *)
Lemma pass_all_passed (w : World S) (client : string) (d : Socket) (t : nat) :
  sockets w !! client = Some d →
  RoomsService.getTimer (sock_roomId d) (svc w) = Some t →
  RoomsService.allUserPassed (sock_roomId d) (svc w) = true →
  let w' := exec (RoomsGateway.pass client) w in
  outcome (RoomsGateway.pass client) w = Return NoReply ∧
  (rt w', svc w') = RoomsService.gameOver (sock_roomId d) (clearTimeout t (rt w)) (svc w) ∧
  sockets w' = alter (setPassed true) client (sockets w) ∧
  outbox w' = outbox w ++ game_over (sock_roomId d) ∧
  pendingStarts w' = pendingStarts w.
Proof.
  intros Hs Ht Hp. unfold RoomsGateway.pass, game_over. gw_unfold.
  rewrite Hs. simpl. rewrite Ht, Hp. simpl.
  destruct (RoomsService.gameOver _ _ _) as [r s]. simpl.
  by rewrite <- app_assoc.
Qed.

(** The last lines of [pass] (314-323): with no countdown stored, whatever
    the service says of the members, a countdown is started. *)
Lemma pass_starts_countdown (w : World S) (client : string) (d : Socket) :
  sockets w !! client = Some d →
  RoomsService.getTimer (sock_roomId d) (svc w) = None →
  let w' := exec (RoomsGateway.pass client) w in
  outcome (RoomsGateway.pass client) w = Return NoReply ∧
  svc w' = RoomsService.setTimer (sock_roomId d) (nextHandle (rt w)) (svc w) ∧
  rt w' = (setTimeout (sock_roomId d) (rt w)).2 ∧
  sockets w' = alter (setPassed true) client (sockets w) ∧
  outbox w' = outbox w ++ [mkEmit (InRoom (sock_roomId d)) "countdown" []] ∧
  pendingStarts w' = pendingStarts w.
Proof.
  intros Hs Ht. unfold RoomsGateway.pass. gw_unfold.
  rewrite Hs. simpl. rewrite Ht. simpl.
  by destruct (RoomsService.allUserPassed _ _).
Qed.

(** A countdown already stored and not everybody passed: nothing but the
    flag (line 314). *)
Lemma pass_while_counting (w : World S) (client : string) (d : Socket) (t : nat) :
  sockets w !! client = Some d →
  RoomsService.getTimer (sock_roomId d) (svc w) = Some t →
  RoomsService.allUserPassed (sock_roomId d) (svc w) = false →
  RoomsGateway.pass client w =
    (Return NoReply, setSockets (alter (setPassed true) client (sockets w)) w).
Proof.
  intros Hs Ht Hp. unfold RoomsGateway.pass. gw_unfold.
  rewrite Hs. simpl. by rewrite Ht, Hp.
Qed.

(** The expiry callback (lines 316-320) has no condition in it. *)
Lemma countdownExpired_always (w : World S) (roomId : option string) :
  let w' := exec (RoomsGateway.countdownExpired roomId) w in
  (rt w', svc w') = RoomsService.gameOver roomId (rt w) (svc w) ∧
  sockets w' = sockets w ∧
  pendingStarts w' = pendingStarts w ∧
  outbox w' = outbox w ++ game_over roomId.
Proof.
  unfold RoomsGateway.countdownExpired, game_over. gw_unfold.
  destruct (RoomsService.gameOver _ _ _) as [r s]. simpl.
  by rewrite <- app_assoc.
Qed.

(** A handle that [clearTimeout] has been called on is not pending. *)
Lemma cleared_timeout_never_fires (w : World S) (h : nat) :
  let w' := setRt (clearTimeout h (rt w)) w in
  step (TimeoutFires h) w' = w'.
Proof.
  simpl. unfold clearTimeout, clearTimer. simpl. by rewrite lookup_delete_eq.
Qed.

(** [useItem] (lines 284-296) sends whatever status the service returned
    to the room, without the sender, and answers nothing. *)
Lemma useItem_emits_status (w : World S) (client item : string) (d : Socket) (u : User) :
  sockets w !! client = Some d → sock_user d = Some u →
  let r := RoomsService.useItem (sock_roomId d) (user_name u) item (svc w) in
  RoomsGateway.useItem client item w =
    (Return NoReply,
     setOutbox (outbox w ++
                  [mkEmit (RoomExcept (sock_roomId d) client) "item"
                     [("status", VStatus r.1); ("userName", VStr (user_name u));
                      ("item", VStr item)]])
       (setSvc r.2 w)).
Proof.
  intros Hs Hu. unfold RoomsGateway.useItem. gw_unfold.
  rewrite Hs. simpl. rewrite Hs, Hu. simpl.
  by destruct (RoomsService.useItem _ _ _ _).
Qed.

(** [kick] (lines 263-282) stops at line 273: [this.socket] has given
    [undefined], and the service has been called. *)
Lemma kick_stops_at_leave (w : World S) (client target : string)
    (d : Socket) (u : User) :
  sockets w !! client = Some d → sock_user d = Some u →
  let k := RoomsService.kick (sock_roomId d) (user_name u) target (rt w) (svc w) in
  RoomsGateway.kick client target w = (Throw TypeError, setRt k.1.2 (setSvc k.2 w)).
Proof.
  intros Hs Hu k. unfold RoomsGateway.kick. gw_unfold.
  rewrite Hs. simpl. rewrite Hs, Hu. simpl.
  subst k. by destruct (RoomsService.kick _ _ _ _ _) as [[st r] s].
Qed.

(** [ready] (lines 251-261): the toggle, its broadcast, and a start exactly
    when the service then reports everybody ready. *)
Lemma ready_schedules_start (w : World S) (client : string) (d : Socket) (u : User)
    (b : bool) (s' : S) :
  sockets w !! client = Some d → sock_user d = Some u →
  RoomsService.switchReady (sock_roomId d) (user_name u) (svc w) = inr (b, s') →
  let w' := exec (RoomsGateway.ready client) w in
  svc w' = s' ∧ sockets w' = sockets w ∧ rt w' = rt w ∧
  pendingStarts w' =
    pendingStarts w ++
      (if RoomsService.allUserReady (sock_roomId d) s' then [sock_roomId d] else []).
Proof.
  intros Hs Hu Hr. unfold RoomsGateway.ready, RoomsGateway.start. gw_unfold.
  rewrite Hs. simpl. rewrite Hs, Hu. simpl. rewrite Hr. simpl.
  destruct (RoomsService.allUserReady _ _); simpl; by rewrite ?app_nil_r.
Qed.

Lemma ready_not_a_member (w : World S) (client : string) (d : Socket) (u : User)
    (e : ErrorKind) :
  sockets w !! client = Some d → sock_user d = Some u →
  RoomsService.switchReady (sock_roomId d) (user_name u) (svc w) = inl e →
  RoomsGateway.ready client w = (Throw e, w).
Proof.
  intros Hs Hu Hr. unfold RoomsGateway.ready. gw_unfold.
  rewrite Hs. simpl. rewrite Hs, Hu. simpl. by rewrite Hr.
Qed.

(** [handleDisconnect] on a socket no user is bound to: line 90-92. *)
Lemma handleDisconnect_no_user (w : World S) (sock : string) (d : Socket) :
  sockets w !! sock = Some d → sock_user d = None →
  RoomsGateway.handleDisconnect sock w = (Return (), w).
Proof.
  intros Hs Hu. unfold RoomsGateway.handleDisconnect. gw_unfold.
  rewrite Hs. simpl. by rewrite Hu.
Qed.

Lemma disconnect_no_user (w : World S) (sock : string) (d : Socket) :
  sockets w !! sock = Some d → sock_user d = None →
  RoomsGateway.disconnect sock w = (Return (), setSockets (delete sock (sockets w)) w).
Proof.
  intros Hs Hu.
  unfold RoomsGateway.disconnect, present, forget, mbind, Gw_bind.
  rewrite Hs. rewrite bool_decide_eq_true_2 by eauto.
  by rewrite (handleDisconnect_no_user w sock d Hs Hu).
Qed.

Lemma disconnect_absent (w : World S) (sock : string) :
  sockets w !! sock = None → RoomsGateway.disconnect sock w = (Return (), w).
Proof.
  intros Hs. unfold RoomsGateway.disconnect, present, forget, mbind, Gw_bind.
  rewrite Hs. rewrite bool_decide_eq_false_2; [done|]. by intros [? ?].
Qed.

(** [handleDisconnect] on a socket with a user: the service is asked to
    take the user out of the room the socket names and to drop the
    registration; the sockets, the timers the service did not cancel and
    the pending work are untouched. *)
Lemma handleDisconnect_user (w : World S) (sock : string) (d : Socket) (u : User) :
  sockets w !! sock = Some d → sock_user d = Some u →
  let x := RoomsService.exitRoom (sock_roomId d) (user_name u) (rt w) (svc w) in
  let w' := exec (RoomsGateway.handleDisconnect sock) w in
  svc w' = RoomsService.deleteSocketId (user_name u) x.2 ∧
  rt w' = x.1.2 ∧ sockets w' = sockets w ∧
  pendingAuth w' = pendingAuth w ∧ pendingStarts w' = pendingStarts w.
Proof.
  intros Hs Hu. unfold RoomsGateway.handleDisconnect. gw_unfold.
  rewrite Hs. simpl. rewrite Hu.
  destruct (RoomsService.exitRoom _ _ _ _) as [[b r] s]. simpl.
  destruct (truthy (sock_roomId d)); [|done].
  destruct (bool_decide _); [done|]. simpl.
  by destruct (RoomsService.roomInfo _ _).
Qed.

(** C10. A socket with no user bound to it, that is, one whose handshake
    never got to line 75: [handleDisconnect] returns at line 91 without
    touching anything, so the service, the timers, the other sockets and
    the emitted events are what they were; the namespace dropping the
    socket is all that a disconnect of it amounts to. *)
Theorem disconnect_without_user_changes_nothing (w : World S) (sock : string)
    (d : Socket) :
  sockets w !! sock = Some d → sock_user d = None →
  RoomsGateway.handleDisconnect sock w = (Return (), w) ∧
  exec (RoomsGateway.disconnect sock) w = setSockets (delete sock (sockets w)) w.
Proof.
  intros Hs Hu. split; [by apply handleDisconnect_no_user with d|].
  unfold exec. by rewrite (disconnect_no_user w sock d Hs Hu).
Qed.

(** Binding a computation that returns, or throws. *)
Lemma bind_return {B C : Type} (m : Gw S B) (k : B → Gw S C) (w w1 : World S) (b : B) :
  m w = (Return b, w1) → (m ≫= k) w = k b w1.
Proof. intros Hm. unfold mbind, Gw_bind. by rewrite Hm. Qed.

Lemma bind_throw {B C : Type} (m : Gw S B) (k : B → Gw S C) (w w1 : World S)
    (e : ErrorKind) :
  m w = (Throw e, w1) → (m ≫= k) w = (Throw e, w1).
Proof. intros Hm. unfold mbind, Gw_bind. by rewrite Hm. Qed.

End AnyService.

(** A socket whose handshake is still waiting for the user lookup. *)
Lemma disconnect_without_user_witness :
  let w := run [Connect "sA" (Some "Bearer token") true] (boot SpecService.init) in
  RoomsGateway.handleDisconnect "sA" w = (Return (), w) ∧
  exec (RoomsGateway.disconnect "sA") w = setSockets (delete "sA" (sockets w)) w.
Proof.
  apply (disconnect_without_user_changes_nothing _ "sA" freshSocket);
    vm_compute; reflexivity.
Defined.

(** *** The timers of the runtime *)

Lemma timeouts_clearOpt_same (h : nat) (r : Runtime) :
  timeouts (clearOpt (Some h) r) !! h = None.
Proof. simpl. apply lookup_delete_eq. Qed.

Lemma timeouts_clearOpt_gone (o : option nat) (h : nat) (r : Runtime) :
  timeouts r !! h = None → timeouts (clearOpt o r) !! h = None.
Proof.
  intros Hn. destruct o as [t|]; simpl; [|done].
  rewrite lookup_delete_None. by right.
Qed.

Lemma intervals_clearOpt_same (h : nat) (r : Runtime) :
  intervals (clearOpt (Some h) r) !! h = None.
Proof. simpl. apply lookup_delete_eq. Qed.

Lemma intervals_clearOpt_gone (o : option nat) (h : nat) (r : Runtime) :
  intervals r !! h = None → intervals (clearOpt o r) !! h = None.
Proof.
  intros Hn. destruct o as [t|]; simpl; [|done].
  rewrite lookup_delete_None. by right.
Qed.

(** *** The service of the specification *)

Lemma gameOver_room (roomId : string) (r : Room) (t : Runtime) (s : SpecService.t) :
  SpecService.roomList s !! roomId = Some r →
  SpecService.gameOver (Some roomId) t s =
    (clearOpt (itemCreator r) (clearOpt (timer r) t),
     SpecService.setRooms
       (<[roomId := SpecService.setTimers None None (SpecService.setState over r)]>
          (SpecService.roomList s)) s).
Proof.
  intros Hl. unfold SpecService.gameOver. simpl. rewrite Hl. simpl.
  f_equal. f_equal. apply map_eq. intros k.
  destruct (decide (k = roomId)) as [->|Hne].
  - by rewrite lookup_alter_eq, lookup_insert_eq, Hl.
  - by rewrite lookup_alter_ne, lookup_insert_ne.
Qed.

Lemma gameOver_no_room (roomId : option string) (t : Runtime) (s : SpecService.t) :
  SpecService.lookupRoom roomId s = None →
  SpecService.gameOver roomId t s = (t, s).
Proof. intros Hl. unfold SpecService.gameOver. by rewrite Hl. Qed.

(** C1, amended.  When [pass] is handled in a room for which a countdown
    timer is stored and the service reports every member passed, the
    countdown is cancelled and the round ends inside the handler: the room is
    [over], no timer is stored for it, and [game_over] and [room_game_over]
    are emitted.  When no countdown timer is stored, [pass] does not end the
    round, whatever the members' flags: it starts the countdown, stores its
    handle and emits [countdown]; the round ends when that countdown
    expires. *)
Theorem pass_ends_round_when_countdown_runs (w : World SpecService.t)
    (client roomId : string) (d : Socket) (r : Room) :
  sockets w !! client = Some d → sock_roomId d = Some roomId →
  SpecService.roomList (svc w) !! roomId = Some r →
  let w' := exec (RoomsGateway.pass client) w in
  (∀ t, timer r = Some t →
        SpecService.allUserPassed (Some roomId) (svc w) = true →
     roomState roomId w' = Some over ∧
     timeouts (rt w') !! t = None ∧
     SpecService.getTimer (Some roomId) (svc w') = None ∧
     outbox w' = outbox w ++ game_over (Some roomId)) ∧
  (timer r = None →
     roomState roomId w' = Some (state r) ∧
     SpecService.getTimer (Some roomId) (svc w') = Some (nextHandle (rt w)) ∧
     timeouts (rt w') !! nextHandle (rt w) = Some (Some roomId) ∧
     outbox w' = outbox w ++ [mkEmit (InRoom (Some roomId)) "countdown" []] ∧
     roomState roomId (step (TimeoutFires (nextHandle (rt w))) w') = Some over).
Proof.
  intros Hs Hr Hl w'. split.
  - intros t Ht Hp.
    destruct (pass_all_passed w client d t Hs) as (_ & Hgo & _ & Hout & _).
    { rewrite Hr. simpl. unfold SpecService.getTimer. simpl. by rewrite Hl. }
    { by rewrite Hr. }
    fold w' in Hgo, Hout. rewrite Hr in Hgo, Hout. clearbody w'.
    simpl in Hgo. rewrite (gameOver_room _ _ _ _ Hl) in Hgo.
    injection Hgo as Hrt Hsvc.
    unfold roomState, SpecService.getTimer. simpl. rewrite Hsvc, Hrt. simpl.
    rewrite lookup_insert_eq. simpl. repeat split; [|done].
    apply timeouts_clearOpt_gone. rewrite Ht. apply timeouts_clearOpt_gone.
    apply lookup_delete_eq.
  - intros Ht.
    destruct (pass_starts_countdown w client d Hs) as (_ & Hsvc & Hrt & _ & Hout & _).
    { rewrite Hr. simpl. unfold SpecService.getTimer. simpl. by rewrite Hl. }
    fold w' in Hsvc, Hrt, Hout. rewrite Hr in Hsvc, Hrt, Hout. simpl in Hsvc, Hrt.
    clearbody w'.
    assert (SpecService.roomList (svc w') !! roomId =
            Some (SpecService.setTimers (Some (nextHandle (rt w))) (itemCreator r) r)) as Hl'.
    { rewrite Hsvc. unfold SpecService.setTimer. simpl. by rewrite lookup_alter_eq, Hl. }
    unfold roomState, SpecService.getTimer. simpl. rewrite Hl'. simpl.
    rewrite Hrt. simpl. rewrite lookup_insert_eq. repeat split; [done|].
    unfold exec, RoomsGateway.countdownExpired. gw_unfold. simpl.
    rewrite (gameOver_room _ _ _ _ Hl'). simpl. by rewrite lookup_insert_eq.
Qed.

(** C1, counterexample.  alice is the only member of a playing room, the
    service has her recorded as passed, no countdown has been started.  Her
    [pass] does not end the round: line 305 asks for a stored timer, so the
    handler falls through to line 316, starts the countdown and announces
    it; the room stays in [playing] until that countdown expires. *)
Lemma pass_without_countdown_counterexample :
  roomState "room0" solo_all_passed = Some playing ∧
  sock_roomId <$> sockets solo_all_passed !! "sA" = Some (Some "room0") ∧
  SpecService.allUserPassed (Some "room0") (svc solo_all_passed) = true ∧
  SpecService.getTimer (Some "room0") (svc solo_all_passed) = None ∧
  (let w' := exec (RoomsGateway.pass "sA") solo_all_passed in
   roomState "room0" w' = Some playing ∧
   outbox w' = [mkEmit (InRoom (Some "room0")) "countdown" []] ∧
   timeouts (rt w') !! 1 = Some (Some "room0")) ∧
  ¬ ends_round_at solo_all_passed "sA" "room0".
Proof.
  split; [vm_compute; reflexivity|].
  split; [vm_compute; reflexivity|].
  split; [vm_compute; reflexivity|].
  split; [vm_compute; reflexivity|].
  split; [vm_compute; repeat split; reflexivity|].
  intros [H _]. vm_compute in H. discriminate.
Qed.

(** bob passes last, while the countdown of alice's pass is running. *)
Lemma pass_ends_round_witness :
  let w' := exec (RoomsGateway.pass "sB") duo_all_passed in
  roomState "room0" w' = Some over ∧
  timeouts (rt w') !! 1 = None ∧
  SpecService.getTimer (Some "room0") (svc w') = None ∧
  outbox w' = outbox duo_all_passed ++ game_over (Some "room0").
Proof.
  assert (sockets duo_all_passed !! "sB" = Some bob_socket) as Hs
    by (vm_compute; reflexivity).
  assert (SpecService.roomList (svc duo_all_passed) !! "room0" = Some duel_room) as Hl
    by (vm_compute; reflexivity).
  apply (proj1 (pass_ends_round_when_countdown_runs
                  duo_all_passed "sB" "room0" bob_socket duel_room Hs eq_refl Hl) 1).
  - reflexivity.
  - vm_compute. reflexivity.
Defined.

(** C2, counterexample.  alice leaves the room she was alone in, so the
    directory drops it, and then sends [pass]; her connection still names
    the room, and [pass] starts a countdown for it.  When that countdown
    expires its room is gone, and the callback still runs lines 317-319: the
    Lobby is told [room_game_over] for a room that no longer exists. *)
Lemma expiry_after_room_removed_counterexample :
  let w := run pass_after_leaving genesis in
  timeouts (rt w) !! 0 = Some (Some "room0") ∧
  SpecService.lookupRoom (Some "room0") (svc w) = None ∧
  outbox (step (TimeoutFires 0) w) = outbox w ++ game_over (Some "room0") ∧
  ¬ expiry_guarded_at w 0.
Proof.
  split; [vm_compute; reflexivity|].
  split; [vm_compute; reflexivity|].
  split; [vm_compute; reflexivity|].
  intros H. specialize (H (Some "room0")).
  destruct H as (_ & _ & H); [vm_compute; reflexivity ..|].
  vm_compute in H. discriminate.
Qed.

(** C2, amended.  A countdown that has been cancelled never fires: once
    [clearTimeout] has taken a handle, its expiry changes nothing.  The
    expiry callback itself checks neither the room nor a generation: for
    any service and any room id, it calls [gameOver] and emits [game_over]
    to the room and [room_game_over] to the Lobby. *)
Theorem countdown_expiry_is_unguarded {S : Type} `{!RoomsService.Ops S}
    (w : World S) (h : nat) (roomId : option string) :
  (let c := setRt (clearTimeout h (rt w)) w in step (TimeoutFires h) c = c) ∧
  (let w' := exec (RoomsGateway.countdownExpired roomId) w in
   (rt w', svc w') = RoomsService.gameOver roomId (rt w) (svc w) ∧
   sockets w' = sockets w ∧
   outbox w' = outbox w ++ game_over roomId).
Proof.
  split; [apply cleared_timeout_never_fires|].
  destruct (countdownExpired_always w roomId) as (? & ? & _ & ?). done.
Qed.

(** C3, counterexample.  A round ended by its countdown; bob then sends
    one more [pass], which finds the timer slot empty and starts a second
    countdown; when that expires the round-end path runs again and the room
    and the Lobby are told a second time.  The path is not a no-op on its
    second run in any world: it always emits. *)
Lemma round_end_twice_counterexample :
  let w := run pass_after_round_end genesis in
  roomState "room0" w = Some over ∧
  announced "room0" w = 2 ∧
  ¬ round_end_idempotent_at (run two_playing genesis) (Some "room0").
Proof.
  split; [vm_compute; reflexivity|].
  split; [vm_compute; reflexivity|].
  intros H. apply (f_equal (λ w, length (outbox w))) in H.
  vm_compute in H. discriminate.
Qed.

(** C3, amended.  Ending a round is idempotent on the room and its timers:
    after the round-end path has run, the room is [over], it stores no
    countdown and no item-spawn handle, the handles it stored are not
    pending, and a second run leaves the service, the timers and the
    sockets as they are.  The broadcasts are not guarded: every run of the
    path emits [game_over] and [room_game_over]. *)
Theorem round_end_idempotent_on_state (w : World SpecService.t) (roomId : string)
    (r : Room) :
  SpecService.roomList (svc w) !! roomId = Some r →
  let w1 := exec (RoomsGateway.countdownExpired (Some roomId)) w in
  let w2 := exec (RoomsGateway.countdownExpired (Some roomId)) w1 in
  SpecService.roomList (svc w1) !! roomId =
    Some (SpecService.setTimers None None (SpecService.setState over r)) ∧
  (∀ h, timer r = Some h ∨ itemCreator r = Some h →
        timeouts (rt w1) !! h = None ∧ intervals (rt w1) !! h = None) ∧
  svc w2 = svc w1 ∧ rt w2 = rt w1 ∧ sockets w2 = sockets w1 ∧
  outbox w1 = outbox w ++ game_over (Some roomId) ∧
  outbox w2 = outbox w1 ++ game_over (Some roomId).
Proof.
  intros Hl w1 w2.
  destruct (countdownExpired_always w (Some roomId)) as (Hgo & Hs & _ & Ho).
  fold w1 in Hgo, Hs, Ho.
  destruct (countdownExpired_always w1 (Some roomId)) as (Hgo2 & Hs2 & _ & Ho2).
  fold w2 in Hgo2, Hs2, Ho2. clearbody w1 w2.
  simpl in Hgo, Hgo2. rewrite (gameOver_room _ _ _ _ Hl) in Hgo.
  injection Hgo as Hrt Hsvc.
  assert (SpecService.roomList (svc w1) !! roomId =
          Some (SpecService.setTimers None None (SpecService.setState over r))) as Hl1.
  { rewrite Hsvc. simpl. by rewrite lookup_insert_eq. }
  rewrite (gameOver_room _ _ _ _ Hl1) in Hgo2. simpl in Hgo2.
  injection Hgo2 as Hrt2 Hsvc2.
  repeat split; try done.
  - rewrite Hrt. destruct H as [Ht|Hi].
    + apply timeouts_clearOpt_gone. rewrite Ht. apply timeouts_clearOpt_same.
    + rewrite Hi. apply timeouts_clearOpt_same.
  - rewrite Hrt. destruct H as [Ht|Hi].
    + apply intervals_clearOpt_gone. rewrite Ht. apply intervals_clearOpt_same.
    + rewrite Hi. apply intervals_clearOpt_same.
  - rewrite Hsvc2, Hsvc. simpl. destruct (svc w) as [rooms ids n]. simpl.
    unfold SpecService.setRooms. simpl. f_equal.
    by rewrite insert_insert_eq.
Qed.

(** The round of alice and bob, ended twice. *)
Lemma round_end_idempotent_witness :
  let w := run two_playing genesis in
  let w1 := exec (RoomsGateway.countdownExpired (Some "room0")) w in
  let w2 := exec (RoomsGateway.countdownExpired (Some "room0")) w1 in
  roomState "room0" w1 = Some over ∧ svc w2 = svc w1 ∧ rt w2 = rt w1.
Proof.
  assert (is_Some (SpecService.roomList (svc (run two_playing genesis)) !! "room0"))
    as [r Hl] by (vm_compute; eauto).
  destruct (round_end_idempotent_on_state _ _ _ Hl) as (H1 & _ & H2 & H3 & _).
  split; [|split; [exact H2 | exact H3]].
  unfold roomState. rewrite H1. reflexivity.
Defined.

Lemma useItem_failure_keeps_state (roomId : option string) (userName item : string)
    (s : SpecService.t) (e : ErrorKind) :
  (SpecService.useItem roomId userName item s).1 = Failed e →
  (SpecService.useItem roomId userName item s).2 = s.
Proof.
  unfold SpecService.useItem.
  destruct (SpecService.member _ _ _) as [u|]; [|done].
  destruct (itemList u !! item) as [[|n]|]; done.
Qed.

(** C9, counterexample.  In the playing room of alice and bob, alice uses
    an item she does not own.  The service answers [ItemNotOwned]; line 291
    puts that status in the [item] event for the room without the sender,
    so bob receives it, and the handler returns nothing to alice. *)
Lemma item_failure_counterexample :
  let w := run two_playing genesis in
  let w' := exec (RoomsGateway.useItem "sA" "bomb") w in
  outcome (RoomsGateway.useItem "sA" "bomb") w = Return NoReply ∧
  outbox w' = outbox w ++
    [mkEmit (RoomExcept (Some "room0") "sA") "item"
       [("status", VStatus (Failed ItemNotOwned)); ("userName", VStr "alice");
        ("item", VStr "bomb")]] ∧
  recipients (RoomExcept (Some "room0") "sA") w' = {["sB"]} ∧
  ¬ failure_private_at w "sA" "bomb".
Proof.
  split; [vm_compute; reflexivity|].
  split; [vm_compute; reflexivity|].
  split; [vm_compute; reflexivity|].
  intros H.
  set (w' := exec (RoomsGateway.useItem "sA" "bomb") (run two_playing genesis)) in *.
  set (to := RoomExcept (Some "room0") "sA").
  assert (recipients to w' = {["sB"]}) as Heq by (vm_compute; reflexivity).
  assert (recipients to w' ⊆ {["sA"]}) as Hsub.
  { apply (H (mkEmit to "item"
                [("status", VStatus (Failed ItemNotOwned)); ("userName", VStr "alice");
                 ("item", VStr "bomb")])).
    vm_compute. apply list_elem_of_here. }
  rewrite Heq in Hsub.
  assert ("sB" ∈ ({["sA"]} : gset string)) as Hin
    by (apply Hsub; by apply elem_of_singleton).
  apply elem_of_singleton in Hin. discriminate.
Qed.

(** C6.  Entering a room that is full (as many members as its capacity, or
    more) fails with RoomFull, and entering a room that does not exist
    fails with RoomNotFound; in both cases the handler stops at line 184:
    the world afterwards is the world before, so no membership, no
    current-room binding and no emitted event has changed. *)
Theorem enter_full_or_missing_room_fails (w : World SpecService.t) (client : string)
    (d : Socket) (u : User) :
  sockets w !! client = Some d → sock_user d = Some u →
  (∀ roomId r c,
     SpecService.roomList (svc w) !! roomId = Some r →
     capacity r = Some c → c ≤ size (userList r) →
     RoomsGateway.enterRoom client (Some roomId) w = (Throw RoomFull, w)) ∧
  (∀ roomId,
     SpecService.lookupRoom roomId (svc w) = None →
     RoomsGateway.enterRoom client roomId w = (Throw RoomNotFound, w)).
Proof.
  intros Hs Hu. split.
  - intros roomId r c Hl Hc Hle.
    unfold RoomsGateway.enterRoom. gw_unfold. rewrite Hs. simpl. rewrite Hu, Hs. simpl.
    unfold SpecService.enterRoom. simpl. rewrite Hl.
    unfold SpecService.full. rewrite Hc.
    by rewrite bool_decide_eq_true_2.
  - intros roomId Hl.
    unfold RoomsGateway.enterRoom. gw_unfold. rewrite Hs. simpl. rewrite Hu, Hs. simpl.
    unfold SpecService.enterRoom. by rewrite Hl.
Qed.

(** carol tries the room of alice and bob, which is full, and a room that
    was never created. *)
Lemma enter_full_room_witness :
  let w := run carol_in_lobby genesis in
  RoomsGateway.enterRoom "sC" (Some "room0") w = (Throw RoomFull, w) ∧
  RoomsGateway.enterRoom "sC" (Some "room7") w = (Throw RoomNotFound, w).
Proof.
  assert (is_Some (sockets (run carol_in_lobby genesis) !! "sC")) as [d Hs]
    by (vm_compute; eauto).
  assert (sock_user d = Some carol) as Hu.
  { apply (inj Some). rewrite <- (fmap_Some_2 sock_user _ _ Hs). vm_compute. reflexivity. }
  assert (is_Some (SpecService.roomList (svc (run carol_in_lobby genesis)) !! "room0"))
    as [r Hl] by (vm_compute; eauto).
  destruct (enter_full_or_missing_room_fails _ "sC" d carol Hs Hu) as [Hfull Hmiss].
  split.
  - assert (Some (capacity r, size (userList r)) = Some (Some 2, 2)) as Hr.
    { rewrite <- (fmap_Some_2 (λ r, (capacity r, size (userList r))) _ _ Hl).
      vm_compute. reflexivity. }
    injection Hr as Hc Hn.
    apply (Hfull "room0" r 2 Hl Hc). rewrite Hn. constructor.
  - apply Hmiss. vm_compute. reflexivity.
Defined.

(** C4, the failing input.  alice and bob are in a room and alice's socket
    disconnects.  The room loses alice exactly as by [exit_room], but the
    Lobby is not told: [handleDisconnect] emits [user_exit_room] (with a
    message) to the room and stops, where [exitRoom] goes on to emit
    [change_user_count] to the Lobby (lines 215-218). *)
Theorem disconnect_omits_change_user_count :
  let w := run two_in_room genesis in
  let wd := exec (RoomsGateway.handleDisconnect "sA") w in
  let we := exec (RoomsGateway.exitRoom "sA") w in
  SpecService.roomList (svc wd) = SpecService.roomList (svc we) ∧
  outbox wd = outbox w ++
    [mkEmit (InRoom (Some "room0")) "user_exit_room"
       [("userName", VStr "alice");
        ("message", VStr "alice room0 방에서 나갔습니다.")]] ∧
  outbox we = outbox w ++
    [mkEmit (InRoom (Some "room0")) "user_exit_room" [("userName", VStr "alice")];
     mkEmit (InRoom (Some LOBBY_ID)) "change_user_count"
       [("roomId", VStr "room0"); ("userCount", VNum 1)]].
Proof.
  split; [vm_compute; reflexivity|].
  split; vm_compute; reflexivity.
Qed.

(** C8, the failing input.  carol is connected and in the lobby; alice, in
    her room with bob, kicks carol.  The service answers NotAMember and
    leaves the membership alone, and nothing is emitted, as the claim says;
    but the handler does not return that status: [this.socket] has given
    [undefined] (line 358), line 273 throws a TypeError, and line 281 is
    never reached.  What alice gets is the exception. *)
Theorem kick_of_non_member_returns_no_status :
  let w := run carol_in_lobby genesis in
  let w' := exec (RoomsGateway.kick "sA" "carol") w in
  (SpecService.kick (Some "room0") "alice" "carol" (rt w) (svc w)).1.1 =
    Failed NotAMember ∧
  outcome (RoomsGateway.kick "sA" "carol") w = Throw TypeError ∧
  SpecService.roomList (svc w') = SpecService.roomList (svc w) ∧
  outbox w' = outbox w ∧
  outbox (step (Message "sA" (MKick "carol")) w) =
    outbox w ++ [mkEmit (ToSocket "sA") "exception" [("status", VStatus (Failed TypeError))]].
Proof.
  split; [vm_compute; reflexivity|].
  split; [vm_compute; reflexivity|].
  split; [vm_compute; reflexivity|].
  split; vm_compute; reflexivity.
Qed.

(** *** Handlers and the relations they keep *)

Section Frames.
Context {S : Type}.
Context (P : relation S) (Q : relation (gmap string Socket))
        (A : relation (gset string)) (T : relation (list (option string))).
Context `{!PreOrder P, !PreOrder Q, !PreOrder A, !PreOrder T}.

#[local] Abbreviation R := (frames P Q A T).

Lemma frames_refl (w : World S) : R w w.
Proof. repeat split; reflexivity. Qed.

Lemma frames_trans (w1 w2 w3 : World S) : R w1 w2 → R w2 w3 → R w1 w3.
Proof.
  intros (? & ? & ? & ?) (? & ? & ? & ?). repeat split; etrans; eauto.
Qed.

Lemma keeps_ret {B} (b : B) : keeps R (mret b).
Proof. intros w. apply frames_refl. Qed.

Lemma keeps_throw {B} (e : ErrorKind) : keeps R (throw e : Gw S B).
Proof. intros w. apply frames_refl. Qed.

Lemma keeps_bind {B C} (m : Gw S B) (k : B → Gw S C) :
  keeps R m → (∀ b, keeps R (k b)) → keeps R (m ≫= k).
Proof.
  intros Hm Hk w. unfold mbind, Gw_bind. specialize (Hm w).
  destruct (m w) as [[b|e] w1]; simpl in *; [|done].
  eapply frames_trans; [exact Hm | apply Hk].
Qed.

Lemma keeps_ask {B} (f : S → B) : keeps R (ask f).
Proof. intros w. apply frames_refl. Qed.

Lemma keeps_emit (t : Target) (e : string) (p : list (string * Val)) : keeps R (emit t e p).
Proof. intros w. repeat split; reflexivity. Qed.

Lemma keeps_runtime {B} (f : Runtime → B * Runtime) : keeps R (runtime f).
Proof. intros w. unfold runtime. destruct (f (rt w)). repeat split; reflexivity. Qed.

Lemma keeps_runtime_ (f : Runtime → Runtime) : keeps R (runtime_ f).
Proof. intros w. repeat split; reflexivity. Qed.

Lemma keeps_dataOf (sid : string) : keeps R (dataOf sid).
Proof. intros w. unfold dataOf. destruct (sockets w !! sid); apply frames_refl. Qed.

Lemma keeps_socket (o : option string) : keeps R (socket o).
Proof. intros w. unfold socket. destruct o; apply frames_refl. Qed.

Lemma keeps_deref (o : option string) : keeps R (deref o).
Proof. destruct o; [apply keeps_ret | apply keeps_throw]. Qed.

Lemma keeps_userOf (sid : string) : keeps R (userOf sid).
Proof.
  apply keeps_bind; [apply keeps_dataOf|]. intros d.
  destruct (sock_user d); [apply keeps_ret | apply keeps_throw].
Qed.

Lemma keeps_present (sid : string) : keeps R (present sid).
Proof. intros w. apply frames_refl. Qed.

Lemma keeps_update (sid : string) (f : Socket → Socket) :
  (∀ m, Q m (alter f sid m)) → keeps R (update sid f).
Proof. intros Hf w. repeat split; try reflexivity. apply Hf. Qed.

Lemma keeps_tell (f : S → S) : (∀ s, P s (f s)) → keeps R (tell f).
Proof. intros Hf w. repeat split; try reflexivity. apply Hf. Qed.

Lemma keeps_call {B} (f : S → B * S) : (∀ s, P s (f s).2) → keeps R (call f).
Proof.
  intros Hf w. unfold call. specialize (Hf (svc w)).
  destruct (f (svc w)). repeat split; try reflexivity. exact Hf.
Qed.

Lemma keeps_try {B} (f : S → ErrorKind + B * S) :
  (∀ s b s', f s = inr (b, s') → P s s') → keeps R (try_ f).
Proof.
  intros Hf w. unfold try_. specialize (Hf (svc w)).
  destruct (f (svc w)) as [e|[b s']]; [apply frames_refl|].
  repeat split; try reflexivity. by eapply Hf.
Qed.

Lemma keeps_tryTell (f : S → ErrorKind + S) :
  (∀ s s', f s = inr s' → P s s') → keeps R (tryTell f).
Proof.
  intros Hf w. unfold tryTell. specialize (Hf (svc w)).
  destruct (f (svc w)) as [e|s']; [apply frames_refl|].
  repeat split; try reflexivity. by eapply Hf.
Qed.

Lemma keeps_callRt {B} (f : Runtime → S → B * Runtime * S) :
  (∀ r s, P s (f r s).2) → keeps R (callRt f).
Proof.
  intros Hf w. unfold callRt. specialize (Hf (rt w) (svc w)).
  destruct (f (rt w) (svc w)) as [[b r] s]. repeat split; try reflexivity. exact Hf.
Qed.

Lemma keeps_tellRt (f : Runtime → S → Runtime * S) :
  (∀ r s, P s (f r s).2) → keeps R (tellRt f).
Proof.
  intros Hf w. unfold tellRt. specialize (Hf (rt w) (svc w)).
  destruct (f (rt w) (svc w)) as [r s]. repeat split; try reflexivity. exact Hf.
Qed.

Lemma keeps_suspendStart (r : option string) :
  (∀ l, T l (l ++ [r])) → keeps R (suspendStart r).
Proof. intros Hf w. repeat split; try reflexivity. apply Hf. Qed.

Lemma keeps_forget (sid : string) :
  (∀ m, Q m (delete sid m)) → keeps R (forget sid).
Proof. intros Hf w. repeat split; try reflexivity. apply Hf. Qed.

Lemma keeps_suspendAuth (sid : string) :
  (∀ a, A a ({[sid]} ∪ a)) → keeps R (suspendAuth sid).
Proof. intros Hf w. repeat split; try reflexivity. apply Hf. Qed.
End Frames.

#[global] Instance any_preorder {X : Type} : PreOrder (@any X).
Proof. by split. Qed.

#[global] Instance same_views_preorder : PreOrder same_views.
Proof.
  split; [done|]. intros m1 m2 m3 H12 H23 sid. by rewrite H23, H12.
Qed.

#[global] Instance fewer_members_preorder : PreOrder fewer_members.
Proof.
  split; [by split|].
  intros s1 s2 s3 [H12 I12] [H23 I23]. split; [|congruence].
  intros roomId. etrans; [apply H23 | apply H12].
Qed.

#[global] Instance no_new_round_preorder : PreOrder no_new_round.
Proof.
  split; [by intros s roomId Hp|].
  intros s1 s2 s3 H12 H23 roomId Hp. by apply H12, H23.
Qed.

(** *** The service of the specification: memberships and room states *)

Ltac rooms_cases x roomId :=
  destruct (decide (x = roomId)) as [<-|?];
  rewrite ?lookup_alter_eq, ?lookup_insert_eq, ?lookup_delete_eq,
          ?lookup_alter_ne, ?lookup_insert_ne, ?lookup_delete_ne by done.

Lemma joined_alterRoom (f : Room → Room) (o : option string) (s : SpecService.t)
    (roomId : string) :
  (∀ r, dom (userList (f r)) ⊆ dom (userList r)) →
  joined roomId (SpecService.alterRoom f o s) ⊆ joined roomId s.
Proof.
  intros Hf. destruct o as [x|]; [|done]. unfold joined. simpl.
  rooms_cases x roomId; [|done].
  destruct (SpecService.roomList s !! x); simpl; [apply Hf | done].
Qed.

Lemma alterRoom_fewer (f : Room → Room) (o : option string) (s : SpecService.t) :
  (∀ r, dom (userList (f r)) ⊆ dom (userList r)) →
  fewer_members s (SpecService.alterRoom f o s).
Proof.
  intros Hf. split; [intros roomId; by apply joined_alterRoom|].
  by destruct o.
Qed.

Lemma alterRoom_no_new_round (f : Room → Room) (o : option string) (s : SpecService.t) :
  (∀ r, state (f r) = playing → state r = playing) →
  no_new_round s (SpecService.alterRoom f o s).
Proof.
  intros Hf roomId. destruct o as [x|]; [|done]. unfold plays. simpl.
  rooms_cases x roomId; [|done].
  destruct (SpecService.roomList s !! x); simpl; [|done].
  intros [=]. f_equal. by apply Hf.
Qed.

Lemma dom_alterUser (f : RoomsUserDto → RoomsUserDto) (u : string) (r : Room) :
  dom (userList (SpecService.alterUser f u r)) ⊆ dom (userList r).
Proof. simpl. by rewrite dom_alter_L. Qed.

Lemma exitRoom_fewer (roomId : option string) (u : string) (r : Runtime)
    (s : SpecService.t) :
  fewer_members s (RoomsService.exitRoom roomId u r s).2.
Proof.
  change (fewer_members s (SpecService.exitRoom roomId u r s).2).
  unfold SpecService.exitRoom.
  destruct roomId as [x|]; [|reflexivity].
  destruct (SpecService.roomList s !! x) as [r0|] eqn:E; [|reflexivity].
  repeat case_bool_decide; simpl; (split; [|done]); intros roomId;
    unfold joined; simpl; rooms_cases x roomId; rewrite ?E; simpl;
    try done; set_solver.
Qed.

Lemma exitRoom_no_new_round (roomId : option string) (u : string) (r : Runtime)
    (s : SpecService.t) :
  no_new_round s (RoomsService.exitRoom roomId u r s).2.
Proof.
  change (no_new_round s (SpecService.exitRoom roomId u r s).2).
  unfold SpecService.exitRoom.
  destruct roomId as [x|]; [|reflexivity].
  destruct (SpecService.roomList s !! x) as [r0|] eqn:E; [|reflexivity].
  repeat case_bool_decide; simpl; intros roomId; unfold plays; simpl;
    rooms_cases x roomId; rewrite ?E; simpl; done.
Qed.

Lemma kick_fewer (roomId : option string) (u target : string) (r : Runtime)
    (s : SpecService.t) :
  fewer_members s (RoomsService.kick roomId u target r s).2.
Proof.
  change (fewer_members s (SpecService.kick roomId u target r s).2).
  unfold SpecService.kick.
  destruct (SpecService.lookupRoom roomId s) as [r0|]; [|reflexivity].
  destruct (userList r0 !! target); [|reflexivity].
  destruct (userList r0 !! u); [|reflexivity].
  case_bool_decide; simpl; apply alterRoom_fewer; intros ?; simpl; set_solver.
Qed.

Lemma kick_no_new_round (roomId : option string) (u target : string) (r : Runtime)
    (s : SpecService.t) :
  no_new_round s (RoomsService.kick roomId u target r s).2.
Proof.
  change (no_new_round s (SpecService.kick roomId u target r s).2).
  unfold SpecService.kick.
  destruct (SpecService.lookupRoom roomId s) as [r0|]; [|reflexivity].
  destruct (userList r0 !! target); [|reflexivity].
  destruct (userList r0 !! u); [|reflexivity].
  case_bool_decide; simpl; by apply alterRoom_no_new_round.
Qed.

Lemma createRoom_fewer (name : string) (c : nat) (s : SpecService.t) :
  fewer_members s (RoomsService.createRoom name c s).2.
Proof.
  change (fewer_members s (SpecService.createRoom name c s).2).
  unfold SpecService.createRoom. simpl. split; [|done].
  intros roomId. unfold joined. simpl.
  rooms_cases ("room" +:+ pretty (SpecService.nextRoom s)) roomId; simpl; set_solver.
Qed.

Lemma createRoom_no_new_round (name : string) (c : nat) (s : SpecService.t) :
  no_new_round s (RoomsService.createRoom name c s).2.
Proof.
  change (no_new_round s (SpecService.createRoom name c s).2).
  unfold SpecService.createRoom. simpl.
  intros roomId. unfold plays. simpl.
  rooms_cases ("room" +:+ pretty (SpecService.nextRoom s)) roomId; simpl; done.
Qed.

Lemma useItem_fewer (roomId : option string) (u item : string) (s : SpecService.t) :
  fewer_members s (RoomsService.useItem roomId u item s).2.
Proof.
  change (fewer_members s (SpecService.useItem roomId u item s).2).
  unfold SpecService.useItem.
  destruct (SpecService.member roomId u s) as [m|]; [|reflexivity].
  destruct (itemList m !! item) as [[|n]|]; try reflexivity.
  simpl. apply alterRoom_fewer, dom_alterUser.
Qed.

Lemma useItem_no_new_round (roomId : option string) (u item : string) (s : SpecService.t) :
  no_new_round s (RoomsService.useItem roomId u item s).2.
Proof.
  change (no_new_round s (SpecService.useItem roomId u item s).2).
  unfold SpecService.useItem.
  destruct (SpecService.member roomId u s) as [m|]; [|reflexivity].
  destruct (itemList m !! item) as [[|n]|]; try reflexivity.
  simpl. by apply alterRoom_no_new_round.
Qed.

Lemma assignItem_fewer (roomId : option string) (u : string) (seed : nat)
    (s : SpecService.t) :
  fewer_members s (RoomsService.assignItem roomId u seed s).2.
Proof.
  change (fewer_members s (SpecService.assignItem roomId u seed s).2).
  simpl. apply alterRoom_fewer, dom_alterUser.
Qed.

Lemma assignItem_no_new_round (roomId : option string) (u : string) (seed : nat)
    (s : SpecService.t) :
  no_new_round s (RoomsService.assignItem roomId u seed s).2.
Proof.
  change (no_new_round s (SpecService.assignItem roomId u seed s).2).
  simpl. by apply alterRoom_no_new_round.
Qed.

Lemma switchReady_fewer (roomId : option string) (u : string) (s s' : SpecService.t)
    (b : bool) :
  RoomsService.switchReady roomId u s = inr (b, s') → fewer_members s s'.
Proof.
  change (SpecService.switchReady roomId u s = inr (b, s') → fewer_members s s').
  unfold SpecService.switchReady.
  destruct (SpecService.member roomId u s) as [m|]; [|done].
  intros [= _ <-]. apply alterRoom_fewer, dom_alterUser.
Qed.

Lemma switchReady_no_new_round (roomId : option string) (u : string)
    (s s' : SpecService.t) (b : bool) :
  RoomsService.switchReady roomId u s = inr (b, s') → no_new_round s s'.
Proof.
  change (SpecService.switchReady roomId u s = inr (b, s') → no_new_round s s').
  unfold SpecService.switchReady.
  destruct (SpecService.member roomId u s) as [m|]; [|done].
  intros [= _ <-]. by apply alterRoom_no_new_round.
Qed.

Lemma setTimer_fewer (roomId : option string) (h : nat) (s : SpecService.t) :
  fewer_members s (RoomsService.setTimer roomId h s).
Proof. by apply alterRoom_fewer. Qed.

Lemma setTimer_no_new_round (roomId : option string) (h : nat) (s : SpecService.t) :
  no_new_round s (RoomsService.setTimer roomId h s).
Proof. by apply alterRoom_no_new_round. Qed.

Lemma setItemCreator_fewer (roomId : option string) (h : nat) (s : SpecService.t) :
  fewer_members s (RoomsService.setItemCreator roomId h s).
Proof. by apply alterRoom_fewer. Qed.

Lemma setItemCreator_no_new_round (roomId : option string) (h : nat)
    (s : SpecService.t) :
  no_new_round s (RoomsService.setItemCreator roomId h s).
Proof. by apply alterRoom_no_new_round. Qed.

Lemma gameOver_fewer (roomId : option string) (r : Runtime) (s : SpecService.t) :
  fewer_members s (RoomsService.gameOver roomId r s).2.
Proof.
  change (fewer_members s (SpecService.gameOver roomId r s).2).
  unfold SpecService.gameOver.
  destruct (SpecService.lookupRoom roomId s); [|reflexivity].
  by apply alterRoom_fewer.
Qed.

Lemma gameOver_no_new_round (roomId : option string) (r : Runtime) (s : SpecService.t) :
  no_new_round s (RoomsService.gameOver roomId r s).2.
Proof.
  change (no_new_round s (SpecService.gameOver roomId r s).2).
  unfold SpecService.gameOver.
  destruct (SpecService.lookupRoom roomId s); [|reflexivity].
  by apply alterRoom_no_new_round.
Qed.

Lemma changeRoomState_fewer (roomId : option string) (st : RoomState)
    (s s' : SpecService.t) :
  RoomsService.changeRoomState roomId st s = inr s' → fewer_members s s'.
Proof.
  change (SpecService.changeRoomState roomId st s = inr s' → fewer_members s s').
  unfold SpecService.changeRoomState.
  destruct (SpecService.lookupRoom roomId s) as [r|]; [|done].
  destruct (state r), st; try done; intros [= <-]; apply alterRoom_fewer;
    intros ?; simpl; by rewrite ?dom_fmap_L.
Qed.

Lemma enterRoom_no_new_round (roomId prev : option string) (u : RoomsUserDto)
    (s s' : SpecService.t) :
  RoomsService.enterRoom roomId prev u s = inr s' → no_new_round s s'.
Proof.
  change (SpecService.enterRoom roomId prev u s = inr s' → no_new_round s s').
  unfold SpecService.enterRoom.
  destruct (SpecService.lookupRoom roomId s) as [r|]; [|done].
  destruct (SpecService.full r); [done|]. intros [= <-].
  etrans; by apply alterRoom_no_new_round.
Qed.

Lemma registerSocketId_no_new_round (u sid : string) (s : SpecService.t) :
  no_new_round s (RoomsService.registerSocketId u sid s).
Proof. by intros roomId Hp. Qed.

Lemma deleteSocketId_no_new_round (u : string) (s : SpecService.t) :
  no_new_round s (RoomsService.deleteSocketId u s).
Proof. by intros roomId Hp. Qed.

Lemma same_views_alter (f : Socket → Socket) (sid : string) (m : gmap string Socket) :
  (∀ d, view (f d) = view d) → same_views m (alter f sid m).
Proof.
  intros Hf k. destruct (decide (sid = k)) as [<-|?].
  - rewrite lookup_alter_eq. destruct (m !! sid); simpl; [|done]. by rewrite Hf.
  - by rewrite lookup_alter_ne.
Qed.

Lemma any_holds {X : Type} (x y : X) : any x y.
Proof. exact I. Qed.

Create HintDb rooms discriminated.
#[local] Hint Resolve any_holds exitRoom_fewer exitRoom_no_new_round kick_fewer
  kick_no_new_round createRoom_fewer createRoom_no_new_round useItem_fewer
  useItem_no_new_round assignItem_fewer assignItem_no_new_round switchReady_fewer
  switchReady_no_new_round setTimer_fewer setTimer_no_new_round setItemCreator_fewer
  setItemCreator_no_new_round gameOver_fewer gameOver_no_new_round
  changeRoomState_fewer enterRoom_no_new_round registerSocketId_no_new_round
  deleteSocketId_no_new_round : rooms.

Ltac keeps_side :=
  intros;
  first [ exact I | reflexivity
        | apply same_views_alter; intros []; reflexivity
        | apply same_views_alter; intros [] ; match goal with |- context [joinRoom ?r] => destruct r | |- context [leaveRoom ?r] => destruct r end; reflexivity
        | solve [eauto with rooms] ].

Ltac kapply l := apply l; try apply _.

Ltac keeps_step :=
  first
    [ assumption
    | match goal with IH : ∀ _, keeps _ _ |- _ => apply IH end
    | kapply keeps_ret | kapply keeps_throw
    | kapply keeps_ask | kapply keeps_emit | kapply keeps_runtime | kapply keeps_runtime_
    | kapply keeps_dataOf | kapply keeps_socket | kapply keeps_deref | kapply keeps_userOf
    | kapply keeps_present
    | kapply keeps_update; keeps_side
    | kapply keeps_tell; keeps_side
    | kapply keeps_call; keeps_side
    | kapply keeps_try; keeps_side
    | kapply keeps_tryTell; keeps_side
    | kapply keeps_callRt; keeps_side
    | kapply keeps_tellRt; keeps_side
    | kapply keeps_suspendStart; keeps_side
    | kapply keeps_forget; keeps_side
    | kapply keeps_suspendAuth; keeps_side
    | kapply keeps_bind; [|intros ?]
    | progress cbv zeta
    | match goal with
      | |- keeps _ (if ?x then _ else _) => destruct x
      | |- keeps _ (match ?x with _ => _ end) => destruct x
      end ].

Ltac keeps_auto := unfold shrinks, starts_no_round, calm in *; repeat keeps_step.

(** Every handler but [ready] keeps the world [calm]. *)

Lemma handleDisconnect_calm socket : keeps calm (RoomsGateway.handleDisconnect socket).
Proof. unfold RoomsGateway.handleDisconnect. keeps_auto. Qed.

Lemma disconnect_calm socket : keeps calm (RoomsGateway.disconnect socket).
Proof.
  unfold RoomsGateway.disconnect. keeps_auto; try apply handleDisconnect_calm.
Qed.

Lemma handleConnection_calm socket rawToken verified :
  keeps calm (RoomsGateway.handleConnection socket rawToken verified).
Proof.
  unfold RoomsGateway.handleConnection. keeps_auto; try apply disconnect_calm.
Qed.

Lemma handleConnection_resume_calm socket found :
  keeps calm (RoomsGateway.handleConnection_resume socket found).
Proof.
  unfold RoomsGateway.handleConnection_resume. keeps_auto; try apply disconnect_calm.
Qed.

Lemma countdownExpired_calm roomId : keeps calm (RoomsGateway.countdownExpired roomId).
Proof. unfold RoomsGateway.countdownExpired. keeps_auto. Qed.

Lemma createItem_each_calm roomId seed l :
  keeps calm (RoomsGateway.createItem_each roomId seed l).
Proof.
  revert seed. induction l as [|sid l IH]; intros seed;
    cbn [RoomsGateway.createItem_each]; keeps_auto.
Qed.

Lemma createItem_calm roomId seed : keeps calm (RoomsGateway.createItem roomId seed).
Proof. unfold RoomsGateway.createItem. keeps_auto; try apply createItem_each_calm. Qed.

Lemma dispatch_calm client m :
  m ≠ MReady → keeps calm (RoomsGateway.dispatch client m).
Proof.
  intros Hm. destruct m; try done; simpl;
    unfold RoomsGateway.lobbyInfo, RoomsGateway.roomInfo, RoomsGateway.enterLobby,
      RoomsGateway.exitLobby, RoomsGateway.createRoom, RoomsGateway.enterRoom,
      RoomsGateway.exitRoom, RoomsGateway.chat, RoomsGateway.dm, RoomsGateway.kick,
      RoomsGateway.useItem, RoomsGateway.pass, RoomsGateway.exitResult,
      RoomsGateway.invite, join, leave;
    keeps_auto.
Qed.

Lemma ready_starts_no_round client :
  keeps starts_no_round (RoomsGateway.ready client).
Proof. unfold RoomsGateway.ready, RoomsGateway.start. keeps_auto. Qed.

(** Every handler but the two that enter a room only [shrinks] the
    memberships. *)

Lemma countdownExpired_shrinks roomId :
  keeps shrinks (RoomsGateway.countdownExpired roomId).
Proof. unfold RoomsGateway.countdownExpired. keeps_auto. Qed.

Lemma createItem_each_shrinks roomId seed l :
  keeps shrinks (RoomsGateway.createItem_each roomId seed l).
Proof.
  revert seed. induction l as [|sid l IH]; intros seed;
    cbn [RoomsGateway.createItem_each]; keeps_auto.
Qed.

Lemma createItem_shrinks roomId seed : keeps shrinks (RoomsGateway.createItem roomId seed).
Proof.
  unfold RoomsGateway.createItem. keeps_auto; try apply createItem_each_shrinks.
Qed.

Lemma start_resume_shrinks roomId problems :
  keeps shrinks (RoomsGateway.start_resume roomId problems).
Proof. unfold RoomsGateway.start_resume. keeps_auto. Qed.

Lemma dispatch_shrinks client m :
  m ≠ MEnterLobby → (∀ r, m ≠ MEnterRoom r) →
  keeps shrinks (RoomsGateway.dispatch client m).
Proof.
  intros Hl Hr. destruct m; try done; try (by destruct (Hr roomId)); simpl;
    unfold RoomsGateway.lobbyInfo, RoomsGateway.roomInfo,
      RoomsGateway.exitLobby, RoomsGateway.createRoom, RoomsGateway.ready,
      RoomsGateway.start,
      RoomsGateway.exitRoom, RoomsGateway.chat, RoomsGateway.dm, RoomsGateway.kick,
      RoomsGateway.useItem, RoomsGateway.pass, RoomsGateway.exitResult,
      RoomsGateway.invite, join, leave;
    keeps_auto.
Qed.

(** *** The memberships and the connections stay coherent *)

Lemma coherent_ext (w w' : World SpecService.t) :
  svc w' = svc w → sockets w' = sockets w → pendingAuth w' = pendingAuth w →
  coherent w → coherent w'.
Proof.
  intros Hs Hk Ha [H1 H2 H3 H4]. split; rewrite ?Hs, ?Hk, ?Ha; done.
Qed.

Lemma coherent_shrinks (w w' : World SpecService.t) :
  coherent w → shrinks w w' → coherent w'.
Proof.
  intros [H1 H2 H3 H4] ([Hj Hi] & Hv & Ha & _). split.
  - intros roomId u Hu. apply Hj, H1 in Hu as (sid & usr & Hsid & Hn).
    exists sid, usr. by rewrite Hv.
  - intros sid1 sid2 u1 u2 r1 r2. rewrite !Hv. apply H2.
  - intros sid u r. rewrite Hv, Hi. apply H3.
  - intros sid d Hin Hd. rewrite <- Ha in Hin.
    assert (view <$> sockets w !! sid = Some (view d)) as Hw
      by (by rewrite <- Hv, Hd).
    apply fmap_Some in Hw as (d0 & Hd0 & Hview).
    injection Hview as -> _. by apply (H4 sid d0).
Qed.

Lemma coherent_genesis : coherent genesis.
Proof.
  split.
  - intros roomId u. unfold joined, genesis, boot. simpl.
    destruct (decide (roomId = LOBBY_ID)) as [->|Hne].
    + rewrite lookup_singleton_eq. simpl. set_solver.
    + rewrite lookup_singleton_ne by done. set_solver.
  - intros sid1 sid2 u1 u2 r1 r2. simpl. by rewrite lookup_empty.
  - intros sid u r. simpl. by rewrite lookup_empty.
  - intros sid d. simpl. set_solver.
Qed.

Lemma joined_alterRoom_eq (f : Room → Room) (o : option string) (s : SpecService.t)
    (r : string) :
  joined r (SpecService.alterRoom f o s) =
    if decide (o = Some r)
    then match SpecService.roomList s !! r with
         | Some rm => dom (userList (f rm))
         | None => ∅
         end
    else joined r s.
Proof.
  destruct o as [x|]; simpl.
  - unfold joined. simpl. case_decide as Hx.
    + injection Hx as ->. rewrite lookup_alter_eq.
      by destruct (SpecService.roomList s !! r).
    + rewrite lookup_alter_ne; [done|]. by intros ->.
  - by try case_decide.
Qed.

(** What [enterRoom] of the service does to the memberships. *)
Lemma enterRoom_joined (roomId prev : option string) (dto : RoomsUserDto)
    (s s' : SpecService.t) (r v : string) :
  SpecService.enterRoom roomId prev dto s = inr s' →
  v ∈ joined r s' →
  (v = userName dto ∧ roomId = Some r) ∨
  (v ∈ joined r s ∧ (v = userName dto → prev ≠ Some r)).
Proof.
  unfold SpecService.enterRoom.
  destruct (SpecService.lookupRoom roomId s) as [rm|]; [|done].
  destruct (SpecService.full rm); [done|]. intros [= <-].
  set (sdel := SpecService.alterRoom
                 (λ r0, SpecService.setUsers (delete (userName dto) (userList r0)) r0)
                 prev s).
  assert (v ∈ joined r sdel → v ∈ joined r s ∧ (v = userName dto → prev ≠ Some r))
    as Hdel.
  { unfold sdel. rewrite joined_alterRoom_eq. case_decide as Hp.
    - unfold joined. destruct (SpecService.roomList s !! r); simpl; [|set_solver].
      rewrite dom_delete_L. set_solver.
    - done. }
  rewrite joined_alterRoom_eq. case_decide as Hr; [|intros Hin; right; by apply Hdel].
  destruct (SpecService.roomList sdel !! r) as [rm'|] eqn:E'; simpl; [|set_solver].
  rewrite dom_insert_L. intros [->%elem_of_singleton|Hin]%elem_of_union; [by left|].
  right. apply Hdel. unfold joined. by rewrite E'.
Qed.

Lemma enterRoom_member (roomId prev : option string) (dto : RoomsUserDto)
    (s s' : SpecService.t) :
  SpecService.enterRoom roomId prev dto s = inr s' →
  ∃ x, roomId = Some x ∧ userName dto ∈ joined x s'.
Proof.
  unfold SpecService.enterRoom.
  destruct (SpecService.lookupRoom roomId s) as [rm|] eqn:E; [|done].
  destruct (SpecService.full rm); [done|]. intros [= <-].
  destruct roomId as [x|]; [|done]. simpl in E.
  exists x. split; [done|].
  rewrite joined_alterRoom_eq. rewrite decide_True by done.
  assert (is_Some (SpecService.roomList
            (SpecService.alterRoom
               (λ r, SpecService.setUsers (delete (userName dto) (userList r)) r)
               prev s) !! x)) as [rm' ->].
  { destruct prev as [p|]; simpl; [|eauto].
    destruct (decide (p = x)) as [->|?].
    - rewrite lookup_alter_eq, E. eauto.
    - rewrite lookup_alter_ne by done. eauto. }
  simpl. rewrite dom_insert_L. set_solver.
Qed.

Lemma enterRoom_socketIds (roomId prev : option string) (dto : RoomsUserDto)
    (s s' : SpecService.t) :
  SpecService.enterRoom roomId prev dto s = inr s' →
  SpecService.socketIds s' = SpecService.socketIds s.
Proof.
  unfold SpecService.enterRoom.
  destruct (SpecService.lookupRoom roomId s) as [rm|]; [|done].
  destruct (SpecService.full rm); [done|]. intros [= <-].
  by destruct roomId, prev.
Qed.

(** The world right after lines 184-186: the service has moved the member,
    the socket has joined the room and names it. *)
Lemma enter_coherent (w w3 : World SpecService.t) (client : string) (d : Socket)
    (u : User) (roomId : option string) (dto : RoomsUserDto) (s' : SpecService.t) :
  coherent w → sockets w !! client = Some d → sock_user d = Some u →
  userName dto = user_name u →
  SpecService.enterRoom roomId (sock_roomId d) dto (svc w) = inr s' →
  svc w3 = s' →
  sockets w3 = alter (setRoomId roomId) client (alter (joinRoom roomId) client (sockets w)) →
  pendingAuth w3 = pendingAuth w →
  coherent w3.
Proof.
  intros [H1 H2 H3 H4] Hs Hu Hn He Hsvc Hsock Hauth.
  assert (view <$> sockets w !! client = Some (Some u, sock_roomId d)) as Hvc
    by (rewrite Hs; simpl; unfold view; by rewrite Hu).
  assert (view <$> sockets w3 !! client = Some (Some u, roomId)) as Hvc3.
  { rewrite Hsock, !lookup_alter_eq, Hs. simpl. unfold view. f_equal.
    destruct roomId; simpl; by rewrite Hu. }
  assert (∀ sid, sid ≠ client →
            view <$> sockets w3 !! sid = view <$> sockets w !! sid) as Hother.
  { intros sid Hne. by rewrite Hsock, !lookup_alter_ne. }
  assert (∀ sid usr r, view <$> sockets w3 !! sid = Some (Some usr, r) →
            ∃ r', view <$> sockets w !! sid = Some (Some usr, r')) as Huser.
  { intros sid usr r. destruct (decide (sid = client)) as [->|Hne].
    - rewrite Hvc3, Hvc. intros [= -> _]. eauto.
    - rewrite Hother by done. eauto. }
  split.
  - intros r v. rewrite Hsvc. intros Hin.
    destruct (enterRoom_joined _ _ _ _ _ _ _ He Hin) as [[-> ->]|[Hj Hp]].
    + exists client, u. by rewrite Hvc3.
    + destruct (H1 r v Hj) as (sid & usr & Hsid & Hname).
      exists sid, usr. split; [|done]. rewrite Hother; [done|].
      intros ->. rewrite Hvc in Hsid. injection Hsid as <- Hr.
      apply Hp; [congruence | done].
  - intros sid1 sid2 u1 u2 r1 r2 Hv1 Hv2.
    destruct (Huser _ _ _ Hv1) as [r1' Hw1]. destruct (Huser _ _ _ Hv2) as [r2' Hw2].
    by eapply H2.
  - intros sid usr r Hv. destruct (Huser _ _ _ Hv) as [r' Hw].
    rewrite Hsvc, (enterRoom_socketIds _ _ _ _ _ He). by eapply H3.
  - intros sid d3 Hin Hd3. rewrite Hauth in Hin.
    assert (view <$> sockets w3 !! sid = Some (view d3)) as Hv by (by rewrite Hd3).
    destruct (sock_user d3) as [usr|] eqn:Hud; [|done].
    unfold view in Hv. rewrite Hud in Hv.
    destruct (Huser _ _ _ Hv) as [r' Hw].
    apply fmap_Some in Hw as (d0 & Hd0 & Hview).
    injection Hview as Hu0 _. by rewrite (H4 sid d0 Hin Hd0) in Hu0.
Qed.

Lemma userOf_absent {S : Type} (w : World S) (client : string) :
  sockets w !! client = None → userOf client w = (Throw TypeError, w).
Proof. intros Hs. gw_unfold. by rewrite Hs. Qed.

Lemma userOf_unbound {S : Type} (w : World S) (client : string) (d : Socket) :
  sockets w !! client = Some d → sock_user d = None →
  userOf client w = (Throw TypeError, w).
Proof. intros Hs Hu. gw_unfold. by rewrite Hs, Hu. Qed.

Lemma dataOf_present {S : Type} (w : World S) (client : string) (d : Socket) :
  sockets w !! client = Some d → dataOf client w = (Return d, w).
Proof. intros Hs. unfold dataOf. by rewrite Hs. Qed.

Lemma coherent_keeps {B : Type} (m : Gw SpecService.t B) (w : World SpecService.t) :
  keeps shrinks m → coherent w → coherent (m w).2.
Proof. intros Hm Hw. by apply coherent_shrinks with w. Qed.

Ltac bind_step H := rewrite (bind_return _ _ _ _ _ H); cbv beta zeta.

(** Lines 174-204 and 127-145 keep the world coherent. *)
Lemma enterRoom_coherent (w : World SpecService.t) (client : string)
    (roomId : option string) :
  coherent w → coherent (exec (RoomsGateway.enterRoom client roomId) w).
Proof.
  intros Hw. unfold exec, RoomsGateway.enterRoom.
  destruct (sockets w !! client) as [d|] eqn:Hs;
    [|by rewrite (bind_throw _ _ _ _ _ (userOf_absent w client Hs))].
  destruct (sock_user d) as [u|] eqn:Hu;
    [|by rewrite (bind_throw _ _ _ _ _ (userOf_unbound w client d Hs Hu))].
  bind_step (userOf_bound w client d u Hs Hu).
  bind_step (dataOf_present w client d Hs).
  destruct (SpecService.enterRoom roomId (sock_roomId d)
              (mkDto client (user_name u) false None ∅) (svc w)) as [e|s'] eqn:He.
  - rewrite (bind_throw _ _ w w e); [done|]. unfold tryTell. simpl. by rewrite He.
  - rewrite (bind_return _ _ w (setSvc s' w) ()); [|unfold tryTell; simpl; by rewrite He].
    cbv beta.
    rewrite (bind_return (join client roomId) _ (setSvc s' w) _ () eq_refl). cbv beta.
    rewrite (bind_return (update client (setRoomId roomId)) _ _ _ () eq_refl). cbv beta.
    apply coherent_keeps; [keeps_auto|].
    by eapply (enter_coherent w _ client d u roomId
                 (mkDto client (user_name u) false None ∅) s' Hw Hs Hu eq_refl He).
Qed.

Lemma enterLobby_coherent (w : World SpecService.t) (client : string) :
  coherent w → coherent (exec (RoomsGateway.enterLobby client) w).
Proof.
  intros Hw. unfold exec, RoomsGateway.enterLobby.
  destruct (sockets w !! client) as [d|] eqn:Hs;
    [|by rewrite (bind_throw _ _ _ _ _ (userOf_absent w client Hs))].
  destruct (sock_user d) as [u|] eqn:Hu;
    [|by rewrite (bind_throw _ _ _ _ _ (userOf_unbound w client d Hs Hu))].
  bind_step (userOf_bound w client d u Hs Hu).
  bind_step (dataOf_present w client d Hs).
  destruct (SpecService.enterRoom (Some LOBBY_ID) (sock_roomId d)
              (mkDto client (user_name u) false (Some false) ∅) (svc w))
    as [e|s'] eqn:He.
  - rewrite (bind_throw _ _ w w e); [done|]. unfold tryTell. simpl. by rewrite He.
  - rewrite (bind_return _ _ w (setSvc s' w) ()); [|unfold tryTell; simpl; by rewrite He].
    cbv beta.
    rewrite (bind_return (join client (Some LOBBY_ID)) _ (setSvc s' w) _ () eq_refl).
    cbv beta.
    rewrite (bind_return (update client (setRoomId (Some LOBBY_ID))) _ _ _ () eq_refl).
    cbv beta.
    apply coherent_keeps; [keeps_auto|].
    by eapply (enter_coherent w _ client d u (Some LOBBY_ID)
                 (mkDto client (user_name u) false (Some false) ∅) s' Hw Hs Hu eq_refl He).
Qed.

Lemma dispatch_coherent (w : World SpecService.t) (client : string) (m : Msg) :
  coherent w → coherent (exec (RoomsGateway.dispatch client m) w).
Proof.
  intros Hw.
  destruct (decide (m = MEnterLobby)) as [->|Hl]; [by apply enterLobby_coherent|].
  destruct m; try (by apply coherent_keeps; [by apply dispatch_shrinks|]).
  by apply enterRoom_coherent.
Qed.

Lemma deliver_coherent (w : World SpecService.t) (client : string)
    (m : Gw SpecService.t Reply) :
  coherent (exec m w) → coherent (deliver client m w).
Proof.
  unfold deliver, exec. destruct (m w) as [[a|e] w']; [done|].
  by apply coherent_ext.
Qed.

Lemma handleDisconnect_returns {S : Type} `{!RoomsService.Ops S} (w : World S)
    (sock : string) (d : Socket) :
  sockets w !! sock = Some d →
  (RoomsGateway.handleDisconnect sock w).1 = Return ().
Proof.
  intros Hs. unfold RoomsGateway.handleDisconnect. gw_unfold.
  rewrite Hs. simpl. destruct (sock_user d); [|done].
  destruct (RoomsService.exitRoom _ _ _ _) as [[b r] s]. simpl.
  destruct (truthy (sock_roomId d)); [|done].
  destruct (bool_decide _); [done|]. simpl.
  by destruct (RoomsService.roomInfo _ _).
Qed.

Lemma disconnect_present {S : Type} `{!RoomsService.Ops S} (w : World S)
    (sock : string) (d : Socket) :
  sockets w !! sock = Some d →
  exec (RoomsGateway.disconnect sock) w =
    let w1 := exec (RoomsGateway.handleDisconnect sock) w in
    setSockets (delete sock (sockets w1)) w1.
Proof.
  intros Hs. pose proof (handleDisconnect_returns w sock d Hs) as Hr.
  unfold exec, RoomsGateway.disconnect, present, forget, mbind, Gw_bind.
  rewrite Hs. rewrite bool_decide_eq_true_2 by eauto.
  destruct (RoomsGateway.handleDisconnect sock w) as [[[]|e] w1]; simpl in *; done.
Qed.

Lemma exitRoom_removes (x u : string) (r : Runtime) (s : SpecService.t) :
  u ∉ joined x (SpecService.exitRoom (Some x) u r s).2.
Proof.
  unfold SpecService.exitRoom.
  destruct (SpecService.roomList s !! x) as [r0|] eqn:E.
  - repeat case_bool_decide; simpl; unfold joined; simpl;
      rewrite ?lookup_insert_eq, ?lookup_delete_eq; simpl;
      rewrite ?dom_delete_L; set_solver.
  - simpl. unfold joined. rewrite E. set_solver.
Qed.

Lemma disconnect_coherent (w : World SpecService.t) (sock : string) :
  coherent w → coherent (exec (RoomsGateway.disconnect sock) w).
Proof.
  intros Hw.
  destruct (sockets w !! sock) as [d|] eqn:Hs;
    [|unfold exec; by rewrite (disconnect_absent w sock Hs)].
  destruct (sock_user d) as [u|] eqn:Hu.
  2:{ unfold exec. rewrite (disconnect_no_user w sock d Hs Hu). simpl.
      destruct Hw as [H1 H2 H3 H4]. split; simpl.
      - intros r v Hin. destruct (H1 r v Hin) as (sid & usr & Hv & Hn).
        exists sid, usr. split; [|done]. rewrite lookup_delete_ne; [done|].
        intros <-. rewrite Hs in Hv. simpl in Hv. unfold view in Hv. by rewrite Hu in Hv.
      - intros sid1 sid2 u1 u2 r1 r2 Hv1 Hv2.
        apply (H2 sid1 sid2 u1 u2 r1 r2).
        + destruct (decide (sock = sid1)) as [<-|?];
            [by rewrite lookup_delete_eq in Hv1 | by rewrite lookup_delete_ne in Hv1].
        + destruct (decide (sock = sid2)) as [<-|?];
            [by rewrite lookup_delete_eq in Hv2 | by rewrite lookup_delete_ne in Hv2].
      - intros sid usr r Hv. apply (H3 sid usr r).
        destruct (decide (sock = sid)) as [<-|?];
          [by rewrite lookup_delete_eq in Hv | by rewrite lookup_delete_ne in Hv].
      - intros sid d0 Hin Hd. apply (H4 sid d0 Hin).
        destruct (decide (sock = sid)) as [<-|?];
          [by rewrite lookup_delete_eq in Hd | by rewrite lookup_delete_ne in Hd]. }
  rewrite (disconnect_present w sock d Hs). cbv zeta.
  destruct (handleDisconnect_user w sock d u Hs Hu) as (Hsvc & _ & Hsock & Hauth & _).
  set (w1 := exec (RoomsGateway.handleDisconnect sock) w) in *. clearbody w1.
  simpl in Hsvc.
  pose proof (exitRoom_fewer (sock_roomId d) (user_name u) (rt w) (svc w)) as [Hj Hi].
  simpl in Hj, Hi.
  set (s1 := (SpecService.exitRoom (sock_roomId d) (user_name u) (rt w) (svc w)).2) in *.
  assert (view <$> sockets w !! sock = Some (Some u, sock_roomId d)) as Hvs
    by (rewrite Hs; simpl; unfold view; by rewrite Hu).
  destruct Hw as [H1 H2 H3 H4]. split; simpl; rewrite ?Hsvc, ?Hsock, ?Hauth.
  - intros r v Hin.
    assert (v ∈ joined r s1) as Hin1 by done.
    destruct (H1 r v (Hj r v Hin1)) as (sid & usr & Hv & Hn).
    exists sid, usr. split; [|done]. rewrite lookup_delete_ne; [done|].
    intros <-. rewrite Hvs in Hv. injection Hv as <- Hr.
    subst v. unfold s1 in Hin1. rewrite Hr in Hin1.
    by apply exitRoom_removes in Hin1.
  - intros sid1 sid2 u1 u2 r1 r2 Hv1 Hv2.
    apply (H2 sid1 sid2 u1 u2 r1 r2).
    + destruct (decide (sock = sid1)) as [<-|?];
        [by rewrite lookup_delete_eq in Hv1 | by rewrite lookup_delete_ne in Hv1].
    + destruct (decide (sock = sid2)) as [<-|?];
        [by rewrite lookup_delete_eq in Hv2 | by rewrite lookup_delete_ne in Hv2].
  - intros sid usr r Hv.
    destruct (decide (sock = sid)) as [<-|Hne]; [by rewrite lookup_delete_eq in Hv|].
    rewrite lookup_delete_ne in Hv by done.
    simpl. rewrite lookup_delete_ne.
    + fold s1. rewrite Hi. by apply (H3 sid usr r).
    + intros Hn. apply Hne. symmetry. by apply (H2 sid sock usr u r (sock_roomId d)).
  - intros sid d0 Hin Hd. apply (H4 sid d0 Hin).
    destruct (decide (sock = sid)) as [<-|?];
      [by rewrite lookup_delete_eq in Hd | by rewrite lookup_delete_ne in Hd].
Qed.

Lemma coherent_fresh (w : World SpecService.t) (sock : string) :
  sockets w !! sock = None → coherent w →
  coherent (setSockets (<[sock := freshSocket]> (sockets w)) w).
Proof.
  intros Hs [H1 H2 H3 H4].
  assert (∀ sid usr r,
            view <$> <[sock := freshSocket]> (sockets w) !! sid = Some (Some usr, r) →
            sid ≠ sock ∧ view <$> sockets w !! sid = Some (Some usr, r)) as Hold.
  { intros sid usr r. destruct (decide (sock = sid)) as [<-|Hne].
    - by rewrite lookup_insert_eq.
    - rewrite lookup_insert_ne by done. by split. }
  split; simpl.
  - intros r v Hin. destruct (H1 r v Hin) as (sid & usr & Hv & Hn).
    exists sid, usr. split; [|done]. rewrite lookup_insert_ne; [done|].
    intros <-. by rewrite Hs in Hv.
  - intros sid1 sid2 u1 u2 r1 r2 [_ Hv1]%Hold [_ Hv2]%Hold. by eapply H2.
  - intros sid usr r [_ Hv]%Hold. by eapply H3.
  - intros sid d Hin. destruct (decide (sock = sid)) as [<-|Hne].
    + rewrite lookup_insert_eq. by intros [= <-].
    + rewrite lookup_insert_ne by done. by apply H4.
Qed.

Lemma coherent_suspendAuth (w : World SpecService.t) (sock : string) :
  (∀ d, sockets w !! sock = Some d → sock_user d = None) → coherent w →
  coherent (setPendingAuth ({[sock]} ∪ pendingAuth w) w).
Proof.
  intros Hs [H1 H2 H3 H4]. split; simpl; try done.
  intros sid d [->%elem_of_singleton|Hin]%elem_of_union; [apply Hs | by apply H4].
Qed.

Lemma coherent_less_auth (w : World SpecService.t) (sock : string) :
  coherent w → coherent (setPendingAuth (pendingAuth w ∖ {[sock]}) w).
Proof.
  intros [H1 H2 H3 H4]. split; simpl; try done.
  intros sid d Hin. apply H4. set_solver.
Qed.

Lemma emit_then {S B : Type} (t : Target) (e : string) (p : list (string * Val))
    (k : Gw S B) (w : World S) :
  (emit t e p ≫= λ _, k) w = k (setOutbox (outbox w ++ [mkEmit t e p]) w).
Proof. done. Qed.

Lemma handleConnection_coherent (w : World SpecService.t) (sock : string)
    (rawToken : option string) (verified : bool) :
  (∀ d, sockets w !! sock = Some d → sock_user d = None) → coherent w →
  coherent (exec (RoomsGateway.handleConnection sock rawToken verified) w).
Proof.
  intros Hs Hw. unfold exec, RoomsGateway.handleConnection.
  destruct (truthy rawToken); [destruct verified|].
  - by apply coherent_suspendAuth.
  - rewrite emit_then. apply disconnect_coherent. by apply coherent_ext with w.
  - rewrite emit_then. apply disconnect_coherent. by apply coherent_ext with w.
Qed.

Lemma register_coherent (w w' : World SpecService.t) (sock : string) (user : User) :
  (∀ d, sockets w !! sock = Some d → sock_user d = None) →
  SpecService.socketIds (svc w) !! user_name user = None →
  sock ∉ pendingAuth w →
  svc w' = SpecService.registerSocketId (user_name user) sock (svc w) →
  sockets w' = alter (setUser user) sock (sockets w) →
  pendingAuth w' = pendingAuth w →
  coherent w → coherent w'.
Proof.
  intros Hs Hreg Hna Hsvc Hsock Hauth [H1 H2 H3 H4].
  assert (∀ sid usr r,
            view <$> sockets w' !! sid = Some (Some usr, r) →
            (sid = sock ∧ usr = user) ∨
            (sid ≠ sock ∧ view <$> sockets w !! sid = Some (Some usr, r))) as Hold.
  { intros sid usr r. rewrite Hsock. destruct (decide (sock = sid)) as [<-|Hne].
    - rewrite lookup_alter_eq. destruct (sockets w !! sock) as [d|]; [|done].
      simpl. unfold view. simpl. intros [= <- _]. by left.
    - rewrite lookup_alter_ne by done. by right. }
  assert (∀ sid usr r, view <$> sockets w !! sid = Some (Some usr, r) →
            user_name usr ≠ user_name user) as Hfree.
  { intros sid usr r Hv Hn. destruct (H3 sid usr r Hv) as [x Hx]. congruence. }
  split.
  - intros r v. rewrite Hsvc. intros Hin.
    destruct (H1 r v Hin) as (sid & usr & Hv & Hn).
    exists sid, usr. split; [|done]. rewrite Hsock, lookup_alter_ne; [done|].
    intros <-. destruct (sockets w !! sock) as [d|] eqn:Hd; [|done].
    simpl in Hv. unfold view in Hv. by rewrite (Hs d eq_refl) in Hv.
  - intros sid1 sid2 u1 u2 r1 r2 Hv1 Hv2 Hn.
    destruct (Hold _ _ _ Hv1) as [[-> ->]|[Hne1 Hw1]];
      destruct (Hold _ _ _ Hv2) as [[-> ->]|[Hne2 Hw2]]; try done.
    + by destruct (Hfree _ _ _ Hw2).
    + by destruct (Hfree _ _ _ Hw1).
    + by eapply H2.
  - intros sid usr r Hv. rewrite Hsvc. simpl.
    destruct (Hold _ _ _ Hv) as [[-> ->]|[Hne Hw]].
    + rewrite lookup_insert_eq. eauto.
    + destruct (H3 sid usr r Hw) as [x Hx].
      destruct (decide (user_name user = user_name usr)) as [Heq|Hneq].
      * rewrite Heq, lookup_insert_eq. eauto.
      * rewrite lookup_insert_ne by done. eauto.
  - intros sid d. rewrite Hauth, Hsock. intros Hin.
    destruct (decide (sock = sid)) as [<-|Hne]; [done|].
    rewrite lookup_alter_ne by done. by apply H4.
Qed.

Lemma handleConnection_resume_coherent (w : World SpecService.t) (sock : string)
    (found : option User) :
  (∀ d, sockets w !! sock = Some d → sock_user d = None) →
  sock ∉ pendingAuth w → coherent w →
  coherent (exec (RoomsGateway.handleConnection_resume sock found) w).
Proof.
  intros Hs Hna Hw. unfold exec, RoomsGateway.handleConnection_resume.
  destruct found as [user|].
  - rewrite (bind_return (ask _) _ w w _ eq_refl). cbv beta.
    destruct (RoomsService.isConnectedUser (user_name user) (svc w)) eqn:Hc.
    + rewrite emit_then. apply disconnect_coherent. by apply coherent_ext with w.
    + rewrite (bind_return (update sock (setUser user)) _ w _ () eq_refl). cbv beta.
      eapply (register_coherent w _ sock user Hs); try done.
      simpl in Hc. unfold SpecService.isConnectedUser in Hc.
      apply bool_decide_eq_false in Hc.
      destruct (SpecService.socketIds (svc w) !! user_name user) eqn:E; [|done].
      destruct Hc. eauto.
  - rewrite emit_then. apply disconnect_coherent. by apply coherent_ext with w.
Qed.

Lemma step_coherent (e : Event) (w : World SpecService.t) :
  coherent w → coherent (step e w).
Proof.
  intros Hw. destruct e as [sock tok v|sock found|sock|client m|h|h seed|i ps|i]; simpl.
  - case_bool_decide as Hin; [done|].
    apply handleConnection_coherent.
    + simpl. intros d. rewrite lookup_insert_eq. by intros [= <-].
    + apply coherent_fresh; [|done].
      apply not_elem_of_dom. intros Hd. apply Hin. by left.
  - case_bool_decide as Hin; [|done].
    apply handleConnection_resume_coherent.
    + simpl. intros d Hd. by apply (handshake_unbound w Hw sock d).
    + simpl. set_solver.
    + by apply coherent_less_auth.
  - by apply disconnect_coherent.
  - destruct (sockets w !! client); [|done].
    by apply deliver_coherent, dispatch_coherent.
  - destruct (timeouts (rt w) !! h) as [roomId|]; [|done].
    apply coherent_keeps; [apply countdownExpired_shrinks|].
    by apply coherent_ext with w.
  - destruct (intervals (rt w) !! h) as [roomId|]; [|done].
    by apply coherent_keeps; [apply createItem_shrinks|].
  - destruct (pendingStarts w !! i) as [roomId|]; [|done].
    apply coherent_keeps; [apply start_resume_shrinks|].
    by apply coherent_ext with w.
  - by apply coherent_ext with w.
Qed.

Lemma run_snoc {S : Type} `{!RoomsService.Ops S} (es : list Event) (e : Event)
    (w : World S) :
  run (es ++ [e]) w = step e (run es w).
Proof. unfold run. by rewrite foldl_app. Qed.

Lemma run_coherent (es : list Event) : coherent (run es genesis).
Proof.
  induction es as [|e es IH] using rev_ind; [apply coherent_genesis|].
  rewrite run_snoc. by apply step_coherent.
Qed.

Lemma joined_unique (w : World SpecService.t) (u r1 r2 : string) :
  coherent w → u ∈ joined r1 (svc w) → u ∈ joined r2 (svc w) → r1 = r2.
Proof.
  intros Hw Hin1 Hin2.
  destruct (member_bound w Hw r1 u Hin1) as (sid1 & usr1 & Hv1 & Hn1).
  destruct (member_bound w Hw r2 u Hin2) as (sid2 & usr2 & Hv2 & Hn2).
  assert (sid1 = sid2) as ->
    by (eapply (one_socket w Hw); [exact Hv1 | exact Hv2 | congruence]).
  rewrite Hv1 in Hv2. by injection Hv2.
Qed.

(** A successful [enterRoom] of the gateway is a successful [enterRoom] of
    the service, and nothing after it touches the service. *)
Lemma enterRoom_returns (w w' : World SpecService.t) (client : string) (d : Socket)
    (u : User) (roomId : option string) (a : Reply) :
  sockets w !! client = Some d → sock_user d = Some u →
  RoomsGateway.enterRoom client roomId w = (Return a, w') →
  SpecService.enterRoom roomId (sock_roomId d)
    (mkDto client (user_name u) false None ∅) (svc w) = inr (svc w').
Proof.
  intros Hs Hu. unfold RoomsGateway.enterRoom.
  bind_step (userOf_bound w client d u Hs Hu).
  bind_step (dataOf_present w client d Hs).
  destruct (SpecService.enterRoom roomId (sock_roomId d)
              (mkDto client (user_name u) false None ∅) (svc w)) as [e|s'] eqn:He.
  - rewrite (bind_throw _ _ w w e); [done|]. unfold tryTell. simpl. by rewrite He.
  - rewrite (bind_return _ _ w (setSvc s' w) ()); [|unfold tryTell; simpl; by rewrite He].
    cbv beta.
    rewrite (bind_return (join client roomId) _ (setSvc s' w) _ () eq_refl). cbv beta.
    rewrite (bind_return (update client (setRoomId roomId)) _ _ _ () eq_refl). cbv beta.
    gw_unfold. simpl.
    destruct (SpecService.getGameRoom roomId s'); [|done].
    by intros [= _ <-].
Qed.

(** C7.  After any sequence of events (connections, disconnects, inbound
    actions, among them enter, exit and kick, and timer and fetch
    completions) from the initial state: the member count the service
    reports for a room is the number of identities joined to it; no
    identity is joined to two rooms; and a successful [enter_room] leaves
    the identity joined to the room entered and to no other room, the
    Lobby included. *)
Theorem one_room_per_identity (es : list Event) :
  let w := run es genesis in
  (∀ roomId r, SpecService.roomList (svc w) !! roomId = Some r →
     RoomsService.roomUserCount (Some roomId) (svc w) =
       Some (size (joined roomId (svc w)))) ∧
  (∀ u r1 r2, u ∈ joined r1 (svc w) → u ∈ joined r2 (svc w) → r1 = r2) ∧
  (∀ client d u roomId a w',
     sockets w !! client = Some d → sock_user d = Some u →
     RoomsGateway.enterRoom client roomId w = (Return a, w') →
     ∃ x, roomId = Some x ∧ user_name u ∈ joined x (svc w') ∧
          ∀ r, r ≠ x → user_name u ∉ joined r (svc w')).
Proof.
  intros w. pose proof (run_coherent es) as Hw. fold w in Hw. clearbody w.
  split; [|split].
  - intros roomId r Hl. simpl. unfold SpecService.roomUserCount, joined. simpl.
    rewrite Hl. simpl. by rewrite size_dom.
  - intros u r1 r2. by apply joined_unique.
  - intros client d u roomId a w' Hs Hu He.
    pose proof (enterRoom_returns w w' client d u roomId a Hs Hu He) as Hsvc.
    destruct (enterRoom_member _ _ _ _ _ Hsvc) as (x & -> & Hin).
    exists x. split; [done|]. split; [done|].
    intros r Hne Hin'. apply Hne.
    assert (coherent w') as Hw'.
    { replace w' with (exec (RoomsGateway.enterRoom client (Some x)) w)
        by (unfold exec; by rewrite He).
      by apply enterRoom_coherent. }
    by apply (joined_unique w' (user_name u)).
Qed.

(** alice and bob have both left the lobby for their room. *)
Lemma one_room_per_identity_witness :
  RoomsService.roomUserCount (Some "room0") (svc (run two_in_room genesis)) = Some 2 ∧
  joined LOBBY_ID (svc (run two_in_room genesis)) = ∅.
Proof.
  assert (is_Some (SpecService.roomList (svc (run two_in_room genesis)) !! "room0"))
    as [r Hl] by (vm_compute; eauto).
  split.
  - rewrite (proj1 (one_room_per_identity two_in_room) "room0" r Hl).
    vm_compute. reflexivity.
  - vm_compute. reflexivity.
Defined.

(** *** Round starts *)

Lemma start_resume_keeps_pending roomId problems :
  keeps (frames any any any eq) (RoomsGateway.start_resume roomId problems).
Proof. unfold RoomsGateway.start_resume. keeps_auto. Qed.

Lemma deliver_fields {S : Type} `{!RoomsService.Ops S} (client : string)
    (m : Gw S Reply) (w : World S) :
  svc (deliver client m w) = svc (exec m w) ∧
  pendingStarts (deliver client m w) = pendingStarts (exec m w).
Proof. unfold deliver, exec. by destruct (m w) as [[a|e] w']. Qed.

(** Only [ready] schedules a round start. *)
Lemma pending_from (e : Event) (w : World SpecService.t) (r : option string) :
  (∀ client, e ≠ Message client MReady) →
  r ∈ pendingStarts (step e w) → r ∈ pendingStarts w.
Proof.
  intros Hne.
  destruct e as [sock tok v|sock found|sock|client m|h|h seed|i ps|i]; simpl;
    unfold exec.
  - case_bool_decide; [done|].
    by destruct (handleConnection_calm sock tok v
                   (setSockets (<[sock:=freshSocket]> (sockets w)) w)) as (_ & _ & _ & <-).
  - case_bool_decide; [|done].
    by destruct (handleConnection_resume_calm sock found
                   (setPendingAuth (pendingAuth w ∖ {[sock]}) w)) as (_ & _ & _ & <-).
  - by destruct (disconnect_calm sock w) as (_ & _ & _ & <-).
  - destruct (sockets w !! client); [|done].
    rewrite (proj2 (deliver_fields client _ w)). unfold exec.
    assert (m ≠ MReady) as Hm by (intros ->; by destruct (Hne client)).
    by destruct (dispatch_calm client m Hm w) as (_ & _ & _ & <-).
  - destruct (timeouts (rt w) !! h) as [roomId|]; [|done].
    by destruct (countdownExpired_calm roomId
                   (setRt (mkRuntime (delete h (timeouts (rt w))) (intervals (rt w))
                             (nextHandle (rt w))) w)) as (_ & _ & _ & <-).
  - destruct (intervals (rt w) !! h) as [roomId|]; [|done].
    by destruct (createItem_calm roomId seed w) as (_ & _ & _ & <-).
  - destruct (pendingStarts w !! i) as [roomId|]; [|done].
    destruct (start_resume_keeps_pending roomId ps
                (setPendingStarts (delete i (pendingStarts w)) w)) as (_ & _ & _ & <-).
    simpl. apply list_elem_of_delete_inv.
  - apply list_elem_of_delete_inv.
Qed.

(** What a [ready] message leaves behind. *)
Lemma ready_pending (client : string) (w : World SpecService.t) (r : option string) :
  let w' := step (Message client MReady) w in
  r ∈ pendingStarts w' →
  r ∈ pendingStarts w ∨ SpecService.allUserReady r (svc w') = true.
Proof.
  simpl. destruct (sockets w !! client) as [d|] eqn:Hs; [|by left].
  destruct (deliver_fields client (RoomsGateway.ready client) w) as [-> ->].
  destruct (sock_user d) as [u|] eqn:Hu.
  - destruct (RoomsService.switchReady (sock_roomId d) (user_name u) (svc w))
      as [e|[b s']] eqn:Hr.
    + unfold exec. rewrite (ready_not_a_member w client d u e Hs Hu Hr). by left.
    + destruct (ready_schedules_start w client d u b s' Hs Hu Hr) as (-> & _ & _ & ->).
      simpl. destruct (SpecService.allUserReady (sock_roomId d) s') eqn:Ha.
      * intros [Hin|Hin]%elem_of_app; [by left|].
        apply list_elem_of_singleton in Hin as ->. by right.
      * rewrite app_nil_r. by left.
  - unfold exec, RoomsGateway.ready.
    rewrite (bind_return _ _ _ _ _ (dataOf_present w client d Hs)). cbv beta zeta.
    rewrite (bind_throw _ _ _ _ _ (userOf_unbound w client d Hs Hu)). by left.
Qed.

Lemma scheduled_by_ready_snoc (es : list Event) (e : Event) (r : option string) :
  scheduled_by_ready es r → scheduled_by_ready (es ++ [e]) r.
Proof.
  intros (es1 & client & es2 & -> & Ha).
  exists es1, client, (es2 ++ [e]). split; [|done].
  by rewrite <- app_assoc.
Qed.

Lemma pending_scheduled (es : list Event) (r : option string) :
  r ∈ pendingStarts (run es genesis) → scheduled_by_ready es r.
Proof.
  revert r. induction es as [|e es IH] using rev_ind; intros r.
  - simpl. by intros ?%elem_of_nil.
  - rewrite run_snoc. intros Hin.
    assert ((∃ client, e = Message client MReady) ∨
            (∀ client, e ≠ Message client MReady)) as [[client ->]|Hne].
    { destruct e as [| | |client m| | | |]; try (by right).
      destruct (decide (m = MReady)) as [->|Hm]; [left; eauto|].
      right. by intros c [= _ ?]. }
    + destruct (ready_pending client (run es genesis) r Hin) as [Hold|Ha].
      * by apply scheduled_by_ready_snoc, IH.
      * exists es, client, []. split; [done|]. by rewrite run_snoc.
    + apply scheduled_by_ready_snoc, IH. by apply (pending_from e).
Qed.

(** No event but the arrival of problems puts a room in [playing]. *)
Lemma step_no_new_round (e : Event) (w : World SpecService.t) :
  (∀ i problems, e ≠ ProblemsFetched i problems) →
  no_new_round (svc w) (svc (step e w)).
Proof.
  intros Hne.
  destruct e as [sock tok v|sock found|sock|client m|h|h seed|i ps|i]; simpl;
    unfold exec.
  - case_bool_decide; [done|].
    by destruct (handleConnection_calm sock tok v
                   (setSockets (<[sock:=freshSocket]> (sockets w)) w)) as (? & _).
  - case_bool_decide; [|done].
    by destruct (handleConnection_resume_calm sock found
                   (setPendingAuth (pendingAuth w ∖ {[sock]}) w)) as (? & _).
  - by destruct (disconnect_calm sock w) as (? & _).
  - destruct (sockets w !! client); [|done].
    rewrite (proj1 (deliver_fields client _ w)). unfold exec.
    destruct (decide (m = MReady)) as [->|Hm].
    + by destruct (ready_starts_no_round client w) as (? & _).
    + by destruct (dispatch_calm client m Hm w) as (? & _).
  - destruct (timeouts (rt w) !! h) as [roomId|]; [|done].
    by destruct (countdownExpired_calm roomId
                   (setRt (mkRuntime (delete h (timeouts (rt w))) (intervals (rt w))
                             (nextHandle (rt w))) w)) as (? & _).
  - destruct (intervals (rt w) !! h) as [roomId|]; [|done].
    by destruct (createItem_calm roomId seed w) as (? & _).
  - by destruct (Hne i ps).
  - done.
Qed.

Lemma changeRoomState_round (r0 : option string) (s s' : SpecService.t)
    (roomId : string) :
  SpecService.changeRoomState r0 playing s = inr s' →
  plays roomId s' → plays roomId s ∨ r0 = Some roomId.
Proof.
  unfold SpecService.changeRoomState.
  destruct (SpecService.lookupRoom r0 s) as [r|]; [|done].
  destruct (state r); try done. intros [= <-].
  destruct r0 as [x|]; [|by left]. unfold plays. simpl.
  destruct (decide (x = roomId)) as [->|Hne]; [by right|].
  rewrite lookup_alter_ne by done. by left.
Qed.

Lemma changeRoomState_waiting (roomId : string) (r : Room) (s : SpecService.t) :
  SpecService.roomList s !! roomId = Some r → state r = waiting →
  ∃ s', SpecService.changeRoomState (Some roomId) playing s = inr s' ∧
        plays roomId s'.
Proof.
  intros Hl Hst. unfold SpecService.changeRoomState. simpl. rewrite Hl, Hst.
  eexists. split; [done|]. unfold plays. simpl. by rewrite lookup_alter_eq, Hl.
Qed.

Lemma start_resume_svc (r0 : option string) (problems : list string)
    (w : World SpecService.t) :
  let w' := exec (RoomsGateway.start_resume r0 problems) w in
  match SpecService.changeRoomState r0 playing (svc w) with
  | inr s' => svc w' = SpecService.setItemCreator r0 (nextHandle (rt w)) s'
  | inl _ => svc w' = svc w
  end.
Proof.
  unfold RoomsGateway.start_resume. gw_unfold. simpl.
  by destruct (SpecService.changeRoomState r0 playing (svc w)).
Qed.

Lemma all_ready_members (roomId : string) (s : SpecService.t) :
  SpecService.allUserReady (Some roomId) s = true →
  ∃ r, SpecService.roomList s !! roomId = Some r ∧
       ∀ u m, userList r !! u = Some m → ready m = true.
Proof.
  unfold SpecService.allUserReady. simpl.
  destruct (SpecService.roomList s !! roomId) as [r|]; [|done].
  intros Ha%bool_decide_eq_true. exists r. split; [done|].
  intros u m. apply Ha.
Qed.

(** C5, counterexamples.  alice alone in her room toggles ready: every
    member is ready, the start is scheduled and its completion puts the room
    in [playing] with one member.  And with two members: alice and bob are
    ready, the start is waiting for its problems, bob takes his ready back;
    when the problems arrive the room is put in [playing] although, at the
    last ready toggle, not every member was ready. *)
Lemma round_start_counterexample :
  (let w := run solo_ready genesis in
   roomState "room0" w = Some waiting ∧
   roomState "room0" (step (ProblemsFetched 0 ["p1"]) w) = Some playing ∧
   SpecService.allUserReady (Some "room0") (svc w) = true ∧
   size (joined "room0" (svc w)) = 1) ∧
  (let w := run ready_taken_back genesis in
   roomState "room0" w = Some waiting ∧
   roomState "room0" (step (ProblemsFetched 0 ["p1"]) w) = Some playing ∧
   SpecService.allUserReady (Some "room0") (svc w) = false) ∧
  ¬ starts_only_if_at solo_ready (ProblemsFetched 0 ["p1"]) "room0" ∧
  ¬ starts_only_if_at ready_taken_back (ProblemsFetched 0 ["p1"]) "room0".
Proof.
  split; [vm_compute; repeat split; reflexivity|].
  split; [vm_compute; repeat split; reflexivity|].
  split.
  - intros H. destruct H as [_ H]; [vm_compute; reflexivity ..|].
    vm_compute in H. lia.
  - intros H. destruct H as [H _]; [vm_compute; reflexivity ..|].
    vm_compute in H. discriminate.
Qed.

(** C5, amended.  A room is put in [playing] only by the arrival of the
    problems of a round start, and that start was scheduled by a ready
    toggle right after which every member of the room was ready; no minimum
    number of members is asked for, and what happens while the problems are
    being fetched does not cancel the start.  Conversely a ready toggle
    after which the service reports every member ready schedules a start,
    and the arrival of its problems puts a room that is still waiting in
    [playing]. *)
Theorem round_starts_after_all_ready (es : list Event) :
  let w := run es genesis in
  (∀ e roomId,
     ¬ plays roomId (svc w) → plays roomId (svc (step e w)) →
     ∃ i problems es1 client es2,
       e = ProblemsFetched i problems ∧
       pendingStarts w !! i = Some (Some roomId) ∧
       es = es1 ++ Message client MReady :: es2 ∧
       ∃ r, SpecService.roomList
              (svc (run (es1 ++ [Message client MReady]) genesis)) !! roomId = Some r ∧
            ∀ u m, userList r !! u = Some m → ready m = true) ∧
  (∀ client d u b s',
     sockets w !! client = Some d → sock_user d = Some u →
     SpecService.switchReady (sock_roomId d) (user_name u) (svc w) = inr (b, s') →
     SpecService.allUserReady (sock_roomId d) s' = true →
     pendingStarts (step (Message client MReady) w) =
       pendingStarts w ++ [sock_roomId d]) ∧
  (∀ i problems roomId,
     pendingStarts w !! i = Some (Some roomId) →
     roomState roomId w = Some waiting →
     roomState roomId (step (ProblemsFetched i problems) w) = Some playing).
Proof.
  intros w. split; [|split].
  - intros e roomId Hnot Hplays.
    assert (∃ i problems, e = ProblemsFetched i problems) as (i & problems & ->).
    { destruct e as [| | | | | |i ps|]; try (by eauto);
        (exfalso; apply Hnot;
         by (eapply (step_no_new_round _ w); [|exact Hplays])). }
    simpl in Hplays.
    destruct (pendingStarts w !! i) as [r0|] eqn:Hi; [|done].
    assert (r0 = Some roomId) as ->.
    { pose proof (start_resume_svc r0 problems
                    (setPendingStarts (delete i (pendingStarts w)) w)) as Hsvc.
      cbv zeta in Hsvc. simpl in Hsvc.
      destruct (SpecService.changeRoomState r0 playing (svc w)) as [e|s'] eqn:Hc.
      - rewrite Hsvc in Hplays. by destruct Hnot.
      - rewrite Hsvc in Hplays. apply setItemCreator_no_new_round in Hplays.
        destruct (changeRoomState_round r0 (svc w) s' roomId Hc Hplays); [|done].
        by destruct Hnot. }
    assert (Some roomId ∈ pendingStarts w) as Hin
      by (apply list_elem_of_lookup; eauto).
    destruct (pending_scheduled es (Some roomId) Hin) as (es1 & client & es2 & Hes & Ha).
    exists i, problems, es1, client, es2. repeat split; try done.
    by apply all_ready_members.
  - intros client d u b s' Hs Hu Hr Ha. simpl. rewrite Hs.
    rewrite (proj2 (deliver_fields client _ w)).
    destruct (@ready_schedules_start SpecService.t SpecService.ops
                w client d u b s' Hs Hu Hr) as (_ & _ & _ & ->).
    simpl. by rewrite Ha.
  - intros i problems roomId Hi Hw. simpl. rewrite Hi.
    unfold roomState in *.
    destruct (SpecService.roomList (svc w) !! roomId) as [r|] eqn:Hl; [|done].
    injection Hw as Hst.
    destruct (changeRoomState_waiting roomId r (svc w) Hl Hst) as (s' & Hc & Hp).
    pose proof (start_resume_svc (Some roomId) problems
                  (setPendingStarts (delete i (pendingStarts w)) w)) as Hsvc.
    cbv zeta in Hsvc. simpl in Hsvc. rewrite Hc in Hsvc. rewrite Hsvc.
    unfold plays in Hp. simpl.
    rewrite lookup_alter_eq.
    destruct (SpecService.roomList s' !! roomId) as [r'|]; [|done].
    simpl in *. done.
Qed.

(** The round of alice and bob starts when the problems arrive, and the
    start goes back to a ready toggle that left both ready. *)
Lemma round_starts_witness :
  roomState "room0" (run two_playing genesis) = Some playing ∧
  ∃ i problems es1 client es2,
    ProblemsFetched 0 ["p1"] = ProblemsFetched i problems ∧
    pendingStarts (run (two_in_room ++ [Message "sA" MReady; Message "sB" MReady])
                     genesis) !! i = Some (Some "room0") ∧
    two_in_room ++ [Message "sA" MReady; Message "sB" MReady] =
      es1 ++ Message client MReady :: es2 ∧
    ∃ r, SpecService.roomList
           (svc (run (es1 ++ [Message client MReady]) genesis)) !! "room0" = Some r ∧
         ∀ u m, userList r !! u = Some m → ready m = true.
Proof.
  split; [vm_compute; reflexivity|].
  apply (proj1 (round_starts_after_all_ready
                  (two_in_room ++ [Message "sA" MReady; Message "sB" MReady]))
           (ProblemsFetched 0 ["p1"]) "room0").
  - intros H. vm_compute in H. discriminate.
  - vm_compute. reflexivity.
Defined.

(** *** Failing actions *)

#[global] Instance keeps_ids_fresh_preorder : PreOrder keeps_ids_fresh.
Proof.
  split; [by intros s Hs|]. intros s1 s2 s3 H12 H23 Hs. by apply H23, H12.
Qed.

Lemma fresh_of_dom (s s' : SpecService.t) :
  SpecService.nextRoom s' = SpecService.nextRoom s →
  dom (SpecService.roomList s') ⊆ dom (SpecService.roomList s) →
  keeps_ids_fresh s s'.
Proof.
  intros Hn Hd Hs k Hk. rewrite Hn in Hk. specialize (Hs k Hk).
  apply not_elem_of_dom. apply not_elem_of_dom in Hs. set_solver.
Qed.

Lemma alterRoom_fresh (f : Room → Room) (o : option string) (s : SpecService.t) :
  keeps_ids_fresh s (SpecService.alterRoom f o s).
Proof.
  apply fresh_of_dom; destruct o as [x|]; try done. simpl. by rewrite dom_alter_L.
Qed.

Lemma exitRoom_fresh (roomId : option string) (u : string) (r : Runtime)
    (s : SpecService.t) :
  keeps_ids_fresh s (RoomsService.exitRoom roomId u r s).2.
Proof.
  change (keeps_ids_fresh s (SpecService.exitRoom roomId u r s).2).
  unfold SpecService.exitRoom.
  destruct roomId as [x|]; [|reflexivity].
  destruct (SpecService.roomList s !! x) as [r0|] eqn:E; [|reflexivity].
  assert (x ∈ dom (SpecService.roomList s)) as Hx by (apply elem_of_dom; eauto).
  repeat case_bool_decide; simpl; apply fresh_of_dom; simpl; try done;
    rewrite ?dom_insert_L, ?dom_delete_L; set_solver.
Qed.

Lemma kick_fresh (roomId : option string) (u target : string) (r : Runtime)
    (s : SpecService.t) :
  keeps_ids_fresh s (RoomsService.kick roomId u target r s).2.
Proof.
  change (keeps_ids_fresh s (SpecService.kick roomId u target r s).2).
  unfold SpecService.kick.
  destruct (SpecService.lookupRoom roomId s) as [r0|]; [|reflexivity].
  destruct (userList r0 !! target); [|reflexivity].
  destruct (userList r0 !! u); [|reflexivity].
  case_bool_decide; simpl; apply alterRoom_fresh.
Qed.

Lemma room_id_inj (k n : nat) : "room" +:+ pretty k = "room" +:+ pretty n → k = n.
Proof. intros Heq. by apply (inj pretty), (inj (String.app "room")). Qed.

Lemma createRoom_fresh (name : string) (c : nat) (s : SpecService.t) :
  keeps_ids_fresh s (RoomsService.createRoom name c s).2.
Proof.
  change (keeps_ids_fresh s (SpecService.createRoom name c s).2).
  unfold SpecService.createRoom. simpl. intros Hs k Hk. simpl in *.
  rewrite lookup_insert_ne; [apply Hs; lia|].
  intros Heq%room_id_inj. lia.
Qed.

Lemma useItem_fresh (roomId : option string) (u item : string) (s : SpecService.t) :
  keeps_ids_fresh s (RoomsService.useItem roomId u item s).2.
Proof.
  change (keeps_ids_fresh s (SpecService.useItem roomId u item s).2).
  unfold SpecService.useItem.
  destruct (SpecService.member roomId u s) as [m|]; [|reflexivity].
  destruct (itemList m !! item) as [[|n]|]; try reflexivity.
  simpl. apply alterRoom_fresh.
Qed.

Lemma assignItem_fresh (roomId : option string) (u : string) (seed : nat)
    (s : SpecService.t) :
  keeps_ids_fresh s (RoomsService.assignItem roomId u seed s).2.
Proof.
  change (keeps_ids_fresh s (SpecService.assignItem roomId u seed s).2).
  simpl. apply alterRoom_fresh.
Qed.

Lemma switchReady_fresh (roomId : option string) (u : string) (s s' : SpecService.t)
    (b : bool) :
  RoomsService.switchReady roomId u s = inr (b, s') → keeps_ids_fresh s s'.
Proof.
  change (SpecService.switchReady roomId u s = inr (b, s') → keeps_ids_fresh s s').
  unfold SpecService.switchReady.
  destruct (SpecService.member roomId u s) as [m|]; [|done].
  intros [= _ <-]. apply alterRoom_fresh.
Qed.

Lemma setTimer_fresh (roomId : option string) (h : nat) (s : SpecService.t) :
  keeps_ids_fresh s (RoomsService.setTimer roomId h s).
Proof. apply alterRoom_fresh. Qed.

Lemma setItemCreator_fresh (roomId : option string) (h : nat) (s : SpecService.t) :
  keeps_ids_fresh s (RoomsService.setItemCreator roomId h s).
Proof. apply alterRoom_fresh. Qed.

Lemma gameOver_fresh (roomId : option string) (r : Runtime) (s : SpecService.t) :
  keeps_ids_fresh s (RoomsService.gameOver roomId r s).2.
Proof.
  change (keeps_ids_fresh s (SpecService.gameOver roomId r s).2).
  unfold SpecService.gameOver.
  destruct (SpecService.lookupRoom roomId s); [|reflexivity].
  apply alterRoom_fresh.
Qed.

Lemma changeRoomState_fresh (roomId : option string) (st : RoomState)
    (s s' : SpecService.t) :
  RoomsService.changeRoomState roomId st s = inr s' → keeps_ids_fresh s s'.
Proof.
  change (SpecService.changeRoomState roomId st s = inr s' → keeps_ids_fresh s s').
  unfold SpecService.changeRoomState.
  destruct (SpecService.lookupRoom roomId s) as [r|]; [|done].
  destruct (state r), st; try done; intros [= <-]; apply alterRoom_fresh.
Qed.

Lemma enterRoom_fresh (roomId prev : option string) (u : RoomsUserDto)
    (s s' : SpecService.t) :
  RoomsService.enterRoom roomId prev u s = inr s' → keeps_ids_fresh s s'.
Proof.
  change (SpecService.enterRoom roomId prev u s = inr s' → keeps_ids_fresh s s').
  unfold SpecService.enterRoom.
  destruct (SpecService.lookupRoom roomId s) as [r|]; [|done].
  destruct (SpecService.full r); [done|]. intros [= <-].
  etrans; apply alterRoom_fresh.
Qed.

Lemma registerSocketId_fresh (u sid : string) (s : SpecService.t) :
  keeps_ids_fresh s (RoomsService.registerSocketId u sid s).
Proof. by intros Hs. Qed.

Lemma deleteSocketId_fresh (u : string) (s : SpecService.t) :
  keeps_ids_fresh s (RoomsService.deleteSocketId u s).
Proof. by intros Hs. Qed.

#[local] Hint Resolve exitRoom_fresh kick_fresh createRoom_fresh useItem_fresh
  assignItem_fresh switchReady_fresh setTimer_fresh setItemCreator_fresh gameOver_fresh
  changeRoomState_fresh enterRoom_fresh registerSocketId_fresh deleteSocketId_fresh
  : rooms.

(** Every unit of work keeps the unused ids unused. *)

Lemma handleDisconnect_fresh socket :
  keeps (frames keeps_ids_fresh any any any) (RoomsGateway.handleDisconnect socket).
Proof. unfold RoomsGateway.handleDisconnect. keeps_auto. Qed.

Lemma disconnect_fresh socket :
  keeps (frames keeps_ids_fresh any any any) (RoomsGateway.disconnect socket).
Proof.
  unfold RoomsGateway.disconnect. keeps_auto; try apply handleDisconnect_fresh.
Qed.

Lemma handleConnection_fresh socket rawToken verified :
  keeps (frames keeps_ids_fresh any any any)
    (RoomsGateway.handleConnection socket rawToken verified).
Proof.
  unfold RoomsGateway.handleConnection. keeps_auto; try apply disconnect_fresh.
Qed.

Lemma handleConnection_resume_fresh socket found :
  keeps (frames keeps_ids_fresh any any any)
    (RoomsGateway.handleConnection_resume socket found).
Proof.
  unfold RoomsGateway.handleConnection_resume. keeps_auto; try apply disconnect_fresh.
Qed.

Lemma countdownExpired_fresh roomId :
  keeps (frames keeps_ids_fresh any any any) (RoomsGateway.countdownExpired roomId).
Proof. unfold RoomsGateway.countdownExpired. keeps_auto. Qed.

Lemma createItem_each_fresh roomId seed l :
  keeps (frames keeps_ids_fresh any any any) (RoomsGateway.createItem_each roomId seed l).
Proof.
  revert seed. induction l as [|sid l IH]; intros seed;
    cbn [RoomsGateway.createItem_each]; keeps_auto.
Qed.

Lemma createItem_fresh roomId seed :
  keeps (frames keeps_ids_fresh any any any) (RoomsGateway.createItem roomId seed).
Proof. unfold RoomsGateway.createItem. keeps_auto; try apply createItem_each_fresh. Qed.

Lemma start_resume_fresh roomId problems :
  keeps (frames keeps_ids_fresh any any any) (RoomsGateway.start_resume roomId problems).
Proof. unfold RoomsGateway.start_resume. keeps_auto. Qed.

Lemma dispatch_fresh client m :
  keeps (frames keeps_ids_fresh any any any) (RoomsGateway.dispatch client m).
Proof.
  destruct m; cbn [RoomsGateway.dispatch];
    unfold RoomsGateway.lobbyInfo, RoomsGateway.roomInfo, RoomsGateway.enterLobby,
      RoomsGateway.exitLobby, RoomsGateway.createRoom, RoomsGateway.enterRoom,
      RoomsGateway.exitRoom, RoomsGateway.chat, RoomsGateway.dm, RoomsGateway.ready,
      RoomsGateway.start, RoomsGateway.kick, RoomsGateway.useItem, RoomsGateway.pass,
      RoomsGateway.exitResult, RoomsGateway.invite, join, leave;
    keeps_auto.
Qed.

Lemma step_ids_fresh (e : Event) (w : World SpecService.t) :
  ids_fresh (svc w) → ids_fresh (svc (step e w)).
Proof.
  intros Hw.
  destruct e as [sock tok v|sock found|sock|client m|h|h seed|i ps|i]; cbn [step];
    unfold exec.
  - case_bool_decide; [done|].
    by destruct (handleConnection_fresh sock tok v
                   (setSockets (<[sock:=freshSocket]> (sockets w)) w)) as (Hf & _);
      apply Hf.
  - case_bool_decide; [|done].
    by destruct (handleConnection_resume_fresh sock found
                   (setPendingAuth (pendingAuth w ∖ {[sock]}) w)) as (Hf & _);
      apply Hf.
  - by destruct (disconnect_fresh sock w) as (Hf & _); apply Hf.
  - destruct (sockets w !! client); [|done].
    rewrite (proj1 (deliver_fields client _ w)). unfold exec.
    by destruct (dispatch_fresh client m w) as (Hf & _); apply Hf.
  - destruct (timeouts (rt w) !! h) as [roomId|]; [|done].
    by destruct (countdownExpired_fresh roomId
                   (setRt (mkRuntime (delete h (timeouts (rt w))) (intervals (rt w))
                             (nextHandle (rt w))) w)) as (Hf & _);
      apply Hf.
  - destruct (intervals (rt w) !! h) as [roomId|]; [|done].
    by destruct (createItem_fresh roomId seed w) as (Hf & _); apply Hf.
  - destruct (pendingStarts w !! i) as [roomId|]; [|done].
    by destruct (start_resume_fresh roomId ps
                   (setPendingStarts (delete i (pendingStarts w)) w)) as (Hf & _);
      apply Hf.
  - done.
Qed.

Lemma run_ids_fresh (es : list Event) : ids_fresh (svc (run es genesis)).
Proof.
  induction es as [|e es IH] using rev_ind.
  - intros k _. cbn. rewrite lookup_insert_ne; [apply lookup_empty|].
    intros Heq. unfold LOBBY_ID in Heq. simpl in Heq. discriminate.
  - rewrite run_snoc. by apply step_ids_fresh.
Qed.

(** A room entered is in the directory. *)
Lemma enterRoom_room_exists (roomId prev : option string) (u : RoomsUserDto)
    (s s' : SpecService.t) :
  RoomsService.enterRoom roomId prev u s = inr s' →
  RoomsService.getGameRoom roomId s' = None → False.
Proof.
  change (SpecService.enterRoom roomId prev u s = inr s' →
          SpecService.getGameRoom roomId s' = None → False).
  unfold SpecService.enterRoom, SpecService.getGameRoom.
  destruct (SpecService.lookupRoom roomId s) as [r|] eqn:Hl; [|done].
  destruct (SpecService.full r); [done|]. intros [= <-].
  destruct roomId as [x|]; [|done]. simpl in *.
  rewrite lookup_alter_eq.
  destruct prev as [y|]; simpl; [|by rewrite Hl].
  destruct (decide (y = x)) as [->|Hne].
  - by rewrite lookup_alter_eq, Hl.
  - by rewrite lookup_alter_ne, Hl.
Qed.

Lemma createRoom_other_rooms (name : string) (c : nat) (s : SpecService.t)
    (x : string) (r : Room) :
  ids_fresh s → SpecService.roomList s !! x = Some r →
  SpecService.roomList (RoomsService.createRoom name c s).2 !! x = Some r.
Proof.
  intros Hs Hx. simpl. rewrite lookup_insert_ne; [done|].
  intros <-. by rewrite (Hs (SpecService.nextRoom s)) in Hx.
Qed.

Lemma kick_other_rooms (roomId : option string) (u target : string) (t : Runtime)
    (s : SpecService.t) (x : string) :
  roomId ≠ Some x →
  SpecService.roomList (RoomsService.kick roomId u target t s).2 !! x =
    SpecService.roomList s !! x.
Proof.
  intros Hne.
  change (SpecService.roomList (SpecService.kick roomId u target t s).2 !! x =
          SpecService.roomList s !! x).
  unfold SpecService.kick.
  destruct (SpecService.lookupRoom roomId s) as [r0|]; [|done].
  destruct (userList r0 !! target); [|done].
  destruct (userList r0 !! u); [|done].
  destruct roomId as [y|]; [|by case_bool_decide].
  case_bool_decide; simpl; rewrite lookup_alter_ne; congruence.
Qed.

(** A handler that throws has emitted nothing, and what it has done to the
    service is nothing, or the [createRoom] of line 161, or the [kick] of
    line 268. *)
Ltac throw_step Hs :=
  first
    [ rewrite Hs
    | progress cbn
    | match goal with
      | |- (Throw _, _) = (Throw _, _) → _ => intros [= <- <-]
      | |- (Return _, _) = (Throw _, _) → _ => discriminate
      | |- context [match ?x with _ => _ end] =>
        lazymatch x with
        | context [match _ with _ => _ end] => fail
        | _ => destruct x eqn:?
        end
      end ].

Lemma throw_leaves (w w1 : World SpecService.t) (client : string) (d : Socket)
    (m : Msg) (e : ErrorKind) :
  sockets w !! client = Some d →
  RoomsGateway.dispatch client m w = (Throw e, w1) →
  outbox w1 = outbox w ∧
  (svc w1 = svc w ∨
   (∃ name c, svc w1 = (RoomsService.createRoom name c (svc w)).2) ∨
   (∃ u target,
      svc w1 = (RoomsService.kick (sock_roomId d) u target (rt w) (svc w)).2)).
Proof.
  intros Hs.
  destruct m as [|roomId| | |roomName capacity|roomId| |message|userName message|
                 |userName|item| | |userName]; cbn [RoomsGateway.dispatch];
    unfold RoomsGateway.lobbyInfo, RoomsGateway.roomInfo, RoomsGateway.enterLobby,
      RoomsGateway.exitLobby, RoomsGateway.createRoom, RoomsGateway.enterRoom,
      RoomsGateway.exitRoom, RoomsGateway.chat, RoomsGateway.dm, RoomsGateway.ready,
      RoomsGateway.start, RoomsGateway.kick, RoomsGateway.useItem, RoomsGateway.pass,
      RoomsGateway.exitResult, RoomsGateway.invite;
    gw_unfold; repeat throw_step Hs;
    try (split; [reflexivity | left; reflexivity]);
    try (split; [reflexivity | right; left; eexists _, _; reflexivity]);
    try (split; [reflexivity | right; right;
                 match goal with
                 | H : SpecService.kick _ ?u ?t _ _ = _ |- _ => exists u, t; by rewrite H
                 end]);
    try (exfalso; eapply enterRoom_room_exists; eassumption).
Qed.

(** C9, amended.  In every reachable state, a failure leaves every room
    that was there, other than the one the acting connection names, in the
    state it was in (a [create_room] that fails after line 161 has added
    its room), and how the status travels depends on how the handler
    fails.  A handler that throws (an error of the service such as
    RoomNotFound, RoomFull or NotAMember, or a TypeError; every failure but
    that of [useItem]) has emitted nothing, and the status is delivered to
    the acting connection alone; the status of [dm] is returned to its
    caller and is in no event.  A failing [useItem] (ItemNotOwned,
    NotAMember) changes nothing and returns nothing to the acting
    connection: its status is emitted, in the [item] event, to the other
    connections in the channel of the room the acting connection names
    (the Lobby's, when that is the one it names), and to nobody else. *)
Theorem failure_reaches_the_actor_or_the_item_channel (es : list Event)
    (client : string) (d : Socket) (m : Msg) :
  let w := run es genesis in
  let w' := step (Message client m) w in
  sockets w !! client = Some d →
  (∀ e w1, RoomsGateway.dispatch client m w = (Throw e, w1) →
     outbox w1 = outbox w ∧
     outbox w' = outbox w ++ [exception_for client e] ∧
     ∀ x r, SpecService.roomList (svc w) !! x = Some r → sock_roomId d ≠ Some x →
            SpecService.roomList (svc w') !! x = Some r) ∧
  (∀ userName message u, m = MDm userName message → sock_user d = Some u →
     ∃ to,
       RoomsGateway.dispatch client m w =
         (Return (Ack [("status", VStatus (RoomsService.dm (user_name u) (svc w)))]),
          setOutbox
            (outbox w ++
               [mkEmit to "user_dm"
                  [("userName", VStr (user_name u)); ("message", VStr message)]]) w)) ∧
  (∀ item u e, m = MItem item → sock_user d = Some u →
     (SpecService.useItem (sock_roomId d) (user_name u) item (svc w)).1 = Failed e →
     outcome (RoomsGateway.dispatch client m) w = Return NoReply ∧
     svc w' = svc w ∧
     outbox w' = outbox w ++
       [mkEmit (RoomExcept (sock_roomId d) client) "item"
          [("status", VStatus (Failed e)); ("userName", VStr (user_name u));
           ("item", VStr item)]] ∧
     recipients (RoomExcept (sock_roomId d) client) w' =
       members (sock_roomId d) w ∖ {[client]}).
Proof.
  intros w w' Hs.
  pose proof (run_ids_fresh es) as Hfresh. fold w in Hfresh.
  assert (w' = deliver client (RoomsGateway.dispatch client m) w) as Hw'
    by (unfold w'; cbn [step]; by rewrite Hs).
  clearbody w w'. subst w'. split; [|split].
  - intros e w1 Hd.
    destruct (throw_leaves w w1 client d m e Hs Hd) as (Ho & Hsvc).
    unfold deliver. rewrite Hd. split; [done|]. split.
    { cbn. by rewrite Ho. }
    intros x r Hx Hne. cbn.
    destruct Hsvc as [->|[(name & c & ->)|(u & target & ->)]].
    + done.
    + by apply createRoom_other_rooms.
    + rewrite kick_other_rooms; done.
  - intros userName message u -> Hu. eexists. cbn [RoomsGateway.dispatch].
    unfold RoomsGateway.dm. gw_unfold. cbn. rewrite Hs, Hu. reflexivity.
  - intros item u e -> Hu He. cbn [RoomsGateway.dispatch].
    unfold outcome, deliver.
    rewrite (useItem_emits_status w client item d u Hs Hu). cbv zeta.
    change (RoomsService.useItem (sock_roomId d) (user_name u) item (svc w))
      with (SpecService.useItem (sock_roomId d) (user_name u) item (svc w)).
    rewrite He, (useItem_failure_keeps_state _ _ _ _ _ He).
    split; [done|]. split; [done|]. split; [done|].
    destruct (sock_roomId d); reflexivity.
Qed.

(** alice, in her round with bob, tries to enter a room that does not
    exist, and uses a bomb she does not own. *)
Lemma failure_witness :
  let w := run two_playing genesis in
  outbox (step (Message "sA" (MEnterRoom (Some "room7"))) w) =
    outbox w ++ [exception_for "sA" RoomNotFound] ∧
  recipients (RoomExcept (Some "room0") "sA") (step (Message "sA" (MItem "bomb")) w) =
    {["sB"]}.
Proof.
  cbv zeta.
  assert (sockets (run two_playing genesis) !! "sA" = Some (socket_in_room alice)) as Hs
    by (vm_compute; reflexivity).
  split.
  - destruct (failure_reaches_the_actor_or_the_item_channel two_playing "sA"
                (socket_in_room alice) (MEnterRoom (Some "room7")) Hs) as (H1 & _).
    destruct (H1 RoomNotFound (run two_playing genesis)) as (_ & H2 & _);
      [vm_compute; reflexivity | exact H2].
  - destruct (failure_reaches_the_actor_or_the_item_channel two_playing "sA"
                (socket_in_room alice) (MItem "bomb") Hs) as (_ & _ & H3).
    destruct (H3 "bomb" alice ItemNotOwned eq_refl eq_refl) as (_ & _ & _ & H4);
      [vm_compute; reflexivity|].
    etrans; [exact H4|]. vm_compute. reflexivity.
Defined.

(** ** Further properties of the handlers

    What the handlers of rooms.gateway.ts do at their edges, for any
    service. *)

Section Handshake.
Context {S : Type} `{!RoomsService.Ops S}.

Lemma world_eq (w1 w2 : World S) :
  svc w1 = svc w2 → sockets w1 = sockets w2 → rt w1 = rt w2 →
  pendingAuth w1 = pendingAuth w2 → pendingStarts w1 = pendingStarts w2 →
  outbox w1 = outbox w2 → w1 = w2.
Proof. destruct w1, w2. simpl. by intros -> -> -> -> -> ->. Qed.

Lemma socket_unused (w : World S) (sock : string) :
  sockets w !! sock = None → sock ∉ pendingAuth w →
  ¬ (sock ∈ dom (sockets w) ∨ sock ∈ pendingAuth w).
Proof.
  intros Hs Hp [Hin|Hin]; [|done].
  apply elem_of_dom in Hin. rewrite Hs in Hin. by apply is_Some_None in Hin.
Qed.

(** Telling an unbound socket something and dropping it. *)
Lemma emit_disconnect_unbound (w : World S) (sock : string) (d : Socket)
    (e : string) (p : list (string * Val)) :
  sockets w !! sock = Some d → sock_user d = None →
  (emit (ToSocket sock) e p;; RoomsGateway.disconnect sock) w =
    (Return (),
     setSockets (delete sock (sockets w))
       (setOutbox (outbox w ++ [mkEmit (ToSocket sock) e p]) w)).
Proof.
  intros Hs Hu. unfold mbind, Gw_bind, emit.
  by rewrite (disconnect_no_user (setOutbox (outbox w ++ [mkEmit (ToSocket sock) e p]) w)
                sock d Hs Hu).
Qed.

(** X1.  A handshake that brings no token, or a token that does not
    verify, is refused (lines 50-58 and 79-86): the socket is told why in a
    [connection] event and is disconnected; since no user was bound to it,
    [handleDisconnect] does nothing, and the world is the one before the
    connection plus that one event. *)
Theorem handshake_without_valid_token_is_refused (w : World S) (sock : string)
    (rawToken : option string) (verified : bool) :
  sockets w !! sock = None → sock ∉ pendingAuth w →
  truthy rawToken && verified = false →
  step (Connect sock rawToken verified) w =
    setOutbox
      (outbox w ++
         [mkEmit (ToSocket sock) "connection"
            (RoomsGateway.fail (if truthy rawToken then "Token is invalid"
                                else "Token not found"))]) w.
Proof.
  intros Hs Hp Hv. cbn [step].
  rewrite (bool_decide_eq_false_2 _ (socket_unused w sock Hs Hp)).
  unfold exec, RoomsGateway.handleConnection.
  set (w0 := setSockets (<[sock:=freshSocket]> (sockets w)) w).
  assert (sockets w0 !! sock = Some freshSocket) as Hs0 by apply lookup_insert_eq.
  assert (delete sock (sockets w0) = sockets w) as Hd
    by (by apply delete_insert_id).
  destruct (truthy rawToken); [destruct verified; [done|]|];
    rewrite (emit_disconnect_unbound w0 sock freshSocket _ _ Hs0 eq_refl);
    cbn [snd]; rewrite Hd; by destruct w.
Qed.

(** X2.  A handshake for an identity the service reports connected is
    refused (lines 65-73): the socket gets [connection] with `Already
    connected user` and is dropped; the user is not bound to it and the
    service is not told anything, so the first connection keeps its
    registration. *)
Theorem duplicate_login_is_refused (w : World S) (sock : string) (d : Socket)
    (u : User) :
  sockets w !! sock = Some d → sock_user d = None →
  RoomsService.isConnectedUser (user_name u) (svc w) = true →
  RoomsGateway.handleConnection_resume sock (Some u) w =
    (Return (),
     setSockets (delete sock (sockets w))
       (setOutbox
          (outbox w ++
             [mkEmit (ToSocket sock) "connection"
                (RoomsGateway.fail "Already connected user")]) w)).
Proof.
  intros Hs Hu Hc. unfold RoomsGateway.handleConnection_resume.
  unfold mbind at 1, Gw_bind at 1, ask. rewrite Hc.
  by apply emit_disconnect_unbound with d.
Qed.

(** The first half of a handshake that verifies: the socket is in the
    namespace, unbound, and waits for the user lookup. *)
Lemma connect_suspends (w : World S) (sock tok : string) :
  sockets w !! sock = None → sock ∉ pendingAuth w → tok ≠ "" →
  step (Connect sock (Some tok) true) w =
    setPendingAuth ({[sock]} ∪ pendingAuth w)
      (setSockets (<[sock := freshSocket]> (sockets w)) w).
Proof.
  intros Hs Hp Htok. cbn [step].
  rewrite (bool_decide_eq_false_2 _ (socket_unused w sock Hs Hp)).
  assert (truthy (Some tok) = true) as Ht.
  { unfold truthy. apply negb_true_iff. by apply String.eqb_neq. }
  unfold exec, RoomsGateway.handleConnection. by rewrite Ht.
Qed.

(** X3.  A handshake that succeeds (lines 47-78, both sides of the
    [await]): a new socket with a verified token whose user is not
    connected yet ends up bound to that user, in no room, and registered
    under the user's name; the client is sent nothing. *)
Theorem handshake_binds_user_and_registers (w : World S) (sock tok : string)
    (u : User) :
  sockets w !! sock = None → sock ∉ pendingAuth w → tok ≠ "" →
  RoomsService.isConnectedUser (user_name u) (svc w) = false →
  run [Connect sock (Some tok) true; UserFetched sock (Some u)] w =
    setSvc (RoomsService.registerSocketId (user_name u) sock (svc w))
      (setSockets (<[sock := mkSocket (Some u) None false ∅]> (sockets w)) w).
Proof.
  intros Hs Hp Htok Hc.
  change (run _ w) with
    (step (UserFetched sock (Some u)) (step (Connect sock (Some tok) true) w)).
  rewrite (connect_suspends w sock tok Hs Hp Htok). cbn [step].
  rewrite bool_decide_eq_true_2 by (cbn; set_solver).
  unfold exec, RoomsGateway.handleConnection_resume. gw_unfold. cbn.
  rewrite Hc. apply world_eq; cbn; try done.
  - by rewrite alter_insert_eq.
  - set_solver.
Qed.

(** X4.  A socket that disconnects while its handshake is waiting for the
    user lookup (line 63): [handleDisconnect] finds no user and returns, and
    when the lookup completes the handler goes on and registers the
    identity under the socket that is gone (line 78).  No socket is left,
    and the service has the registration. *)
Theorem handshake_after_disconnect_still_registers (w : World S)
    (sock tok : string) (u : User) :
  sockets w !! sock = None → sock ∉ pendingAuth w → tok ≠ "" →
  RoomsService.isConnectedUser (user_name u) (svc w) = false →
  run [Connect sock (Some tok) true; Disconnect sock; UserFetched sock (Some u)] w =
    setSvc (RoomsService.registerSocketId (user_name u) sock (svc w)) w.
Proof.
  intros Hs Hp Htok Hc.
  change (run _ w) with
    (step (UserFetched sock (Some u))
       (step (Disconnect sock) (step (Connect sock (Some tok) true) w))).
  rewrite (connect_suspends w sock tok Hs Hp Htok).
  set (w1 := setPendingAuth _ _).
  assert (sockets w1 !! sock = Some freshSocket) as Hs1 by apply lookup_insert_eq.
  assert (exec (RoomsGateway.disconnect sock) w1 =
          setSockets (delete sock (sockets w1)) w1) as Hd
    by (unfold exec; by rewrite (disconnect_no_user w1 sock freshSocket Hs1 eq_refl)).
  cbn [step]. rewrite Hd.
  rewrite bool_decide_eq_true_2 by (cbn; set_solver).
  unfold exec, RoomsGateway.handleConnection_resume. gw_unfold. cbn.
  rewrite Hc. apply world_eq; cbn; try done.
  - rewrite delete_insert_id by done. by rewrite alter_id'.
  - set_solver.
Qed.

End Handshake.

(** No token; a token that does not verify. *)
Lemma handshake_refused_witness :
  outbox (step (Connect "sA" None true) genesis) =
    [mkEmit (ToSocket "sA") "connection" (RoomsGateway.fail "Token not found")] ∧
  outbox (step (Connect "sA" (Some "Bearer x") false) genesis) =
    [mkEmit (ToSocket "sA") "connection" (RoomsGateway.fail "Token is invalid")].
Proof.
  split.
  - rewrite (handshake_without_valid_token_is_refused genesis "sA" None true);
      [reflexivity | reflexivity | set_solver | reflexivity].
  - rewrite (handshake_without_valid_token_is_refused genesis "sA" (Some "Bearer x") false);
      [reflexivity | reflexivity | set_solver | reflexivity].
Defined.

(** alice connects. *)
Lemma handshake_binds_witness :
  sockets (run (connect "sA" alice) genesis) =
    {["sA" := mkSocket (Some alice) None false ∅]} ∧
  SpecService.getSocketId "alice" (svc (run (connect "sA" alice) genesis)) = Some "sA".
Proof.
  unfold connect.
  rewrite (handshake_binds_user_and_registers genesis "sA" "Bearer token" alice);
    [split; reflexivity | reflexivity | set_solver | discriminate | reflexivity].
Defined.

(** alice's socket goes away during the lookup; afterwards alice is
    registered and has no socket. *)
Lemma handshake_after_disconnect_witness :
  let w := run [Connect "sA" (Some "Bearer token") true; Disconnect "sA";
                UserFetched "sA" (Some alice)] genesis in
  sockets w = ∅ ∧ SpecService.isConnectedUser "alice" (svc w) = true.
Proof.
  cbv zeta.
  rewrite (handshake_after_disconnect_still_registers genesis "sA" "Bearer token" alice);
    [split; reflexivity | reflexivity | set_solver | discriminate | reflexivity].
Defined.

(** alice is connected and her identity arrives on a second socket: it
    is refused and the service is as it was. *)
Lemma duplicate_login_witness :
  let w := run (connect "sA" alice ++ [Connect "sB" (Some "Bearer token") true]) genesis in
  (RoomsGateway.handleConnection_resume "sB" (Some alice) w).1 = Return () ∧
  svc (RoomsGateway.handleConnection_resume "sB" (Some alice) w).2 = svc w.
Proof.
  cbv zeta.
  set (w := run _ genesis).
  assert (sockets w !! "sB" = Some freshSocket) as Hs by (vm_compute; reflexivity).
  assert (RoomsService.isConnectedUser (user_name alice) (svc w) = true) as Hc
    by (vm_compute; reflexivity).
  rewrite (duplicate_login_is_refused w "sB" freshSocket alice Hs eq_refl Hc).
  split; reflexivity.
Defined.

Section Unbound.
Context {S : Type} `{!RoomsService.Ops S}.

(** X5.  An action sent on a socket that no user is bound to (its
    handshake is not over, line 75 not reached): every handler that reads
    [client.data.user] throws a TypeError before it has called a method
    that changes the service, joined or left a room, or emitted anything.
    Those are all actions but [lobby_info], [room_info], [create_room] and
    [pass]. *)
Theorem action_without_user_throws (w : World S) (client : string) (d : Socket)
    (m : Msg) :
  sockets w !! client = Some d → sock_user d = None →
  m ≠ MLobbyInfo → (∀ roomId, m ≠ MRoomInfo roomId) →
  (∀ roomName capacity, m ≠ MCreateRoom roomName capacity) → m ≠ MPass →
  RoomsGateway.dispatch client m w = (Throw TypeError, w).
Proof.
  intros Hs Hu H1 H2 H3 H4.
  assert (userOf client w = (Throw TypeError, w)) as Hno
    by (by apply userOf_unbound with d).
  assert (dataOf client w = (Return d, w)) as Hd by (by apply dataOf_present).
  destruct m as [|roomId| | |roomName capacity|roomId| |message|userName message|
                 |userName|item| | |userName]; cbn [RoomsGateway.dispatch];
    try done; try (by destruct (H2 roomId)); try (by destruct (H3 roomName capacity)).
  - unfold RoomsGateway.enterLobby. by rewrite (bind_throw _ _ _ _ _ Hno).
  - unfold RoomsGateway.exitLobby. by rewrite (bind_throw _ _ _ _ _ Hno).
  - unfold RoomsGateway.enterRoom. by rewrite (bind_throw _ _ _ _ _ Hno).
  - unfold RoomsGateway.exitRoom. rewrite (bind_return _ _ _ _ _ Hd). cbv beta zeta.
    by rewrite (bind_throw _ _ _ _ _ Hno).
  - unfold RoomsGateway.chat. rewrite (bind_return _ _ _ _ _ Hd). cbv beta zeta.
    by rewrite (bind_throw _ _ _ _ _ Hno).
  - unfold RoomsGateway.dm.
    rewrite (bind_return (ask _) _ w w _ eq_refl). cbv beta.
    by rewrite (bind_throw _ _ _ _ _ Hno).
  - unfold RoomsGateway.ready. rewrite (bind_return _ _ _ _ _ Hd). cbv beta zeta.
    by rewrite (bind_throw _ _ _ _ _ Hno).
  - unfold RoomsGateway.kick. rewrite (bind_return _ _ _ _ _ Hd). cbv beta zeta.
    by rewrite (bind_throw _ _ _ _ _ Hno).
  - unfold RoomsGateway.useItem. rewrite (bind_return _ _ _ _ _ Hd). cbv beta zeta.
    by rewrite (bind_throw _ _ _ _ _ Hno).
  - unfold RoomsGateway.exitResult. rewrite (bind_return _ _ _ _ _ Hd). cbv beta zeta.
    by rewrite (bind_throw _ _ _ _ _ Hno).
  - unfold RoomsGateway.invite. gw_unfold. cbn. by rewrite Hs.
Qed.

(** X6.  [create_room] on a socket with no user (lines 158-172): the room
    is created first (line 161) and the TypeError comes after, while the
    announcement is being put together (line 165).  The service has the
    new room; the Lobby is not told and the client gets no room id. *)
Theorem create_room_without_user_is_not_announced (w : World S) (client : string)
    (d : Socket) (roomName : string) (capacity : nat) :
  sockets w !! client = Some d → sock_user d = None →
  RoomsGateway.createRoom client roomName capacity w =
    (Throw TypeError,
     setSvc (RoomsService.createRoom roomName capacity (svc w)).2 w).
Proof.
  intros Hs Hu. unfold RoomsGateway.createRoom. gw_unfold.
  destruct (RoomsService.createRoom roomName capacity (svc w)) as [roomId s'].
  cbn. by rewrite Hs, Hu.
Qed.

(** X7.  [kick] of a user who has no live socket (lines 263-282): the
    service has been called at line 268 when [this.socket] returns
    [undefined] and line 273 throws.  What the service did stays: the
    membership and the timers are those the service's [kick] left; nobody
    is told, and the caller gets no status. *)
Theorem kick_of_absent_target_throws_after_the_service (w : World S)
    (client target : string) (d : Socket) (u : User) :
  sockets w !! client = Some d → sock_user d = Some u →
  let k := RoomsService.kick (sock_roomId d) (user_name u) target (rt w) (svc w) in
  (∀ tsid, RoomsService.getSocketId target k.2 = Some tsid →
           sockets w !! tsid = None) →
  RoomsGateway.kick client target w = (Throw TypeError, setRt k.1.2 (setSvc k.2 w)).
Proof.
  intros Hs Hu k _. unfold RoomsGateway.kick. gw_unfold.
  rewrite Hs. cbn. rewrite Hs, Hu. cbn.
  subst k. by destruct (RoomsService.kick _ _ _ _ _) as [[st r] s'].
Qed.

End Unbound.

Section Channels.
Context {S : Type} `{!RoomsService.Ops S}.

Lemma elem_of_members (w : World S) (sid r : string) :
  sid ∈ members (Some r) w ↔ ∃ d, sockets w !! sid = Some d ∧ r ∈ sock_rooms d.
Proof.
  unfold members. rewrite elem_of_dom. split.
  - intros [d Hd]. apply map_lookup_filter_Some in Hd as [? ?]. eauto.
  - intros (d & ? & ?). exists d. by apply map_lookup_filter_Some.
Qed.

Lemma alter_present (f : Socket → Socket) (m : gmap string Socket) (sid : string)
    (d : Socket) :
  m !! sid = Some d → alter f sid m = <[sid := f d]> m.
Proof.
  intros Hd. apply map_eq. intros k. destruct (decide (k = sid)) as [->|Hne].
  - by rewrite lookup_alter_eq, lookup_insert_eq, Hd.
  - by rewrite lookup_alter_ne, lookup_insert_ne.
Qed.

(** What [enter_room] and [enter_lobby] leave of the socket when they
    return. *)
Lemma enterRoom_socket (w w' : World S) (client : string) (d : Socket)
    (roomId : option string) (a : Reply) :
  sockets w !! client = Some d →
  RoomsGateway.enterRoom client roomId w = (Return a, w') →
  sockets w' = <[client := setRoomId roomId (joinRoom roomId d)]> (sockets w).
Proof.
  intros Hs. unfold RoomsGateway.enterRoom. gw_unfold.
  rewrite Hs. cbn. destruct (sock_user d) as [u|]; [|done]. cbn. rewrite Hs. cbn.
  destruct (RoomsService.enterRoom _ _ _ _) as [e|s']; [done|]. cbn.
  destruct (RoomsService.getGameRoom roomId s') as [room|]; [|done]. cbn.
  intros [= _ <-]. cbn.
  by rewrite (alter_present _ _ _ _ Hs), alter_insert_eq.
Qed.

Lemma enterLobby_socket (w w' : World S) (client : string) (d : Socket) (a : Reply) :
  sockets w !! client = Some d →
  RoomsGateway.enterLobby client w = (Return a, w') →
  sockets w' =
    <[client := setRoomId (Some LOBBY_ID) (joinRoom (Some LOBBY_ID) d)]> (sockets w).
Proof.
  intros Hs. remember (setRoomId _ _) as d' eqn:Hd'.
  unfold RoomsGateway.enterLobby. gw_unfold.
  rewrite Hs. cbn. destruct (sock_user d) as [u|]; [|done]. cbn. rewrite Hs. cbn.
  destruct (RoomsService.enterRoom _ _ _ _) as [e|s']; [done|]. cbn.
  intros [= _ <-]. cbn. subst d'.
  by rewrite (alter_present _ _ _ _ Hs), alter_insert_eq.
Qed.

Lemma joinRoom_keeps (r : option string) (d : Socket) (x : string) :
  x ∈ sock_rooms d → x ∈ sock_rooms (setRoomId r (joinRoom r d)).
Proof. destruct r as [y|]; cbn; [|done]. set_solver. Qed.

(** X8.  Entering never leaves: [enter_room] (lines 174-204) and
    [enter_lobby] (lines 127-145) call [client.join] and no
    [client.leave].  When they return, the connection names the room
    entered and is in its channel, and it is still in every channel it was
    in before: a connection that went from the Lobby into a room keeps
    receiving what is emitted to the Lobby. *)
Theorem entering_leaves_no_channel (w w' : World S) (client : string) (d : Socket)
    (a : Reply) (r : string) :
  sockets w !! client = Some d → r ∈ sock_rooms d →
  (∀ roomId, RoomsGateway.enterRoom client roomId w = (Return a, w') →
     sock_roomId <$> sockets w' !! client = Some roomId ∧
     client ∈ members (Some r) w' ∧
     ∀ x, roomId = Some x → client ∈ members (Some x) w') ∧
  (RoomsGateway.enterLobby client w = (Return a, w') →
     sock_roomId <$> sockets w' !! client = Some (Some LOBBY_ID) ∧
     client ∈ members (Some r) w' ∧ client ∈ members (Some LOBBY_ID) w').
Proof.
  intros Hs Hr. split.
  - intros roomId He. rewrite (enterRoom_socket w w' client d roomId a Hs He).
    rewrite lookup_insert_eq. split; [done|]. split.
    + apply elem_of_members. eexists. rewrite (enterRoom_socket w w' client d roomId a Hs He).
      rewrite lookup_insert_eq. split; [done|]. by apply joinRoom_keeps.
    + intros x ->. apply elem_of_members. eexists.
      rewrite (enterRoom_socket w w' client d (Some x) a Hs He).
      rewrite lookup_insert_eq. split; [done|]. cbn. set_solver.
  - intros He. rewrite (enterLobby_socket w w' client d a Hs He).
    rewrite lookup_insert_eq. split; [done|]. split.
    + apply elem_of_members. eexists. rewrite (enterLobby_socket w w' client d a Hs He).
      rewrite lookup_insert_eq. split; [done|]. by apply joinRoom_keeps.
    + apply elem_of_members. eexists. rewrite (enterLobby_socket w w' client d a Hs He).
      rewrite lookup_insert_eq. split; [done|]. cbn. set_solver.
Qed.

(** [exit_room] and [exit_lobby] on a bound socket. *)
Lemma exitRoom_socket (w : World S) (client : string) (d : Socket) (u : User) :
  sockets w !! client = Some d → sock_user d = Some u →
  let w' := exec (RoomsGateway.exitRoom client) w in
  sockets w' = <[client := leaveRoom (sock_roomId d) d]> (sockets w) ∧
  (rt w', svc w') =
    ((RoomsService.exitRoom (sock_roomId d) (user_name u) (rt w) (svc w)).1.2,
     (RoomsService.exitRoom (sock_roomId d) (user_name u) (rt w) (svc w)).2) ∧
  outcome (RoomsGateway.exitRoom client) w =
    Return (Ack [("status", VStr SUCCESS_STATUS); ("roomId", VRef (sock_roomId d))]).
Proof.
  intros Hs Hu. rewrite <- (alter_present (leaveRoom (sock_roomId d)) _ _ _ Hs).
  unfold RoomsGateway.exitRoom. gw_unfold.
  rewrite Hs. cbn. rewrite Hs, Hu. cbn.
  destruct (RoomsService.exitRoom _ _ _ _) as [[b r] s'].
  by destruct b.
Qed.

Lemma exitLobby_socket (w : World S) (client : string) (d : Socket) (u : User) :
  sockets w !! client = Some d → sock_user d = Some u →
  sockets (exec (RoomsGateway.exitLobby client) w) =
    <[client := leaveRoom (Some LOBBY_ID) d]> (sockets w).
Proof.
  intros Hs Hu. rewrite <- (alter_present (leaveRoom (Some LOBBY_ID)) _ _ _ Hs).
  unfold RoomsGateway.exitLobby. gw_unfold.
  rewrite Hs. cbn. rewrite Hu. cbn.
  by destruct (RoomsService.exitRoom _ _ _ _) as [[b r] s'].
Qed.

Lemma leaveRoom_roomId (r : option string) (d : Socket) :
  sock_roomId (leaveRoom r d) = sock_roomId d.
Proof. by destruct r. Qed.

(** X9.  Leaving takes the connection out of the channel and nothing else
    of it: after [exit_room] (lines 206-224) the connection is no longer
    in the channel of the room it named, after [exit_lobby] (lines
    147-156) no longer in the Lobby's; neither handler resets
    [client.data.roomId], so the connection goes on naming the room it
    named. *)
Theorem leaving_keeps_the_room_id (w : World S) (client : string) (d : Socket)
    (u : User) :
  sockets w !! client = Some d → sock_user d = Some u →
  let w1 := exec (RoomsGateway.exitRoom client) w in
  let w2 := exec (RoomsGateway.exitLobby client) w in
  (∀ x, sock_roomId d = Some x → client ∉ members (Some x) w1) ∧
  (client ∉ members (Some LOBBY_ID) w2) ∧
  sock_roomId <$> sockets w1 !! client = Some (sock_roomId d) ∧
  sock_roomId <$> sockets w2 !! client = Some (sock_roomId d).
Proof.
  intros Hs Hu w1 w2.
  destruct (exitRoom_socket w client d u Hs Hu) as (H1 & _).
  pose proof (exitLobby_socket w client d u Hs Hu) as H2.
  fold w1 in H1. fold w2 in H2. clearbody w1 w2.
  repeat split.
  - intros x Hx (d' & Hd' & Hin)%elem_of_members.
    rewrite H1, lookup_insert_eq in Hd'. injection Hd' as <-.
    rewrite Hx in Hin. cbn in Hin. set_solver.
  - intros (d' & Hd' & Hin)%elem_of_members.
    rewrite H2, lookup_insert_eq in Hd'. injection Hd' as <-.
    cbn in Hin. set_solver.
  - rewrite H1, lookup_insert_eq. cbn. by rewrite leaveRoom_roomId.
  - by rewrite H2, lookup_insert_eq.
Qed.

(** [chat] (lines 226-235) on a bound socket. *)
Lemma chat_emits (w : World S) (client message : string) (d : Socket) (u : User) :
  sockets w !! client = Some d → sock_user d = Some u →
  RoomsGateway.chat client message w =
    (Return NoReply,
     setOutbox (outbox w ++
                  [mkEmit (InRoom (sock_roomId d)) "chat"
                     [("userName", VStr (user_name u)); ("message", VStr message)]]) w).
Proof.
  intros Hs Hu. unfold RoomsGateway.chat. gw_unfold.
  rewrite Hs. cbn. by rewrite Hs, Hu.
Qed.

(** X10.  Since [exit_room] leaves [client.data.roomId] as it is, a [chat]
    sent after it (lines 226-235 after 206-224) is emitted to the room
    that was left: its members receive it, the sender, out of the channel,
    does not. *)
Theorem chat_after_exit_goes_to_the_room_left (w : World S)
    (client message x : string) (d : Socket) (u : User) :
  sockets w !! client = Some d → sock_user d = Some u → sock_roomId d = Some x →
  let w1 := exec (RoomsGateway.exitRoom client) w in
  let w2 := exec (RoomsGateway.chat client message) w1 in
  outbox w2 = outbox w1 ++
    [mkEmit (InRoom (Some x)) "chat"
       [("userName", VStr (user_name u)); ("message", VStr message)]] ∧
  recipients (InRoom (Some x)) w2 = members (Some x) w ∖ {[client]}.
Proof.
  intros Hs Hu Hx w1 w2.
  destruct (exitRoom_socket w client d u Hs Hu) as (H1 & _). fold w1 in H1.
  assert (sockets w1 !! client = Some (leaveRoom (sock_roomId d) d)) as Hs1
    by (by rewrite H1, lookup_insert_eq).
  assert (w2 = setOutbox (outbox w1 ++
                  [mkEmit (InRoom (Some x)) "chat"
                     [("userName", VStr (user_name u)); ("message", VStr message)]]) w1)
    as ->.
  { unfold w2, exec. rewrite (chat_emits w1 client message _ u Hs1).
    - by rewrite leaveRoom_roomId, Hx.
    - by destruct (sock_roomId d). }
  split; [done|]. clearbody w1. cbn [recipients].
  apply set_eq. intros sid. rewrite elem_of_difference, !elem_of_members. cbn.
  rewrite H1, Hx. cbn. rewrite elem_of_singleton.
  destruct (decide (sid = client)) as [->|Hne].
  - rewrite lookup_insert_eq. split.
    + intros (d' & [= <-] & Hin). cbn in Hin. set_solver.
    + by intros [_ ?].
  - rewrite lookup_insert_ne by done. naive_solver.
Qed.

(** X11.  [dm] (lines 237-249) changes nothing: it emits one [user_dm]
    that reaches the socket registered for the addressee and nobody else,
    nobody at all when the addressee is not registered, and answers with
    the status the service gave for the sender. *)
Theorem dm_reaches_the_addressee_only (w : World S) (client userName message : string)
    (d : Socket) (u : User) :
  sockets w !! client = Some d → sock_user d = Some u →
  let to := if RoomsService.getSocketId userName (svc w) is Some t
            then ToSocket t else InRoom None in
  RoomsGateway.dm client userName message w =
    (Return (Ack [("status", VStatus (RoomsService.dm (user_name u) (svc w)))]),
     setOutbox (outbox w ++
                  [mkEmit to "user_dm"
                     [("userName", VStr (user_name u)); ("message", VStr message)]]) w) ∧
  (∀ sid, sid ∈ recipients to w →
          RoomsService.getSocketId userName (svc w) = Some sid).
Proof.
  intros Hs Hu to. split.
  - unfold RoomsGateway.dm. gw_unfold. cbn. by rewrite Hs, Hu.
  - intros sid. unfold to.
    destruct (RoomsService.getSocketId userName (svc w)) as [t|]; cbn.
    + destruct (sockets w !! t); [|set_solver].
      by intros ->%elem_of_singleton.
    + set_solver.
Qed.

(** X12.  [invite] (lines 335-355) never delivers: [this.socket] at line
    340 gives [undefined] for every id (line 358), so reading
    [targetUserSocket.data] at line 345 throws a TypeError, whoever is
    invited and whoever invites.  Nothing is emitted and nothing has
    changed. *)
Theorem invite_is_never_delivered (w : World S) (client userName : string) :
  RoomsGateway.invite client userName w = (Throw TypeError, w).
Proof.
  unfold RoomsGateway.invite. gw_unfold. cbn.
  by destruct (sockets w !! client).
Qed.

End Channels.

Section Timers.
Context {S : Type} `{!RoomsService.Ops S}.


(** X15.  [start] after its [await] (lines 376-384) arms the item
    interval before it asks the service to change the room's state.  When
    [changeRoomState] throws, the interval is armed all the same, the
    service has not been given its handle and nothing is emitted; when it
    returns, the handle stored is the one armed and [start] and
    [room_start] are emitted. *)
Theorem start_arms_the_interval_first (w : World S) (roomId : option string)
    (problems : list string) :
  let h := nextHandle (rt w) in
  let w' := exec (RoomsGateway.start_resume roomId problems) w in
  rt w' = (setInterval roomId (rt w)).2 ∧
  intervals (rt w') !! h = Some roomId ∧
  match RoomsService.changeRoomState roomId playing (svc w) with
  | inl e =>
    outcome (RoomsGateway.start_resume roomId problems) w = Throw e ∧
    svc w' = svc w ∧ outbox w' = outbox w
  | inr s' =>
    outcome (RoomsGateway.start_resume roomId problems) w = Return () ∧
    svc w' = RoomsService.setItemCreator roomId h s' ∧
    outbox w' = outbox w ++
      [mkEmit (InRoom roomId) "start" [("problems", VList problems)];
       mkEmit (InRoom (Some LOBBY_ID)) "room_start"
         [("roomId", VRef roomId); ("state", VStr "playing")]]
  end.
Proof.
  unfold RoomsGateway.start_resume. gw_unfold. cbn.
  destruct (RoomsService.changeRoomState roomId playing (svc w)) as [e|s']; cbn.
  - split; [done|]. split; [|done]. apply lookup_insert_eq.
  - split; [done|]. split; [apply lookup_insert_eq|].
    split; [done|]. split; [done|]. by rewrite <- app_assoc.
Qed.

(** X16.  At most one countdown: a [pass] that finds a countdown stored
    for the room while the service reports that not everybody has passed
    (line 314) records the pass on the connection and does nothing else: no
    second timer is armed, the service is not called to change anything,
    nothing is emitted. *)
Theorem pass_arms_no_second_countdown (w : World S) (client : string) (d : Socket)
    (t : nat) :
  sockets w !! client = Some d →
  RoomsService.getTimer (sock_roomId d) (svc w) = Some t →
  RoomsService.allUserPassed (sock_roomId d) (svc w) = false →
  let w' := exec (RoomsGateway.pass client) w in
  rt w' = rt w ∧ svc w' = svc w ∧ outbox w' = outbox w ∧
  sockets w' = <[client := setPassed true d]> (sockets w).
Proof.
  intros Hs Ht Hp. unfold exec.
  rewrite (pass_while_counting w client d t Hs Ht Hp). cbn.
  by rewrite (alter_present _ _ _ _ Hs).
Qed.

End Timers.

(** *** The user of a connection *)

#[global] Instance same_users_preorder : PreOrder same_users.
Proof.
  split; [done|]. intros m1 m2 m3 H12 H23 sid. by rewrite H23, H12.
Qed.

Lemma same_users_alter (f : Socket → Socket) (sid : string) (m : gmap string Socket) :
  (∀ d, sock_user (f d) = sock_user d) → same_users m (alter f sid m).
Proof.
  intros Hf k. destruct (decide (sid = k)) as [<-|?].
  - rewrite lookup_alter_eq. destruct (m !! sid); simpl; [|done]. by rewrite Hf.
  - by rewrite lookup_alter_ne.
Qed.

Ltac users_side :=
  intros; apply same_users_alter; intros [];
  try match goal with
      | |- context [joinRoom ?r] => destruct r
      | |- context [leaveRoom ?r] => destruct r
      end; reflexivity.

Ltac users_auto :=
  unfold binds_nobody; keeps_auto; try (kapply keeps_update; users_side).

Section Identity.
Context {S : Type} `{!RoomsService.Ops S}.

Lemma handleDisconnect_binds_nobody (sock : string) :
  keeps (@binds_nobody S) (RoomsGateway.handleDisconnect sock).
Proof. unfold RoomsGateway.handleDisconnect. users_auto. Qed.

Lemma countdownExpired_binds_nobody (roomId : option string) :
  keeps (@binds_nobody S) (RoomsGateway.countdownExpired roomId).
Proof. unfold RoomsGateway.countdownExpired. users_auto. Qed.

Lemma createItem_each_binds_nobody (roomId : option string) (seed : nat)
    (l : list string) :
  keeps (@binds_nobody S) (RoomsGateway.createItem_each roomId seed l).
Proof.
  revert seed. induction l as [|sid l IH]; intros seed;
    cbn [RoomsGateway.createItem_each]; users_auto.
Qed.

Lemma createItem_binds_nobody (roomId : option string) (seed : nat) :
  keeps (@binds_nobody S) (RoomsGateway.createItem roomId seed).
Proof.
  unfold RoomsGateway.createItem. users_auto; try apply createItem_each_binds_nobody.
Qed.

Lemma start_resume_binds_nobody (roomId : option string) (problems : list string) :
  keeps (@binds_nobody S) (RoomsGateway.start_resume roomId problems).
Proof. unfold RoomsGateway.start_resume. users_auto. Qed.

Lemma dispatch_binds_nobody (client : string) (m : Msg) :
  keeps (@binds_nobody S) (RoomsGateway.dispatch client m).
Proof.
  destruct m; cbn [RoomsGateway.dispatch];
    unfold RoomsGateway.lobbyInfo, RoomsGateway.roomInfo, RoomsGateway.enterLobby,
      RoomsGateway.exitLobby, RoomsGateway.createRoom, RoomsGateway.enterRoom,
      RoomsGateway.exitRoom, RoomsGateway.chat, RoomsGateway.dm, RoomsGateway.ready,
      RoomsGateway.start, RoomsGateway.kick, RoomsGateway.useItem, RoomsGateway.pass,
      RoomsGateway.exitResult, RoomsGateway.invite, join, leave;
    users_auto.
Qed.

Lemma deliver_binds_nobody (client : string) (m : Gw S Reply) (w : World S) :
  keeps binds_nobody m → binds_nobody w (deliver client m w).
Proof.
  intros Hm. specialize (Hm w). unfold deliver.
  by destruct (m w) as [[a|e] w'].
Qed.

Lemma binds_nobody_unbound (w w' : World S) :
  binds_nobody w w' → handshakes_unbound w → handshakes_unbound w'.
Proof.
  intros (_ & Hq & Ha & _) Hw sid d' Hin Hs'. rewrite <- Ha in Hin.
  specialize (Hq sid). rewrite Hs' in Hq.
  destruct (sockets w !! sid) as [d|] eqn:Hs; [|done].
  injection Hq as Hq. rewrite Hq. by apply (Hw sid).
Qed.

Lemma binds_nobody_kept (w w' : World S) : binds_nobody w w' → users_kept w w'.
Proof.
  intros (_ & Hq & _) sid d u d' Hs Hu Hs'.
  specialize (Hq sid). rewrite Hs, Hs' in Hq. injection Hq as Hq. by rewrite Hq.
Qed.

(** Dropping a socket after a unit of work that binds nobody. *)
Lemma drop_unbound (w w1 : World S) (sock : string) :
  binds_nobody w w1 → handshakes_unbound w →
  handshakes_unbound (setSockets (delete sock (sockets w1)) w1).
Proof.
  intros Hb Hw sid d Hin Hs. cbn in Hin, Hs.
  apply lookup_delete_Some in Hs as [Hne Hs].
  by apply (binds_nobody_unbound w w1 Hb Hw sid d).
Qed.

Lemma drop_kept (w w1 : World S) (sock : string) :
  binds_nobody w w1 → users_kept w (setSockets (delete sock (sockets w1)) w1).
Proof.
  intros Hb sid d u d' Hs Hu Hs'. cbn in Hs'.
  apply lookup_delete_Some in Hs' as [Hne Hs'].
  by apply (binds_nobody_kept w w1 Hb sid d u d').
Qed.

Lemma disconnect_users (w : World S) (sock : string) :
  handshakes_unbound w →
  let w' := exec (RoomsGateway.disconnect sock) w in
  handshakes_unbound w' ∧ users_kept w w' ∧ pendingAuth w' = pendingAuth w.
Proof.
  intros Hw. cbv zeta.
  destruct (sockets w !! sock) as [d|] eqn:Hs.
  - rewrite (disconnect_present w sock d Hs). cbv zeta.
    pose proof (handleDisconnect_binds_nobody sock w) as Hb.
    fold (exec (RoomsGateway.handleDisconnect sock) w) in Hb.
    split; [by apply drop_unbound with w|]. split; [by apply drop_kept|].
    destruct Hb as (_ & _ & Ha & _).
    change (pendingAuth (exec (RoomsGateway.handleDisconnect sock) w) = pendingAuth w).
    by rewrite <- Ha.
  - unfold exec. rewrite (disconnect_absent w sock Hs).
    split; [done|]. split; [|done].
    intros sid d u d' Hsd Hu Hsd'. cbn in Hsd'. by simplify_eq.
Qed.

(** A unit of work of the event loop keeps the pending handshakes unbound
    and the users of the connections. *)
Lemma step_users (e : Event) (w : World S) :
  handshakes_unbound w → handshakes_unbound (step e w) ∧ users_kept w (step e w).
Proof.
  intros Hw.
  assert (users_kept w w) as Hrefl.
  { intros sid d u d' Hs Hu Hs'. by simplify_eq. }
  destruct e as [sock tok v|sock found|sock|client m|h|h seed|i ps|i]; cbn [step].
  - case_bool_decide as Hused; [done|].
    assert (sockets w !! sock = None) as Hs.
    { apply not_elem_of_dom. intros ?. apply Hused. by left. }
    assert (sock ∉ pendingAuth w) as Hp by (intros ?; apply Hused; by right).
    set (w0 := setSockets (<[sock:=freshSocket]> (sockets w)) w).
    assert (handshakes_unbound w0) as Hw0.
    { intros sid d Hin. cbn. destruct (decide (sid = sock)) as [->|Hne]; [done|].
      rewrite lookup_insert_ne by done. by apply Hw. }
    assert (users_kept w w0) as Hk0.
    { intros sid d u d' Hsd Hu. cbn.
      destruct (decide (sid = sock)) as [->|Hne]; [by rewrite Hs in Hsd|].
      rewrite lookup_insert_ne by done. intros. by simplify_eq. }
    assert (∀ msg,
              let w' := exec (emit (ToSocket sock) "connection" (RoomsGateway.fail msg);;
                              RoomsGateway.disconnect sock) w0 in
              handshakes_unbound w' ∧ users_kept w w') as Hrefused.
    { intros msg. cbv zeta. unfold exec, mbind, Gw_bind, emit. cbn [fst snd].
      set (w1 := setOutbox _ w0).
      destruct (disconnect_users w1 sock) as (Hu1 & Hk1 & _); [exact Hw0|].
      split; [exact Hu1|].
      intros sid d u d' Hsd Hu Hsd'.
      destruct (decide (sid = sock)) as [->|Hne]; [by rewrite Hs in Hsd|].
      apply (Hk1 sid d u d'); [|done..].
      cbn. by rewrite lookup_insert_ne. }
    unfold RoomsGateway.handleConnection.
    destruct (truthy tok); [destruct v|]; [|apply Hrefused..].
    unfold exec, suspendAuth. cbn [snd]. split.
    + intros sid d Hin Hsd. cbn in Hin, Hsd.
      apply elem_of_union in Hin as [->%elem_of_singleton|Hin].
      * rewrite lookup_insert_eq in Hsd. by injection Hsd as <-.
      * by apply (Hw0 sid d).
    + exact Hk0.
  - case_bool_decide as Hpend; [|done].
    set (w0 := setPendingAuth (pendingAuth w ∖ {[sock]}) w).
    assert (handshakes_unbound w0) as Hw0.
    { intros sid d Hin Hsd. cbn in Hin, Hsd.
      apply elem_of_difference in Hin as [Hin _]. by apply (Hw sid d). }
    assert (∀ msg,
              let w' := exec (emit (ToSocket sock) "connection" (RoomsGateway.fail msg);;
                              RoomsGateway.disconnect sock) w0 in
              handshakes_unbound w' ∧ users_kept w w') as Hrefused.
    { intros msg. cbv zeta. unfold exec, mbind, Gw_bind, emit. cbn [fst snd].
      set (w1 := setOutbox _ w0).
      destruct (disconnect_users w1 sock) as (Hu1 & Hk1 & _); [exact Hw0|].
      by split. }
    destruct found as [user|]; [|apply Hrefused].
    assert (exec (RoomsGateway.handleConnection_resume sock (Some user)) w0 =
            if RoomsService.isConnectedUser (user_name user) (svc w0)
            then exec (emit (ToSocket sock) "connection"
                         (RoomsGateway.fail "Already connected user");;
                       RoomsGateway.disconnect sock) w0
            else setSvc (RoomsService.registerSocketId (user_name user) sock (svc w0))
                   (setSockets (alter (setUser user) sock (sockets w0)) w0)) as ->.
    { unfold exec, RoomsGateway.handleConnection_resume.
      unfold mbind at 1, Gw_bind at 1, ask. cbn [fst snd].
      by destruct (RoomsService.isConnectedUser (user_name user) (svc w0)). }
    destruct (RoomsService.isConnectedUser (user_name user) (svc w0));
      [apply Hrefused|].
    split.
    + intros sid d Hin Hsd. cbn in Hin, Hsd.
      apply elem_of_difference in Hin as [Hin Hne%not_elem_of_singleton].
      rewrite lookup_alter_ne in Hsd by done. by apply (Hw sid d).
    + intros sid d u d' Hsd Hu Hsd'. cbn in Hsd'.
      destruct (decide (sid = sock)) as [->|Hne].
      * by rewrite (Hw sock d Hpend Hsd) in Hu.
      * rewrite lookup_alter_ne in Hsd' by done. by simplify_eq.
  - destruct (disconnect_users w sock Hw) as (? & ? & _). by split.
  - destruct (sockets w !! client); [|done].
    pose proof (deliver_binds_nobody client _ w (dispatch_binds_nobody client m)) as Hb.
    split; [by apply binds_nobody_unbound with w | by apply binds_nobody_kept].
  - destruct (timeouts (rt w) !! h) as [roomId|]; [|done].
    set (w0 := setRt _ w).
    pose proof (countdownExpired_binds_nobody roomId w0) as Hb.
    split; [by apply (binds_nobody_unbound w0) | by apply (binds_nobody_kept w0)].
  - destruct (intervals (rt w) !! h) as [roomId|]; [|done].
    pose proof (createItem_binds_nobody roomId seed w) as Hb.
    split; [by apply binds_nobody_unbound with w | by apply binds_nobody_kept].
  - destruct (pendingStarts w !! i) as [roomId|]; [|done].
    set (w0 := setPendingStarts _ w).
    pose proof (start_resume_binds_nobody roomId ps w0) as Hb.
    split; [by apply (binds_nobody_unbound w0) | by apply (binds_nobody_kept w0)].
  - done.
Qed.

Lemma run_handshakes_unbound (s0 : S) (es : list Event) :
  handshakes_unbound (run es (boot s0)).
Proof.
  induction es as [|e es IH] using rev_ind.
  - intros sid d Hin. cbn in Hin. set_solver.
  - rewrite run_snoc. by apply step_users.
Qed.

(** X17.  The user of a connection is bound once, at line 75, and never
    changed: from any start of the service and after any events, whatever
    comes next (an action of this or another connection, a handshake that
    completes, a disconnect, a timer) leaves every connection that is
    still there with the user it had. *)
Theorem bound_user_is_never_replaced (s0 : S) (es : list Event) (e : Event)
    (sid : string) (d d' : Socket) (u : User) :
  let w := run es (boot s0) in
  sockets w !! sid = Some d → sock_user d = Some u →
  sockets (step e w) !! sid = Some d' → sock_user d' = Some u.
Proof.
  intros w Hs Hu Hs'.
  destruct (step_users e w (run_handshakes_unbound s0 es)) as [_ Hk].
  by apply (Hk sid d u d').
Qed.

End Identity.

Section Kicked.
Context {S : Type} `{!RoomsService.Ops S}.

(** X18.  [kick] (lines 263-282) never gets past line 273:
    [this.socket] gives [undefined] (line 358) and [targetSocket.leave]
    throws a TypeError, whoever the target is.  The service's [kick] of
    line 268 has run and what it did stays; the target's socket is not
    taken out of the channel of the room, so a member the service has
    removed keeps receiving what is emitted to the room; nobody is told
    and the caller gets no status. *)
Theorem kick_never_leaves_the_channel (w : World S) (client target : string)
    (d : Socket) (u : User) :
  sockets w !! client = Some d → sock_user d = Some u →
  let k := RoomsService.kick (sock_roomId d) (user_name u) target (rt w) (svc w) in
  let w' := exec (RoomsGateway.kick client target) w in
  outcome (RoomsGateway.kick client target) w = Throw TypeError ∧
  svc w' = k.2 ∧ rt w' = k.1.2 ∧ sockets w' = sockets w ∧ outbox w' = outbox w ∧
  ∀ r, members r w' = members r w.
Proof.
  intros Hs Hu k w'. subst w'. unfold RoomsGateway.kick. gw_unfold.
  rewrite Hs. cbn. rewrite Hs, Hu. cbn.
  subst k. by destruct (RoomsService.kick _ _ _ _ _) as [[st r] s'].
Qed.

End Kicked.

(** *** The properties above at work *)

(** alice sends [ready] and [chat] before her handshake is over. *)
Lemma action_without_user_witness :
  RoomsGateway.dispatch "sA" MReady alice_waiting = (Throw TypeError, alice_waiting) ∧
  RoomsGateway.dispatch "sA" (MChat "hi") alice_waiting = (Throw TypeError, alice_waiting).
Proof.
  assert (sockets alice_waiting !! "sA" = Some freshSocket) as Hs
    by (vm_compute; reflexivity).
  split; apply (action_without_user_throws alice_waiting "sA" freshSocket _ Hs eq_refl);
    intros; discriminate.
Defined.

(** alice sends [create_room] before her handshake is over. *)
Lemma create_room_without_user_witness :
  let r := RoomsGateway.createRoom "sA" "duel" 2 alice_waiting in
  r.1 = Throw TypeError ∧
  roomName <$> SpecService.roomList (svc r.2) !! "room0" = Some "duel" ∧
  outbox r.2 = [].
Proof.
  assert (sockets alice_waiting !! "sA" = Some freshSocket) as Hs
    by (vm_compute; reflexivity).
  cbv zeta.
  rewrite (create_room_without_user_is_not_announced alice_waiting "sA" freshSocket
             "duel" 2 Hs eq_refl).
  split; [reflexivity|]. split; vm_compute; reflexivity.
Defined.

(** alice kicks dave, whom nobody knows. *)
Lemma kick_of_absent_target_witness :
  (RoomsGateway.kick "sA" "dave" (run two_in_room genesis)).1 = Throw TypeError.
Proof.
  assert (sockets (run two_in_room genesis) !! "sA" = Some (socket_in_room alice)) as Hs
    by (vm_compute; reflexivity).
  rewrite (kick_of_absent_target_throws_after_the_service (run two_in_room genesis)
             "sA" "dave" (socket_in_room alice) alice Hs eq_refl); [reflexivity|].
  intros tsid Hk. vm_compute in Hk. discriminate.
Defined.

(** alice goes from the lobby into her room and is still in the Lobby's
    channel. *)
Lemma entering_witness :
  let w' := exec (RoomsGateway.enterRoom "sA" (Some "room0")) (run alice_in_lobby genesis) in
  "sA" ∈ members (Some LOBBY_ID) w' ∧ "sA" ∈ members (Some "room0") w'.
Proof.
  cbv zeta. set (w := run alice_in_lobby genesis).
  set (d := mkSocket (Some alice) (Some LOBBY_ID) false {[LOBBY_ID]}).
  assert (sockets w !! "sA" = Some d) as Hs by (vm_compute; reflexivity).
  assert (LOBBY_ID ∈ sock_rooms d) as Hr by (unfold d; cbn; set_solver).
  set (a := Ack [("status", VStr "success"); ("roomId", VStr "room0")]).
  assert (RoomsGateway.enterRoom "sA" (Some "room0") w =
          (Return a, exec (RoomsGateway.enterRoom "sA" (Some "room0")) w)) as He.
  { assert ((RoomsGateway.enterRoom "sA" (Some "room0") w).1 = Return a) as H1
      by (vm_compute; reflexivity).
    unfold exec. rewrite <- H1. apply surjective_pairing. }
  destruct (proj1 (entering_leaves_no_channel w _ "sA" d a LOBBY_ID Hs Hr)
              (Some "room0") He) as (_ & Hin & Hx).
  split; [exact Hin | by apply Hx].
Defined.

(** alice leaves her room. *)
Lemma leaving_witness :
  let w1 := exec (RoomsGateway.exitRoom "sA") (run two_in_room genesis) in
  ("sA" ∉ members (Some "room0") w1) ∧
  sock_roomId <$> sockets w1 !! "sA" = Some (Some "room0").
Proof.
  assert (sockets (run two_in_room genesis) !! "sA" = Some (socket_in_room alice)) as Hs
    by (vm_compute; reflexivity).
  destruct (leaving_keeps_the_room_id (run two_in_room genesis) "sA"
              (socket_in_room alice) alice Hs eq_refl) as (H1 & _ & H3 & _).
  split; [by apply H1 | exact H3].
Defined.

(** alice leaves her room and then says something: bob hears it. *)
Lemma chat_after_exit_witness :
  let w1 := exec (RoomsGateway.exitRoom "sA") (run two_in_room genesis) in
  let w2 := exec (RoomsGateway.chat "sA" "hi") w1 in
  outbox w2 = outbox w1 ++
    [mkEmit (InRoom (Some "room0")) "chat"
       [("userName", VStr "alice"); ("message", VStr "hi")]] ∧
  recipients (InRoom (Some "room0")) w2 = {["sB"]}.
Proof.
  assert (sockets (run two_in_room genesis) !! "sA" = Some (socket_in_room alice)) as Hs
    by (vm_compute; reflexivity).
  destruct (chat_after_exit_goes_to_the_room_left (run two_in_room genesis) "sA" "hi"
              "room0" (socket_in_room alice) alice Hs eq_refl eq_refl) as [H1 H2].
  split; [exact H1|]. rewrite H2. vm_compute. reflexivity.
Defined.

(** alice writes to dave, whom nobody knows, and is told success. *)
Lemma dm_witness :
  (RoomsGateway.dm "sA" "dave" "hi" (run two_in_room genesis)).1 =
    Return (Ack [("status", VStatus Success)]) ∧
  recipients (InRoom None) (run two_in_room genesis) = ∅.
Proof.
  assert (sockets (run two_in_room genesis) !! "sA" = Some (socket_in_room alice)) as Hs
    by (vm_compute; reflexivity).
  rewrite (proj1 (dm_reaches_the_addressee_only (run two_in_room genesis) "sA" "dave" "hi"
                    (socket_in_room alice) alice Hs eq_refl)).
  split; reflexivity.
Defined.

(** alice has passed and the countdown runs; bob passes. *)
Lemma pass_arms_no_second_countdown_witness :
  let w := run alice_passed genesis in
  let w' := exec (RoomsGateway.pass "sB") w in
  rt w' = rt w ∧ svc w' = svc w ∧ outbox w' = outbox w.
Proof.
  cbv zeta. set (w := run alice_passed genesis).
  assert (sockets w !! "sB" = Some (socket_in_room bob)) as Hs
    by (vm_compute; reflexivity).
  destruct (pass_arms_no_second_countdown w "sB" (socket_in_room bob) 1 Hs)
    as (H1 & H2 & H3 & _); [vm_compute; reflexivity ..|].
  split; [exact H1 | split; [exact H2 | exact H3]].
Defined.

(** alice, in her room, is still alice after an action of bob: his
    [enter_lobby]. *)
Lemma bound_user_witness :
  sock_user <$> sockets (step (Message "sB" MEnterLobby) (run two_in_room genesis)) !! "sA"
    = Some (Some alice).
Proof.
  assert (sockets (run two_in_room (boot SpecService.init)) !! "sA" =
          Some (socket_in_room alice)) as Hs
    by (vm_compute; reflexivity).
  assert (is_Some (sockets (step (Message "sB" MEnterLobby)
                              (run two_in_room (boot SpecService.init))) !! "sA"))
    as [d' Hs'] by (vm_compute; eauto).
  change genesis with (boot SpecService.init). rewrite Hs'. cbn [fmap option_fmap option_map].
  apply (f_equal Some).
  apply (bound_user_is_never_replaced SpecService.init two_in_room
           (Message "sB" MEnterLobby) "sA" (socket_in_room alice) d' alice Hs eq_refl Hs').
Defined.

(** alice kicks bob: the service has taken bob out of the room, and bob's
    socket is still in the room's channel; nothing has been emitted. *)
Lemma kicked_witness :
  let w := run two_in_room genesis in
  let w' := exec (RoomsGateway.kick "sA" "bob") w in
  joined "room0" (svc w') = {["alice"]} ∧
  recipients (InRoom (Some "room0")) w' = {["sA"; "sB"]} ∧
  outbox w' = outbox w.
Proof.
  cbv zeta. set (w := run two_in_room genesis).
  assert (sockets w !! "sA" = Some (socket_in_room alice)) as Hs
    by (vm_compute; reflexivity).
  destruct (kick_never_leaves_the_channel w "sA" "bob" (socket_in_room alice) alice
              Hs eq_refl) as (_ & H1 & _ & _ & H2 & H3).
  split; [|split; [|exact H2]].
  - unfold joined. rewrite H1. vm_compute. reflexivity.
  - cbn [recipients]. rewrite H3. vm_compute. reflexivity.
Defined.

